(** * Process lifecycle management of the bundled PocketBase server

    A shallow embedding of the forge CLI's PocketBase helpers
    ([isValidPocketbaseProcess], [checkRunningPBInstances], [startPBServer],
    [startPocketbase], [getPBInstance]), of [executeCommand] and of
    [killExistingProcess] / [getEnvVars], together with the properties the
    specification states about them.

    The TypeScript code is effectful: it shells out, signals processes, logs,
    settles a promise and may terminate the host with [process.exit].  The
    embedding threads an explicit state (the operating system as seen by the
    host, plus the trace of effects issued so far) through a small monad
    whose outcomes distinguish a normal return, a thrown JavaScript value, a
    host exit and an [await] that never resumes. *)

From Stdlib Require Import String Ascii ZArith NArith List Bool Lia.
From Stdlib Require Import DecimalString DecimalZ DecimalPos.
Import ListNotations.

Local Open Scope list_scope.
Local Open Scope string_scope.
Local Open Scope Z_scope.

(* ------------------------------------------------------------------ *)
(** ** JavaScript strings and numbers

    A string is a sequence of code units; the model covers code units below
    256 (one [ascii] each), on which [trim] and [toLowerCase] are written
    out exactly. *)

Module JS.

Definition dquote : string := String (ascii_of_nat 34) EmptyString.
Definition newline : ascii := ascii_of_nat 10.
Definition nl : string := String newline EmptyString.

(** WhiteSpace and LineTerminator code units below 256: TAB, LF, VT, FF, CR,
    SP and NBSP. *)
Definition isWhiteSpace (c : ascii) : bool :=
  let n := N_of_ascii c in
  ((9 <=? n) && (n <=? 13) || (n =? 32) || (n =? 160))%N.

Fixpoint trimStart (s : string) : string :=
  match s with
  | EmptyString => EmptyString
  | String c s' => if isWhiteSpace c then trimStart s' else s
  end.

Fixpoint trimEnd (s : string) : string :=
  match s with
  | EmptyString => EmptyString
  | String c s' =>
      match trimEnd s' with
      | EmptyString => if isWhiteSpace c then EmptyString
                       else String c EmptyString
      | t => String c t
      end
  end.

(** [String.prototype.trim] *)
Definition trim (s : string) : string := trimEnd (trimStart s).

Definition isUpper (c : ascii) : bool :=
  let n := N_of_ascii c in
  ((65 <=? n) && (n <=? 90) || (192 <=? n) && (n <=? 214)
   || (216 <=? n) && (n <=? 222))%N.

Definition toLowerChar (c : ascii) : ascii :=
  if isUpper c then ascii_of_N (N_of_ascii c + 32) else c.

(** [String.prototype.toLowerCase] *)
Fixpoint toLowerCase (s : string) : string :=
  match s with
  | EmptyString => EmptyString
  | String c s' => String (toLowerChar c) (toLowerCase s')
  end.

(** [s.startsWith(p)] *)
Definition startsWith (s p : string) : bool := String.prefix p s.

(** [s.includes(p)] *)
Fixpoint includes (s p : string) : bool :=
  String.prefix p s ||
  match s with
  | EmptyString => false
  | String _ s' => includes s' p
  end.

(** [s.split('\n')] *)
Fixpoint splitLines (s : string) : list string :=
  match s with
  | EmptyString => [EmptyString]
  | String c s' =>
      if Ascii.eqb c newline then EmptyString :: splitLines s'
      else match splitLines s' with
           | l :: ls => String c l :: ls
           | [] => [String c EmptyString]
           end
  end.

(** [arr.join(sep)] on strings *)
Fixpoint join (sep : string) (l : list string) : string :=
  match l with
  | [] => EmptyString
  | [x] => x
  | x :: rest => x ++ sep ++ join sep rest
  end.

(** Truthiness of a string: non-empty. *)
Definition truthy (s : string) : bool :=
  match s with EmptyString => false | _ => true end.

(** A JavaScript number as far as this code produces them: [NaN] or an
    integer. *)
Inductive Number := NaN | Num (z : Z).

Definition digitValue (c : ascii) : option Z :=
  let n := N_of_ascii c in
  if ((48 <=? n) && (n <=? 57))%N then Some (Z.of_N n - 48) else None.

Definition isDigit (c : ascii) : bool :=
  match digitValue c with Some _ => true | None => false end.

Fixpoint parseDigits (acc : Z) (s : string) : Z :=
  match s with
  | EmptyString => acc
  | String c s' =>
      match digitValue c with
      | Some d => parseDigits (10 * acc + d) s'
      | None => acc
      end
  end.

Definition parseUnsigned (s : string) : Number :=
  match s with
  | String c _ => if isDigit c then Num (parseDigits 0 s) else NaN
  | EmptyString => NaN
  end.

(** [parseInt(s, 10)]: leading white space is skipped, an optional sign is
    read, then the longest run of decimal digits; no digit gives [NaN].
    The integer read is kept exactly, as a JavaScript number keeps it up to
    2^53; beyond that [parseInt] rounds (see [exactPid]). *)
Definition parseInt10 (s : string) : Number :=
  match trimStart s with
  | String c s' =>
      if Ascii.eqb c "-"%char then
        match parseUnsigned s' with Num z => Num (- z) | NaN => NaN end
      else if Ascii.eqb c "+"%char then parseUnsigned s'
      else parseUnsigned (String c s')
  | EmptyString => NaN
  end.

(** [String(n)] / [`${n}`] for an integer. *)
Definition numberToString (z : Z) : string :=
  NilEmpty.string_of_int (Z.to_int z).

(** The longest prefix of decimal digits, and what follows it. *)
Fixpoint spanDigits (s : string) : string * string :=
  match s with
  | EmptyString => (EmptyString, EmptyString)
  | String c s' =>
      if isDigit c then let (ds, rest) := spanDigits s' in (String c ds, rest)
      else (EmptyString, s)
  end.

(** [line.match] with the pattern quote, one or more digits, quote: the
    leftmost quoted run of digits, returned as [match[0]] (quotes included),
    or [None] for a failed match. *)
Fixpoint matchQuotedDigits (s : string) : option string :=
  match s with
  | EmptyString => None
  | String c s' =>
      if Ascii.eqb c (ascii_of_nat 34) then
        match spanDigits s' with
        | (String d ds, String q _) =>
            if Ascii.eqb q (ascii_of_nat 34)
            then Some (dquote ++ String d ds ++ dquote)
            else matchQuotedDigits s'
        | _ => matchQuotedDigits s'
        end
      else matchQuotedDigits s'
  end.

(** [s.replace] of every double quote by the empty string *)
Fixpoint removeQuotes (s : string) : string :=
  match s with
  | EmptyString => EmptyString
  | String c s' =>
      if Ascii.eqb c (ascii_of_nat 34) then removeQuotes s'
      else String c (removeQuotes s')
  end.

End JS.

(* ------------------------------------------------------------------ *)
(** ** The host: operating system, child process and effects *)

Inductive Platform := Win32 | Posix.

(** The [stdio] option of [spawnSync] as the callers set it. *)
Inductive Stdio := Inherit | Pipe.

(** What [spawnSync] returns: [result.error], [result.status] ([None] is
    [null], a child ended by a signal) and [result.stdout] ([None] is
    [null], nothing captured). *)
Record SpawnSyncResult := {
  error : option string;
  status : option Z;
  stdout : option string
}.

(** [process.kill(pid, 0)] and [process.kill(pid)] (SIGTERM). *)
Inductive Signal := Sig0 | SIGTERM.

(** A value thrown or used as a rejection reason: an [Error] with its
    message, or the bare exit status [executeCommand] throws. *)
Inductive Thrown :=
| ErrorObj (message : string)
| StatusVal (st : option Z).

(** What the spawned PocketBase child emits, in arrival order: a chunk on
    stdout, a chunk on stderr, an [error] event, an [exit] event with its
    code ([None] is [null]). *)
Inductive ChildEvent :=
| StdoutData (data : string)
| StderrData (data : string)
| ErrorEvent (err : Thrown)
| ExitEvent (code : option Z).

(** [pb.authStore] after [authWithPassword], or the error it threw. *)
Inductive AuthOutcome :=
| AuthThrows (err : Thrown)
| AuthStore (isSuperuser isValid : bool).

(** Everything outside the program.  [world] is the state of the operating
    system; every call may change it, so a process can disappear between two
    inspections.  [spawnSync] receives the whole shell command line
    ([executeCommand] splits it on spaces and the shell joins it again).
    [processKill] answers [Some msg] when [process.kill] throws. *)
Record Host := {
  world : Type;
  platform : Platform;
  spawnSync : string -> option Stdio -> world -> SpawnSyncResult * world;
  processKill : Z -> Signal -> world -> option string * world;
  spawn : string -> list string -> world -> (Z * list ChildEvent) * world;
  env : string -> option string;
  authWithPassword :
    option string -> option string -> option string -> world ->
    AuthOutcome * world;
  highlight : string -> string;
  PB_BINARY_PATH : string;
  PB_KWARGS : list string
}.

Inductive LogLevel := Debug | ActionableError.

(** One entry per effect the program issues. *)
Inductive Event :=
| EvLog (lvl : LogLevel) (msg : string) (hint : string)
| EvExec (cmd : string)
| EvKill (pid : Z) (sig : Signal)
| EvSpawn (bin : string) (args : list string)
| EvResolve (pid : Z)
| EvReject (reason : Thrown)
| EvAuth
| EvExit (code : Z).

(** How a computation ends: it returns, it throws, the host process exits
    ([process.exit]), or it waits on a promise that is never settled. *)
Inductive Outcome (A : Type) :=
| Ret (a : A)
| Throw (e : Thrown)
| Exit (code : Z)
| Hang.

Arguments Ret {A} a.
Arguments Throw {A} e.
Arguments Exit {A} code.
Arguments Hang {A}.

(* ------------------------------------------------------------------ *)
(** ** The effect monad *)

Section Monad.

Variable h : Host.

Record St := { os : world h; trace : list Event }.

Definition M (A : Type) : Type := St -> Outcome A * St.

Definition ret {A} (a : A) : M A := fun s => (Ret a, s).

Definition bind {A B} (m : M A) (k : A -> M B) : M B :=
  fun s =>
    match m s with
    | (Ret a, s') => k a s'
    | (Throw e, s') => (Throw e, s')
    | (Exit c, s') => (Exit c, s')
    | (Hang, s') => (Hang, s')
    end.

Definition throw {A} (e : Thrown) : M A := fun s => (Throw e, s).

Definition hang {A} : M A := fun s => (Hang, s).

Definition emit (ev : Event) : M unit :=
  fun s => (Ret tt, {| os := os s; trace := trace s ++ [ev] |}).

(** [process.exit(code)]: nothing after it runs, no [catch] sees it. *)
Definition processExit {A} (code : Z) : M A :=
  fun s => (Exit code, {| os := os s; trace := trace s ++ [EvExit code] |}).

(** [try { m } catch (e) { handler e }] *)
Definition tryCatch {A} (m : M A) (handler : Thrown -> M A) : M A :=
  fun s =>
    match m s with
    | (Throw e, s') => handler e s'
    | r => r
    end.

Definition when (b : bool) (m : M unit) : M unit :=
  if b then m else ret tt.

(** [arr.filter(f)] for an effectful [f], left to right. *)
Fixpoint filterM {A} (f : A -> M bool) (l : list A) : M (list A) :=
  match l with
  | [] => ret []
  | x :: xs =>
      bind (f x) (fun keep =>
      bind (filterM f xs) (fun rest =>
      ret (if keep then x :: rest else rest)))
  end.

(** The three calls into the operating system.  Each comes back to its
    caller; a request that ends the host itself is the subject of
    [Exposure] below. *)
Definition spawnSyncM (cmd : string) (io : option Stdio)
  : M SpawnSyncResult :=
  fun s =>
    let (r, w) := spawnSync h cmd io (os s) in
    (Ret r, {| os := w; trace := trace s ++ [EvExec cmd] |}).

Definition processKillM (pid : Z) (sig : Signal) : M unit :=
  fun s =>
    let (r, w) := processKill h pid sig (os s) in
    let s' := {| os := w; trace := trace s ++ [EvKill pid sig] |} in
    match r with
    | None => (Ret tt, s')
    | Some msg => (Throw (ErrorObj msg), s')
    end.

Definition spawnM (bin : string) (args : list string)
  : M (Z * list ChildEvent) :=
  fun s =>
    let (r, w) := spawn h bin args (os s) in
    (Ret r, {| os := w; trace := trace s ++ [EvSpawn bin args] |}).

Definition authWithPasswordM (host email password : option string)
  : M AuthOutcome :=
  fun s =>
    let (r, w) := authWithPassword h host email password (os s) in
    (Ret r, {| os := w; trace := trace s ++ [EvAuth] |}).

End Monad.

Arguments os {h} s.
Arguments trace {h} s.
Arguments ret {h A} a.
Arguments bind {h A B} m k.
Arguments throw {h A} e.
Arguments hang {h A}.
Arguments emit {h} ev.
Arguments processExit {h A} code.
Arguments tryCatch {h A} m handler.
Arguments when {h} b m.
Arguments filterM {h A} f l.
Arguments spawnSyncM {h} cmd io.
Arguments processKillM {h} pid sig.
Arguments spawnM {h} bin args.
Arguments authWithPasswordM {h} host email password.

Declare Scope monad_scope.
Delimit Scope monad_scope with monad.
Notation "x <- m ;; k" := (bind m (fun x => k))
  (at level 61, m at next level, right associativity) : monad_scope.
Notation "m ;; k" := (bind m (fun _ => k))
  (at level 61, right associativity) : monad_scope.
Local Open Scope monad_scope.

(** The logger of [@/utils/logging] is not among the sources; the
    specification leaves log formatting to it as an external collaborator.
    Every caller follows [actionableError] by its own [process.exit]. *)
Module Logging.

(** Modelled from the spec: [Logging.debug] of the missing logger module; it
    only reports its message, and neither throws nor ends the host. *)
Definition debug {h : Host} (msg : string) : M h unit :=
  emit (EvLog Debug msg EmptyString).

(** Modelled from the spec: [Logging.actionableError] of the missing logger
    module; it only reports its message and hint, and neither throws nor
    ends the host. *)
Definition actionableError {h : Host} (msg hint : string) : M h unit :=
  emit (EvLog ActionableError msg hint).

End Logging.

(* ------------------------------------------------------------------ *)
(** ** [executeCommand] *)

(** The options the modelled callers set ([cwd] and [env] are never set by
    them).  [None] is an absent (undefined) field. *)
Record CommandExecutionOptions := {
  stdio : option Stdio;
  exitOnError : option bool
}.

Definition showStatus (c : option Z) : string :=
  match c with
  | None => "null"
  | Some z => JS.numberToString z
  end.

(** [`${error}`] *)
Definition showThrown (e : Thrown) : string :=
  match e with
  | ErrorObj m => "Error: " ++ m
  | StatusVal c => showStatus c
  end.

Section Program.

Context {h : Host}.

(** [executeCommand(command, options)] for a [command] given as a string.
    A spawn error or a status other than 0 is thrown; the [catch] rethrows
    unless [options.exitOnError] is truthy. *)
Definition executeCommand (cmd : string) (options : CommandExecutionOptions)
  : M h string :=
  tryCatch
    (Logging.debug ("Executing: " ++ cmd) ;;
     result <- spawnSyncM cmd (stdio options) ;;
     match error result with
     | Some e => throw (ErrorObj e)
     | None =>
         match status result with
         | Some 0 =>
             when (match stdio options with
                   | None | Some Inherit => true
                   | Some Pipe => false
                   end)
                  (Logging.debug ("Completed: " ++ cmd)) ;;
             ret (match stdout result with
                  | Some out => JS.trim out
                  | None => EmptyString
                  end)
         | st => throw (StatusVal st)
         end
     end)
    (fun error =>
       match exitOnError options with
       | Some true =>
           Logging.actionableError
             ("Command execution failed: " ++ cmd)
             "Check if the command exists and you have the necessary permissions" ;;
           Logging.debug ("Error details: " ++ showThrown error) ;;
           processExit 1
       | _ => throw error
       end).

Definition pipeNoExit : CommandExecutionOptions :=
  {| stdio := Some Pipe; exitOnError := Some false |}.

Definition noExit : CommandExecutionOptions :=
  {| stdio := None; exitOnError := Some false |}.

Definition noOptions : CommandExecutionOptions :=
  {| stdio := None; exitOnError := None |}.

(* ------------------------------------------------------------------ *)
(** ** Identity Verifier and Existence Probe *)

Definition tasklistByPid (pid : Z) : string :=
  "tasklist /fi " ++ JS.dquote ++ "pid eq " ++ JS.numberToString pid
  ++ JS.dquote ++ " /fo csv /nh".

Definition psByPid (pid : Z) : string :=
  "ps -p " ++ JS.numberToString pid ++ " -o comm=".

Definition isValidPocketbaseProcess (pid : Z) : M h bool :=
  tryCatch
    (processKillM pid Sig0 ;;
     match platform h with
     | Win32 =>
         taskResult <- executeCommand (tasklistByPid pid) pipeNoExit ;;
         ret (JS.includes (JS.toLowerCase taskResult) "pocketbase.exe")
     | Posix =>
         psResult <- executeCommand (psByPid pid) pipeNoExit ;;
         ret (JS.includes (JS.toLowerCase psResult) "pocketbase")
     end)
    (fun _ => ret false).

Definition tasklistByImage (image : string) : string :=
  "tasklist /fi " ++ JS.dquote ++ "imagename eq " ++ image ++ JS.dquote
  ++ " /fo csv /nh".

Definition pgrepFull (pattern : string) : string :=
  "pgrep -f " ++ JS.dquote ++ pattern ++ JS.dquote.

(** [.filter(pid => !isNaN(pid))]: the numbers that are integers. *)
Fixpoint notNaN (l : list JS.Number) : list Z :=
  match l with
  | [] => []
  | JS.NaN :: rest => notNaN rest
  | JS.Num z :: rest => z :: notNaN rest
  end.

(** The PID column of one line of [tasklist /fo csv]. *)
Definition tasklistLinePid (line : string) : JS.Number :=
  match JS.matchQuotedDigits line with
  | Some m => JS.parseInt10 (JS.removeQuotes m)
  | None => JS.NaN
  end.

Definition tasklistPids (taskResult : string) : list Z :=
  notNaN (map tasklistLinePid (JS.splitLines taskResult)).

Definition pgrepPids (result : string) : list Z :=
  notNaN (map (fun pid => JS.parseInt10 (JS.trim pid))
              (JS.splitLines (JS.trim result))).

Definition joinPids (pids : list Z) : string :=
  JS.join ", " (map JS.numberToString pids).

Definition checkRunningPBInstances (exitOnErr : bool) : M h bool :=
  tryCatch
    (match platform h with
     | Win32 =>
         taskResult <-
           executeCommand (tasklistByImage "pocketbase.exe") pipeNoExit ;;
         if negb (JS.truthy (JS.trim taskResult))
            || JS.includes taskResult "No tasks are running"
         then ret false
         else
           let pids := tasklistPids taskResult in
           match pids with
           | _ :: _ =>
               when exitOnErr
                 (Logging.actionableError
                    ("PocketBase is already running (PID: "
                     ++ joinPids pids ++ ")")
                    "Stop the existing instance before proceeding" ;;
                  processExit 1) ;;
               ret true
           | [] => ret false
           end
     | Posix =>
         result <- executeCommand (pgrepFull "pocketbase serve") pipeNoExit ;;
         if negb (JS.truthy (JS.trim result)) then ret false
         else
           let pids := pgrepPids result in
           validPids <- filterM isValidPocketbaseProcess pids ;;
           match validPids with
           | _ :: _ =>
               when exitOnErr
                 (Logging.actionableError
                    ("PocketBase is already running (PID: "
                     ++ joinPids validPids ++ ")")
                    ("Stop the existing instance with " ++ JS.dquote
                     ++ "pkill -f pocketbase" ++ JS.dquote
                     ++ " before proceeding") ;;
                  processExit 1) ;;
               ret true
           | [] => ret false
           end
     end)
    (fun _ => ret false).

(* ------------------------------------------------------------------ *)
(** ** Terminator *)

Inductive KeywordOrPID :=
| Keyword (keyword : string)
| PID (pid : Z).

Definition taskkillByPid (pid : Z) : string :=
  "taskkill /F /PID " ++ JS.numberToString pid.

Definition taskkillByImage (image : string) : string :=
  "taskkill /F /IM " ++ image.

Definition pkillFull (pattern : string) : string :=
  "pkill -f " ++ JS.dquote ++ pattern ++ JS.dquote.

Definition killExistingProcess (processKeywordOrPID : KeywordOrPID)
  : M h (option JS.Number) :=
  tryCatch
    (match processKeywordOrPID with
     | PID pid =>
         match platform h with
         | Win32 =>
             executeCommand (taskkillByPid pid) noExit ;;
             ret tt
         | Posix => processKillM pid SIGTERM
         end ;;
         Logging.debug ("Killed process with PID: "
                        ++ highlight h (JS.numberToString pid)) ;;
         ret None
     | Keyword kw =>
         match platform h with
         | Win32 =>
             taskResult <-
               executeCommand (tasklistByImage (kw ++ ".exe")) pipeNoExit ;;
             when (JS.truthy (JS.trim taskResult)
                   && negb (JS.includes taskResult "No tasks are running"))
               (executeCommand (taskkillByImage (kw ++ ".exe")) noExit ;;
                Logging.debug ("Killed processes matching: " ++ kw)) ;;
             ret None
         | Posix =>
             serverInstance <- executeCommand (pgrepFull kw) pipeNoExit ;;
             if JS.truthy serverInstance then
               executeCommand (pkillFull kw) noOptions ;;
               Logging.debug ("Killed process matching keyword: "
                              ++ highlight h kw ++ " (PID: "
                              ++ highlight h serverInstance ++ ")") ;;
               ret (Some (JS.parseInt10 serverInstance))
             else ret None
         end
     end)
    (fun _ => ret None).

(* ------------------------------------------------------------------ *)
(** ** Launcher *)

(** The promise [startPBServer] returns.  Once settled, [resolve] and
    [reject] leave it as it is. *)
Inductive Promise :=
| Pending
| Resolved (pid : Z)
| Rejected (reason : Thrown).

(** Settling [p] as [q]: only a pending promise changes. *)
Definition settle (p q : Promise) : Promise :=
  match p with
  | Pending => q
  | _ => p
  end.

Definition resolve (v : Z) (p : Promise) : M h Promise :=
  emit (EvResolve v) ;;
  ret (settle p (Resolved v)).

Definition reject (e : Thrown) (p : Promise) : M h Promise :=
  emit (EvReject e) ;;
  ret (settle p (Rejected e)).

Definition portInUseHint : string :=
  "Run " ++ JS.dquote ++ "pkill -f pocketbase" ++ JS.dquote
  ++ " to stop existing instances, or check for other apps using port 8090".

(** [pbProcess.stdout.on('data', ...)]; [pid] is [pbProcess.pid]. *)
Definition onStdoutData (pid : Z) (output : string) (p : Promise)
  : M h Promise :=
  if JS.startsWith output "Error:" then
    reject (ErrorObj (JS.trim output)) p
  else
    p1 <- (if JS.includes output "Server started" then
             Logging.debug ("PocketBase server started (PID: "
                            ++ JS.numberToString pid ++ ")") ;;
             resolve pid p
           else ret p) ;;
    if JS.includes output "bind: address already in use" then
      Logging.actionableError "Port 8090 is already in use" portInUseHint ;;
      processExit 1
    else ret p1.

(** [pbProcess.stderr.on('data', ...)] *)
Definition onStderrData (data : string) (p : Promise) : M h Promise :=
  let error := JS.trim data in
  Logging.debug ("PocketBase stderr: " ++ error) ;;
  reject (ErrorObj error) p.

(** [pbProcess.on('error', ...)] *)
Definition onError (err : Thrown) (p : Promise) : M h Promise :=
  Logging.debug ("PocketBase spawn error: "
                 ++ match err with
                    | ErrorObj m => m
                    | StatusVal _ => "undefined"
                    end) ;;
  reject err p.

(** [pbProcess.on('exit', ...)] *)
Definition onExit (code : option Z) (p : Promise) : M h Promise :=
  match code with
  | Some 0 => ret p
  | _ =>
      Logging.debug ("PocketBase exited with code " ++ showStatus code) ;;
      reject (ErrorObj ("PocketBase process exited with code "
                        ++ showStatus code)) p
  end.

Definition dispatch (pid : Z) (ev : ChildEvent) (p : Promise)
  : M h Promise :=
  match ev with
  | StdoutData data => onStdoutData pid data p
  | StderrData data => onStderrData data p
  | ErrorEvent err => onError err p
  | ExitEvent code => onExit code p
  end.

(** Awaiting the promise while the child's events arrive: a settled promise
    resumes the caller at once (before the next event); with no event left
    and the promise pending, the caller never resumes. *)
Fixpoint awaitPromise (pid : Z) (events : list ChildEvent) (p : Promise)
  : M h Z :=
  match p with
  | Resolved v => ret v
  | Rejected e => throw e
  | Pending =>
      match events with
      | [] => hang
      | ev :: rest => p' <- dispatch pid ev p ;; awaitPromise pid rest p'
      end
  end.

(** [await startPBServer()] *)
Definition startPBServer : M h Z :=
  Logging.debug "Starting PocketBase server..." ;;
  child <- spawnM (PB_BINARY_PATH h) ("serve" :: PB_KWARGS h) ;;
  awaitPromise (fst child) (snd child) Pending.

(* ------------------------------------------------------------------ *)
(** ** Orchestration *)

(** The closure [() => { killExistingProcess(pbPid) }]. *)
Definition cleanup (pbPid : Z) : M h unit :=
  killExistingProcess (PID pbPid) ;; ret tt.

Definition startHint : string :=
  "Run " ++ JS.dquote ++ "bun forge db init" ++ JS.dquote
  ++ " to initialize the database or check if the PocketBase binary exists".

Definition errorMessage (e : Thrown) : string :=
  match e with
  | ErrorObj m => m
  | StatusVal _ => "Unknown error"
  end.

Definition startPocketbase : M h (option (M h unit)) :=
  tryCatch
    (pbRunning <- checkRunningPBInstances false ;;
     if pbRunning then
       Logging.debug "PocketBase is already running" ;;
       ret None
     else
       pbPid <- startPBServer ;;
       ret (Some (cleanup pbPid)))
    (fun error =>
       Logging.actionableError
         ("Failed to start PocketBase server: " ++ errorMessage error)
         startHint ;;
       processExit 1).

(** [vars[varName] = value] on an object used as a map. *)
Fixpoint setVar (k v : string) (vars : list (string * string))
  : list (string * string) :=
  match vars with
  | [] => [(k, v)]
  | (k', v') :: rest =>
      if String.eqb k k' then (k, v) :: rest else (k', v') :: setVar k v rest
  end.

Fixpoint getVar (k : string) (vars : list (string * string))
  : option string :=
  match vars with
  | [] => None
  | (k', v) :: rest => if String.eqb k k' then Some v else getVar k rest
  end.

(** The [for] loop of [getEnvVars].  [process.env[varName]] is read as the
    variable of that name; under a name that every object inherits (see
    [ownName]) JavaScript finds the inherited member when no such variable
    is set. *)
Fixpoint collectEnvVars (requiredVars : list string)
  (vars : list (string * string)) (missing : list string)
  : list (string * string) * list string :=
  match requiredVars with
  | [] => (vars, missing)
  | varName :: rest =>
      match env h varName with
      | Some (String c v) =>
          collectEnvVars rest (setVar varName (String c v) vars) missing
      | _ => collectEnvVars rest vars (missing ++ [varName])
      end
  end.

Definition envHint : string :=
  "Use the " ++ JS.dquote ++ "forge db init" ++ JS.dquote
  ++ " command to set up the environment variables, or set them manually in your env/.env.local file".

Definition getEnvVars (requiredVars : list string)
  : M h (list (string * string)) :=
  let (vars, missing) := collectEnvVars requiredVars [] [] in
  when (match missing with [] => false | _ => true end)
    (Logging.actionableError
       ("Missing required environment variables: " ++ JS.join ", " missing)
       envHint ;;
     processExit 1) ;;
  ret vars.

(** What [getPBInstance] resolves to; [pb] is the client, known here by the
    host it was built for. *)
Record PBInstance := {
  pb : option string;
  killPB : option (M h unit)
}.

Definition getPBInstance (createNewInstance : bool) : M h PBInstance :=
  killPB <- (if createNewInstance then startPocketbase else ret None) ;;
  vars <- getEnvVars ["PB_HOST"; "PB_EMAIL"; "PB_PASSWORD"] ;;
  let PB_HOST := getVar "PB_HOST" vars in
  let PB_EMAIL := getVar "PB_EMAIL" vars in
  let PB_PASSWORD := getVar "PB_PASSWORD" vars in
  tryCatch
    (auth <- authWithPasswordM PB_HOST PB_EMAIL PB_PASSWORD ;;
     match auth with
     | AuthThrows e => throw e
     | AuthStore isSuperuser isValid =>
         if negb isSuperuser || negb isValid then
           throw (ErrorObj "Invalid credentials or insufficient permissions")
         else ret {| pb := PB_HOST; killPB := killPB |}
     end)
    (fun error =>
       Logging.actionableError
         ("Authentication failed: " ++ errorMessage error)
         "Check PB_EMAIL and PB_PASSWORD in env/.env.local are correct" ;;
       processExit 1).

End Program.

(* ------------------------------------------------------------------ *)
(** ** A small concrete host

    The operating system as a list of live PocketBase processes, each with
    command line [pocketbase serve].  Used to run the program on concrete
    inputs. *)

Module Demo.

Record Config := {
  plat : Platform;
  childPid : Z;
  childEvents : list ChildEvent;
  killPermitted : bool
}.

Definition ok (out : string) : SpawnSyncResult :=
  {| error := None; status := Some 0; stdout := Some out |}.

Definition failed (code : Z) : SpawnSyncResult :=
  {| error := None; status := Some code; stdout := Some EmptyString |}.

Definition csvLine (pid : Z) : string :=
  JS.dquote ++ "pocketbase.exe" ++ JS.dquote ++ "," ++ JS.dquote
  ++ JS.numberToString pid ++ JS.dquote ++ "," ++ JS.dquote ++ "Console"
  ++ JS.dquote ++ "," ++ JS.dquote ++ "1" ++ JS.dquote ++ "," ++ JS.dquote
  ++ "10,000 K" ++ JS.dquote.

Definition noTasks : string :=
  "INFO: No tasks are running which match the specified criteria.".

Definition hasCmd (f : Z -> string) (cmd : string) (live : list Z) : bool :=
  existsb (fun p => String.eqb cmd (f p)) live.

Definition dropCmd (f : Z -> string) (cmd : string) (live : list Z)
  : list Z :=
  filter (fun p => negb (String.eqb cmd (f p))) live.

Definition run (c : Config) (cmd : string) (io : option Stdio)
  (live : list Z) : SpawnSyncResult * list Z :=
  if String.eqb cmd (pgrepFull "pocketbase serve") then
    match live with
    | [] => (failed 1, live)
    | _ => (ok (JS.join JS.nl (map JS.numberToString live) ++ JS.nl), live)
    end
  else if String.eqb cmd (tasklistByImage "pocketbase.exe") then
    match live with
    | [] => (ok noTasks, live)
    | _ => (ok (JS.join JS.nl (map csvLine live) ++ JS.nl), live)
    end
  else if hasCmd psByPid cmd live then (ok ("pocketbase" ++ JS.nl), live)
  else if hasCmd tasklistByPid cmd live then
    (ok (JS.join JS.nl (map csvLine live) ++ JS.nl), live)
  else if hasCmd taskkillByPid cmd live then
    if killPermitted c then (ok "SUCCESS", dropCmd taskkillByPid cmd live)
    else (failed 1, live)
  else if String.eqb cmd (pkillFull "pocketbase serve") then
    match live with
    | [] => (failed 1, live)
    | _ => if killPermitted c then (ok EmptyString, []) else (failed 1, live)
    end
  else (failed 127, live).

Definition kill (c : Config) (pid : Z) (sig : Signal) (live : list Z)
  : option string * list Z :=
  if existsb (Z.eqb pid) live then
    match sig with
    | Sig0 => (None, live)
    | SIGTERM =>
        if killPermitted c
        then (None, filter (fun p => negb (Z.eqb pid p)) live)
        else (Some "kill EPERM", live)
    end
  else (Some "kill ESRCH", live).

Definition environment (name : string) : option string :=
  if String.eqb name "PB_HOST" then Some "http://localhost:8090"
  else if String.eqb name "PB_EMAIL" then Some "admin@example.com"
  else if String.eqb name "PB_PASSWORD" then Some "secret"
  else None.

Definition host (c : Config) : Host :=
  {| world := list Z;
     platform := plat c;
     spawnSync := run c;
     processKill := kill c;
     spawn := fun _ _ (live : list Z) =>
                ((childPid c, childEvents c), (live ++ [childPid c])%list);
     env := environment;
     authWithPassword := fun _ _ _ live => (AuthStore true true, live);
     highlight := fun s => s;
     PB_BINARY_PATH := "/srv/database/pocketbase";
     PB_KWARGS := ["--dir=/srv/database/pb_data";
                   "--migrationsDir=/srv/database/pb_data/pb_migrations"] |}.

Definition posix (events : list ChildEvent) : Host :=
  host {| plat := Posix; childPid := 5000; childEvents := events;
          killPermitted := true |}.

Definition windows (events : list ChildEvent) : Host :=
  host {| plat := Win32; childPid := 5000; childEvents := events;
          killPermitted := true |}.

Definition posixDenied : Host :=
  host {| plat := Posix; childPid := 5000; childEvents := [];
          killPermitted := false |}.

Definition boot {h : Host} (w : world h) : St h :=
  {| os := w; trace := [] |}.

Definition posixWith (events : list ChildEvent) (live : list Z)
  : St (posix events) := boot (h := posix events) live.

Definition windowsWith (events : list ChildEvent) (live : list Z)
  : St (windows events) := boot (h := windows events) live.

Definition deniedWith (live : list Z) : St posixDenied :=
  boot (h := posixDenied) live.

End Demo.

(* ------------------------------------------------------------------ *)
(** ** Specification-side notions *)

(** [s] contains [name] up to letter case: some substring of [s] has the
    same lower-case form as [name]. *)
Definition containsIgnoringCase (s name : string) : Prop :=
  exists pre mid post,
    s = pre ++ mid ++ post /\ JS.toLowerCase mid = JS.toLowerCase name.

(** [spawnSync] reported no error and exit status 0. *)
Definition succeeded (r : SpawnSyncResult) : bool :=
  match error r, status r with
  | None, Some 0 => true
  | _, _ => false
  end.

(** The text [executeCommand] hands back from a successful run. *)
Definition output (r : SpawnSyncResult) : string :=
  match stdout r with
  | Some out => JS.trim out
  | None => EmptyString
  end.

(** The value [executeCommand] throws for a failed run. *)
Definition failure (r : SpawnSyncResult) : Thrown :=
  match error r with
  | Some e => ErrorObj e
  | None => StatusVal (status r)
  end.

(** The effects of one [executeCommand]. *)
Definition execTrace (cmd : string) (options : CommandExecutionOptions)
  (r : SpawnSyncResult) : list Event :=
  ([EvLog Debug ("Executing: " ++ cmd) EmptyString; EvExec cmd]
  ++ if succeeded r
      then match stdio options with
           | Some Pipe => []
           | _ => [EvLog Debug ("Completed: " ++ cmd) EmptyString]
           end
      else [])%list.

(** Effects that only inspect: log lines, the process-listing commands and
    the zero-signal liveness probe. *)
Definition readOnlyEvent (ev : Event) : Prop :=
  match ev with
  | EvLog Debug _ _ => True
  | EvExec cmd =>
      JS.startsWith cmd "tasklist " = true
      \/ JS.startsWith cmd "pgrep " = true
      \/ JS.startsWith cmd "ps " = true
  | EvKill _ Sig0 => True
  | _ => False
  end.

Definition anyEvent (ev : Event) : Prop := True.

(** The liveness probes found in a trace, in order. *)
Fixpoint probedPids (evs : list Event) : list Z :=
  match evs with
  | [] => []
  | EvKill pid Sig0 :: rest => pid :: probedPids rest
  | _ :: rest => probedPids rest
  end.

Definition isOsCall (ev : Event) : bool :=
  match ev with
  | EvExec _ | EvKill _ _ | EvSpawn _ _ => true
  | _ => false
  end.

Section Specs.

Context {h : Host}.

(** The command the Identity Verifier inspects a pid with, and the binary
    name it looks for. *)
Definition inspectCommand (pid : Z) : string :=
  match platform h with
  | Win32 => tasklistByPid pid
  | Posix => psByPid pid
  end.

Definition expectedBinary : string :=
  match platform h with
  | Win32 => "pocketbase.exe"
  | Posix => "pocketbase"
  end.

(** The command the Existence Probe searches with, and the pids it reads
    from the answer. *)
Definition probeCommand : string :=
  match platform h with
  | Win32 => tasklistByImage "pocketbase.exe"
  | Posix => pgrepFull "pocketbase serve"
  end.

Definition probePids (out : string) : list Z :=
  match platform h with
  | Win32 => tasklistPids out
  | Posix => pgrepPids out
  end.

(** The probe reports a running instance: it returns [true], or with
    [exitOnError] it ends the host with status 1. *)
Definition reportsRunning (exitOnErr : bool) (o : Outcome bool) : Prop :=
  if exitOnErr then o = Exit 1 else o = Ret true.

(** [s'] continues [s] by effects that all satisfy [P]. *)
Definition extends (P : Event -> Prop) (s s' : St h) : Prop :=
  exists evs, trace s' = (trace s ++ evs)%list /\ Forall P evs.

(** The verdicts of the Identity Verifier run on each pid in turn. *)
Fixpoint verdicts (pids : list Z) (s : St h) : list bool * St h :=
  match pids with
  | [] => ([], s)
  | pid :: rest =>
      let r := isValidPocketbaseProcess pid s in
      let (bs, s') := verdicts rest (snd r) in
      (match fst r with Ret true => true | _ => false end :: bs, s')
  end.

(** The pids whose verdict is [true]. *)
Fixpoint select (pids : list Z) (bs : list bool) : list Z :=
  match pids, bs with
  | pid :: ps, b :: bs' => if b then pid :: select ps bs' else select ps bs'
  | _, _ => []
  end.

(** The state [s] after the further effects [evs]. *)
Definition after (s : St h) (evs : list Event) : St h :=
  {| os := os s; trace := (trace s ++ evs)%list |}.

(** What the probe reports before it ends the host. *)
Definition alreadyRunning (pids : list Z) : list Event :=
  [EvLog ActionableError
     ("PocketBase is already running (PID: " ++ joinPids pids ++ ")")
     (match platform h with
      | Win32 => "Stop the existing instance before proceeding"
      | Posix => "Stop the existing instance with " ++ JS.dquote
                 ++ "pkill -f pocketbase" ++ JS.dquote
                 ++ " before proceeding"
      end);
   EvExit 1].

(** What the probe does with the instances its inspection found. *)
Definition report (exitOnErr : bool) (pids : list Z) (s : St h)
  : Outcome bool * St h :=
  match pids with
  | [] => (Ret false, s)
  | _ :: _ => if exitOnErr then (Exit 1, after s (alreadyRunning pids))
              else (Ret true, s)
  end.

(** The request by which the Terminator ends a process given by pid. *)
Definition killRequest (pid : Z) : Event :=
  match platform h with
  | Win32 => EvExec (taskkillByPid pid)
  | Posix => EvKill pid SIGTERM
  end.

(** The pid of the child the Launcher spawns from state [s]. *)
Definition launchedPid (s : St h) : Z :=
  fst (fst (spawn h (PB_BINARY_PATH h) ("serve" :: PB_KWARGS h) (os s))).

(** A promise of [startPBServer] is only ever resolved with the child's
    pid. *)
Definition resolvedWith (pid : Z) (p : Promise) : Prop :=
  match p with
  | Resolved v => v = pid
  | _ => True
  end.

(** The three patterns the stdout handler looks for. *)
Definition errorMarker (output : string) : bool :=
  JS.startsWith output "Error:".

Definition serverStarted (output : string) : bool :=
  JS.includes output "Server started".

Definition addressInUse (output : string) : bool :=
  JS.includes output "bind: address already in use".

(** What the stdout handler logs and does for each pattern. *)
Definition startedEvents (pid : Z) : list Event :=
  [EvLog Debug ("PocketBase server started (PID: "
                ++ JS.numberToString pid ++ ")") EmptyString;
   EvResolve pid].

Definition conflictEvents : list Event :=
  [EvLog ActionableError "Port 8090 is already in use" portInUseHint;
   EvExit 1].

(** The rejection reason of the exit handler. *)
Definition exitError (code : option Z) : Thrown :=
  ErrorObj ("PocketBase process exited with code " ++ showStatus code).

Definition exitEvents (code : option Z) : list Event :=
  [EvLog Debug ("PocketBase exited with code " ++ showStatus code)
     EmptyString;
   EvReject (exitError code)].

(** What [getPBInstance] does once the handle is known: read the
    environment, authenticate, return the client with the handle. *)
Definition authenticated (handle : option (M h unit)) : M h PBInstance :=
  vars <- getEnvVars ["PB_HOST"; "PB_EMAIL"; "PB_PASSWORD"] ;;
  tryCatch
    (auth <- authWithPasswordM (getVar "PB_HOST" vars)
               (getVar "PB_EMAIL" vars) (getVar "PB_PASSWORD" vars) ;;
     match auth with
     | AuthThrows e => throw e
     | AuthStore isSuperuser isValid =>
         if negb isSuperuser || negb isValid then
           throw (ErrorObj "Invalid credentials or insufficient permissions")
         else ret {| pb := getVar "PB_HOST" vars; killPB := handle |}
     end)
    (fun error =>
       Logging.actionableError
         ("Authentication failed: " ++ errorMessage error)
         "Check PB_EMAIL and PB_PASSWORD in env/.env.local are correct" ;;
       processExit 1).

(** The stdout classification as the specification words it: first match
    wins, in the order error marker, address already in use, server
    started. *)
Definition spec_onStdoutData (pid : Z) (output : string) (p : Promise)
  : M h Promise :=
  if JS.startsWith output "Error:" then
    reject (ErrorObj (JS.trim output)) p
  else if JS.includes output "bind: address already in use" then
    Logging.actionableError "Port 8090 is already in use" portInUseHint ;;
    processExit 1
  else if JS.includes output "Server started" then
    Logging.debug ("PocketBase server started (PID: "
                   ++ JS.numberToString pid ++ ")") ;;
    resolve pid p
  else ret p.

End Specs.

Arguments inspectCommand : clear implicits.
Arguments expectedBinary : clear implicits.
Arguments probeCommand : clear implicits.
Arguments probePids : clear implicits.
Arguments alreadyRunning : clear implicits.
Arguments killRequest : clear implicits.

(* ------------------------------------------------------------------ *)
(** ** Further notions about the Launcher and the Terminator *)

(** A child event that settles nothing and leaves no trace: a stdout chunk
    matching none of the three patterns, or an exit with code 0. *)
Definition inert (ev : ChildEvent) : bool :=
  match ev with
  | StdoutData output =>
      negb (errorMarker output) && negb (serverStarted output)
      && negb (addressInUse output)
  | ExitEvent (Some 0) => true
  | _ => false
  end.

(** A stdout chunk that announces the start and nothing else. *)
Definition announcesStart (ev : ChildEvent) : bool :=
  match ev with
  | StdoutData output =>
      negb (errorMarker output) && serverStarted output
      && negb (addressInUse output)
  | _ => false
  end.

(** An effect that asks for a process to be ended: a signal other than the
    zero signal, or a [pkill] / [taskkill] command. *)
Definition isKillRequest (ev : Event) : bool :=
  match ev with
  | EvKill _ SIGTERM => true
  | EvExec cmd =>
      JS.startsWith cmd "pkill " || JS.startsWith cmd "taskkill "
  | _ => false
  end.

Section Environment.

Context {h : Host}.

(** [process.env[name]] is set to a non-empty string. *)
Definition isSet (name : string) : bool :=
  match env h name with
  | Some (String _ _) => true
  | _ => false
  end.

(** The names of [requiredVars] that [getEnvVars] reports as missing. *)
Definition missingVars (requiredVars : list string) : list string :=
  filter (fun name => negb (isSet name)) requiredVars.

(** Membership of a name in a list of names. *)
Definition named (name : string) (names : list string) : bool :=
  existsb (String.eqb name) names.

End Environment.

Arguments isSet : clear implicits.
Arguments missingVars : clear implicits.

(** Every character of [s] satisfies [f]. *)
Fixpoint allChars (f : ascii -> bool) (s : string) : bool :=
  match s with
  | EmptyString => true
  | String c s' => f c && allChars f s'
  end.

Definition notQuote (c : ascii) : bool :=
  negb (Ascii.eqb c (ascii_of_nat 34)).

Definition notNewline (c : ascii) : bool := negb (Ascii.eqb c JS.newline).

(** What [pgrep] prints for a list of pids: one per line. *)
Definition pgrepOutput (pids : list Z) : string :=
  JS.join JS.nl (map JS.numberToString pids).

(** One line of [tasklist /fo csv /nh]: the quoted image name, the quoted
    pid, and the remaining columns. *)
Definition tasklistRow (image : string) (row : Z * string) : string :=
  JS.dquote ++ image ++ JS.dquote ++ "," ++ JS.dquote
  ++ JS.numberToString (fst row) ++ JS.dquote ++ snd row.

(** A non-empty run of decimal digits. *)
Definition printedPid (l : string) : Prop :=
  exists c t, l = String c t /\ allChars JS.isDigit (String c t) = true.

(* ------------------------------------------------------------------ *)
(** ** Helpers: single variables and [bun install] *)

Section Helpers.

Context {h : Host}.

(** [getEnvVar(varName, fallback)]; [None] is a fallback left out.
    [process.env[varName]] is read as the variable of that name (see
    [ownName] for the names where JavaScript finds more). *)
Definition getEnvVar (varName : string) (fallback : option string)
  : M h string :=
  match env h varName with
  | Some (String c v) => ret (String c v)
  | _ =>
      match fallback with
      | Some f => ret f
      | None =>
          Logging.actionableError
            ("Missing required environment variable: " ++ varName)
            envHint ;;
          processExit 1
      end
  end.

(** [bunInstall()].  [pipeOutput] stands for the test
    [Logging.level > LEVEL_ORDER['debug']] on the logger, which is not among
    the sources.  The working directory of the command is always
    [ROOT_DIR]; it is part of what the host answers for the command. *)
Definition bunInstall (pipeOutput : bool) : M h unit :=
  let backend :=
    match platform h with
    | Win32 => " --backend=copy"
    | Posix => EmptyString
    end in
  tryCatch
    (executeCommand ("bun install" ++ backend)
       {| stdio := Some (if pipeOutput then Pipe else Inherit);
          exitOnError := None |} ;;
     ret tt)
    (fun error =>
       match error with
       | StatusVal (Some 1) =>
           Logging.debug
             "Bun reported an error during install, but continuing as it usually works anyway..."
       | _ => throw error
       end).

End Helpers.

(* ------------------------------------------------------------------ *)
(** ** The package registry *)

(** [s.endsWith(p)] *)
Fixpoint endsWith (s p : string) : bool :=
  String.eqb s p ||
  match s with
  | EmptyString => false
  | String _ s' => endsWith s' p
  end.

(** The longest prefix without a double quote, and what follows it. *)
Fixpoint spanNotQuote (s : string) : string * string :=
  match s with
  | EmptyString => (EmptyString, EmptyString)
  | String c s' =>
      if notQuote c
      then let (u, rest) := spanNotQuote s' in (String c u, rest)
      else (EmptyString, s)
  end.

(** The text after the prefix [p] of [s], when [s] begins with [p]. *)
Fixpoint afterPrefix (p s : string) : option string :=
  match p, s with
  | EmptyString, _ => Some s
  | String a p', String b s' =>
      if Ascii.eqb a b then afterPrefix p' s' else None
  | String _ _, EmptyString => None
  end.

Definition scopeKey : string := JS.dquote ++ "@lifeforge" ++ JS.dquote.

(** The pattern of [getRegistryUrl] tried at the start of [s]: the quoted
    scope, white space, an equals sign, white space, a quote, one or more
    characters other than a quote (the capture), a quote.  Each greedy
    repetition is followed by a character it cannot itself match, so no
    shorter repetition can succeed where the longest fails. *)
Definition matchScopeAt (s : string) : option string :=
  match afterPrefix scopeKey s with
  | None => None
  | Some s1 =>
      match JS.trimStart s1 with
      | String eq s2 =>
          if Ascii.eqb eq "="%char then
            match JS.trimStart s2 with
            | String q s3 =>
                if Ascii.eqb q (ascii_of_nat 34) then
                  match spanNotQuote s3 with
                  | (String c u, String _ _) => Some (String c u)
                  | _ => None
                  end
                else None
            | EmptyString => None
            end
          else None
      | EmptyString => None
      end
  end.

(** [content.match] with that pattern: the capture of the leftmost
    match. *)
Fixpoint matchScopeRegistry (content : string) : option string :=
  match matchScopeAt content with
  | Some url => Some url
  | None =>
      match content with
      | EmptyString => None
      | String _ rest => matchScopeRegistry rest
      end
  end.

Definition defaultRegistry : string := "https://registry.lifeforge.dev/".

(** The parsed body of a registry answer, with the optional fields the
    code reads.  A body that is JSON but not an object behaves like one
    without any field. *)
Record PackageMetadata := {
  distTagsLatest : option (option string);
  versions : option (list (string * option (option string)))
}.

(** A [fetch] response: [response.ok], and the body as [response.json()]
    gives it ([None] when it is not JSON and [json()] rejects). *)
Record Response := {
  ok : bool;
  json : option PackageMetadata
}.

(** What [checkAuth] resolves to: the fields [authenticated] and
    [username]. *)
Record AuthStatus := {
  auth_authenticated : bool;
  auth_username : option string
}.

(** The parts of the platform and of the repository that the registry
    helpers use and that are not among the sources: the file system, the
    network, the [URL] class, the logger's [warn], and the path of
    [bunfig.toml] under [ROOT_DIR].  File reads and requests leave no entry
    in the trace.  [metadataUrl registry name] is the text of
    [new URL(registry)] with its [pathname] set to [name], or [None] when
    the constructor throws. *)
Record Outside (h : Host) := {
  bunfigPath : string;
  existsSync : string -> world h -> bool;
  readFileSync : string -> world h -> string + Thrown;
  fetch : string -> string -> world h -> (Response + Thrown) * world h;
  metadataUrl : string -> string -> option string;
  warn : string -> M h unit
}.

Arguments bunfigPath {h} _.
Arguments existsSync {h} _ _ _.
Arguments readFileSync {h} _ _ _.
Arguments fetch {h} _ _ _ _.
Arguments metadataUrl {h} _ _ _.
Arguments warn {h} _ _.

Section Registry.

Context {h : Host}.

Variable pf : Outside h.

Definition existsSyncM (path : string) : M h bool :=
  fun s => (Ret (existsSync pf path (os s)), s).

Definition readFileSyncM (path : string) : M h string :=
  fun s =>
    match readFileSync pf path (os s) with
    | inl content => (Ret content, s)
    | inr e => (Throw e, s)
    end.

Definition fetchM (method url : string) : M h Response :=
  fun s =>
    let (r, w) := fetch pf method url (os s) in
    let s' := {| os := w; trace := trace s |} in
    match r with
    | inl response => (Ret response, s')
    | inr e => (Throw e, s')
    end.

Definition getRegistryUrl : M h string :=
  found <- existsSyncM (bunfigPath pf) ;;
  if found then
    content <- readFileSyncM (bunfigPath pf) ;;
    match matchScopeRegistry content with
    | Some url => ret url
    | None => ret defaultRegistry
    end
  else ret defaultRegistry.

Definition checkPackageExists (packageName : string) : M h bool :=
  registry <- getRegistryUrl ;;
  tryCatch
    (response <-
       fetchM "HEAD"
         ((if endsWith registry "/" then registry else registry ++ "/")
          ++ packageName) ;;
     ret (ok response))
    (fun _ => ret false).

Definition checkAuth : M h AuthStatus :=
  registry <- getRegistryUrl ;;
  tryCatch
    (result <-
       executeCommand
         ("npm whoami --registry " ++ registry ++ " 2>/dev/null")
         {| stdio := Some Pipe; exitOnError := None |} ;;
     let name := JS.trim result in
     if JS.truthy name then
       ret {| auth_authenticated := true; auth_username := Some name |}
     else throw (ErrorObj "Not authenticated"))
    (fun _ =>
       warn pf "Not authenticated. Please login first." ;;
       processExit 1).

Definition getPackageMetadata (packageName : string)
  : M h (option PackageMetadata) :=
  registry <- getRegistryUrl ;;
  tryCatch
    (match metadataUrl pf registry packageName with
     | None => throw (ErrorObj "Invalid URL")
     | Some targetURL =>
         response <- fetchM "GET" targetURL ;;
         if negb (ok response) then ret None
         else
           match json response with
           | Some metadata => ret (Some metadata)
           | None => throw (ErrorObj "Unexpected token")
           end
     end)
    (fun _ => ret None).

(** [x || null] for a string that may be absent. *)
Definition orNull (x : option string) : option string :=
  match x with
  | Some (String c v) => Some (String c v)
  | _ => None
  end.

(** [metadata?.['dist-tags']?.latest] *)
Definition latestOf (metadata : option PackageMetadata) : option string :=
  match metadata with
  | Some m =>
      match distTagsLatest m with
      | Some latest => latest
      | None => None
      end
  | None => None
  end.

Fixpoint lookupVersion (v : string)
  (l : list (string * option (option string)))
  : option (option (option string)) :=
  match l with
  | [] => None
  | (k, x) :: rest => if String.eqb v k then Some x else lookupVersion v rest
  end.

(** [metadata?.versions?.[latestVersion]?.dist?.tarball] *)
Definition tarballOf (metadata : option PackageMetadata) (v : string)
  : option string :=
  match metadata with
  | Some m =>
      match versions m with
      | Some l =>
          match lookupVersion v l with
          | Some (Some tarball) => tarball
          | _ => None
          end
      | None => None
      end
  | None => None
  end.

Definition getPackageLatestVersion (packageName : string)
  : M h (option string) :=
  metadata <- getPackageMetadata packageName ;;
  ret (orNull (latestOf metadata)).

Definition getPackageTarballUrl (packageName : string)
  : M h (option string) :=
  metadata <- getPackageMetadata packageName ;;
  match latestOf metadata with
  | Some (String c v) => ret (orNull (tarballOf metadata (String c v)))
  | _ => ret None
  end.

End Registry.

(** What the registry answers to the metadata request: nothing when the
    URL cannot be built, the request fails, the response is not [ok] or its
    body is not JSON; the parsed body otherwise. *)
Definition answerOf {h : Host} (pf : Outside h)
  (registry packageName : string) (w : world h)
  : option PackageMetadata :=
  match metadataUrl pf registry packageName with
  | None => None
  | Some u =>
      match fst (fetch pf "GET" u w) with
      | inr _ => None
      | inl response => if ok response then json response else None
      end
  end.

Arguments getRegistryUrl {h} pf.
Arguments checkPackageExists {h} pf packageName.
Arguments checkAuth {h} pf.
Arguments getPackageMetadata {h} pf packageName.
Arguments getPackageLatestVersion {h} pf packageName.
Arguments getPackageTarballUrl {h} pf packageName.

Definition notAt (c : ascii) : bool := negb (Ascii.eqb c "@"%char).

(** A scope entry of [bunfig.toml]: the quoted scope, an equals sign with
    optional white space around it, the quoted registry URL. *)
Definition scopeEntry (ws1 ws2 url : string) : string :=
  scopeKey ++ ws1 ++ "=" ++ ws2 ++ JS.dquote ++ url ++ JS.dquote.

(** The registry with one slash at its end. *)
Definition withSlash (registry : string) : string :=
  if endsWith registry "/" then registry else registry ++ "/".

Definition whoami (registry : string) : string :=
  "npm whoami --registry " ++ registry ++ " 2>/dev/null".

(** The host part of a URL, given what follows the scheme. *)
Fixpoint authorityOf (s : string) : string :=
  match s with
  | EmptyString => EmptyString
  | String c s' =>
      if Ascii.eqb c "/" then EmptyString else String c (authorityOf s')
  end.

(** [new URL(registry)] with its [pathname] set to [name], printed: scheme
    and host are kept and the path of the registry is replaced.  This
    covers [http] and [https] registries without query or fragment and
    names that need no escaping and begin without a slash; anything else is
    taken for a URL that cannot be parsed. *)
Definition replacePath (registry name : string) : option string :=
  match afterPrefix "https://" registry, afterPrefix "http://" registry with
  | Some rest, _ => Some ("https://" ++ authorityOf rest ++ "/" ++ name)
  | None, Some rest => Some ("http://" ++ authorityOf rest ++ "/" ++ name)
  | None, None => None
  end.

(** A concrete registry set-up: a [bunfig.toml] with a scope entry, a
    registry that knows one package, and an [npm] that knows the user. *)
Module Sample.

Definition bunfig : string :=
  "[install.scopes]" ++ JS.nl
  ++ scopeEntry " " " " "https://npm.example.org/registry" ++ JS.nl.

Definition metadata : PackageMetadata :=
  {| distTagsLatest := Some (Some "1.2.0");
     versions :=
       Some [("1.1.0", Some (Some "https://npm.example.org/t/cal-1.1.0.tgz"));
             ("1.2.0", Some (Some "https://npm.example.org/t/cal-1.2.0.tgz"))]
  |}.

Definition host : Host :=
  {| world := list Z;
     platform := Posix;
     spawnSync := fun cmd io live =>
       if String.eqb cmd (whoami "https://npm.example.org/registry")
       then (Demo.ok ("alice" ++ JS.nl), live)
       else (Demo.failed 127, live);
     processKill := fun _ _ live => (Some "kill ESRCH", live);
     spawn := fun _ _ live => ((5000, []), live);
     env := Demo.environment;
     authWithPassword := fun _ _ _ live => (AuthStore true true, live);
     highlight := fun s => s;
     PB_BINARY_PATH := "/srv/database/pocketbase";
     PB_KWARGS := [] |}.

Definition outside : Outside host :=
  {| bunfigPath := "/srv/bunfig.toml";
     existsSync := fun path _ => String.eqb path "/srv/bunfig.toml";
     readFileSync := fun _ _ => inl bunfig;
     fetch := fun method url (live : world host) =>
       if String.eqb url
            "https://npm.example.org/registry/@lifeforge/lifeforge--calendar"
          || String.eqb url
               "https://npm.example.org/@lifeforge/lifeforge--calendar"
       then (inl {| ok := true; json := Some metadata |}, live)
       else (inr (ErrorObj "fetch failed"), live);
     metadataUrl := replacePath;
     warn := fun msg => Logging.debug msg |}.

Definition start : St host := Demo.boot (h := host) [].

End Sample.

(* ------------------------------------------------------------------ *)
(** ** Who may publish a module *)

(** [s.split(sep)[0]]: the text before the first occurrence of [sep]. *)
Fixpoint beforeFirst (sep s : string) : string :=
  if String.prefix sep s then EmptyString
  else match s with
       | EmptyString => EmptyString
       | String c s' => String c (beforeFirst sep s')
       end.

(** [s.replace(pattern, replacement)] for a pattern given as a string: the
    first occurrence is replaced. *)
Fixpoint replaceFirst (pattern replacement s : string) : string :=
  match afterPrefix pattern s with
  | Some rest => replacement ++ rest
  | None =>
      match s with
      | EmptyString => EmptyString
      | String c s' => String c (replaceFirst pattern replacement s')
      end
  end.

(** The owner a package name announces: what stands between the scope and
    the first double dash. *)
Definition usernamePrefixOf (name : string) : string :=
  beforeFirst "--" (replaceFirst "@lifeforge/" EmptyString name).

Section Publishing.

Context {h : Host}.

Variable pf : Outside h.

(** Loading [packageJSONSchema] (the schema is not among the sources),
    reading [package.json] under the module path and checking it against
    the schema: the package name of a valid file, [None] for one the schema
    refuses; a missing file or broken JSON throws. *)
Variable readPackageName : string -> M h (option string).

(** [validateMaintainerAccess] of [@/utils/github-cli], which is not among
    the sources. *)
Variable validateMaintainerAccess : string -> M h unit.

Definition validateModuleAuthor (modulePath : string) : M h unit :=
  auth <- checkAuth pf ;;
  packageJson <- readPackageName modulePath ;;
  match packageJson with
  | None =>
      Logging.actionableError "Invalid package.json"
        "Please fix the package.json file" ;;
      processExit 1
  | Some name =>
      let usernamePrefix := usernamePrefixOf name in
      let user := match auth_username auth with
                  | Some (String c u) => String c u
                  | _ => EmptyString
                  end in
      let shown := match auth_username auth with
                   | Some u => u
                   | None => "undefined"
                   end in
      if JS.truthy usernamePrefix
         && negb (match auth_username auth with
                  | Some u => String.eqb usernamePrefix u
                  | None => false
                  end)
      then
        if String.eqb usernamePrefix "lifeforge"
        then validateMaintainerAccess user
        else
          Logging.actionableError
            ("Cannot publish as " ++ JS.dquote ++ shown ++ JS.dquote
             ++ " - package belongs to " ++ JS.dquote ++ usernamePrefix
             ++ JS.dquote)
            ("You can only publish packages starting with @lifeforge/"
             ++ shown ++ "--") ;;
          processExit 1
      else ret tt
  end.

End Publishing.

Arguments validateModuleAuthor {h} pf readPackageName
  validateMaintainerAccess modulePath.

(* ------------------------------------------------------------------ *)
(** ** Where JavaScript's numbers and objects set a limit *)

(** A JavaScript number holds every integer up to 2^53 exactly, and
    [parseInt] of a longer digit string is rounded to a number it can hold.
    [JS.parseInt10] gives the exact integer: it is [parseInt] on the digit
    strings of these pids, which is every pid an operating system hands
    out. *)
Definition exactPid (p : Z) : Prop := 0 <= p <= 2 ^ 53.

(** The members every object inherits from [Object.prototype].
    [process.env[name]] and [vars[name]] find the inherited member under
    these names when no variable of that name is set; [env] and [getVar]
    find the variables only. *)
Definition objectPrototypeNames : list string :=
  ["constructor"; "__defineGetter__"; "__defineSetter__"; "hasOwnProperty";
   "__lookupGetter__"; "__lookupSetter__"; "isPrototypeOf";
   "propertyIsEnumerable"; "toString"; "valueOf"; "__proto__";
   "toLocaleString"].

(** A name under which an object holds nothing but what was stored. *)
Definition ownName (name : string) : bool :=
  negb (named name objectPrototypeNames).

(* ------------------------------------------------------------------ *)
(** ** The Terminator on a host that its own requests can reach *)

(** [spawnSyncM] and [processKillM] always come back to the caller.  A
    request to end processes can also reach the host process itself: a
    signal sent to pid 0 (the process group of the host), to the pid of the
    host or to its group, a [pkill] or [taskkill] whose pattern matches the
    host.  The host is then ended before the call comes back.  An
    [Exposure] says which requests do so: [Some c] when the request ends
    the host, [c] being the status the host ends with. *)
Record Exposure (h : Host) := {
  signalEndsHost : Z -> Signal -> world h -> option Z;
  commandEndsHost : string -> world h -> option Z
}.

Arguments signalEndsHost {h} _ _ _ _.
Arguments commandEndsHost {h} _ _ _.

(** A host that no request of its own reaches. *)
Definition sheltered (h : Host) : Exposure h :=
  {| signalEndsHost := fun _ _ _ => None;
     commandEndsHost := fun _ _ => None |}.

(** A host that is ended, with the status a shell reports for SIGTERM, by a
    signal to pid 0 and by a [pkill] or [taskkill] that names [node]. *)
Definition ownGroup (h : Host) : Exposure h :=
  {| signalEndsHost := fun pid _ _ => if pid =? 0 then Some 143 else None;
     commandEndsHost := fun cmd _ =>
       if (String.prefix "pkill" cmd || String.prefix "taskkill" cmd)
          && JS.includes cmd "node"
       then Some 143 else None |}.

(** The outcome of a request: the host is ended, or the call comes back
    with [r]. *)
Definition endedOr {A} (o : option Z) (r : Outcome A) : Outcome A :=
  match o with
  | Some c => Exit c
  | None => r
  end.

Module Exposed.

Section Reach.

Context {h : Host}.

Variable x : Exposure h.

(** [spawnSync]: the command is run; when it reaches the host, nothing
    comes back. *)
Definition spawnSyncM (cmd : string) (io : option Stdio)
  : M h SpawnSyncResult :=
  fun s =>
    match commandEndsHost x cmd (os s) with
    | Some c =>
        (Exit c,
         {| os := snd (spawnSync h cmd io (os s));
            trace := trace s ++ [EvExec cmd] |})
    | None => spawnSyncM cmd io s
    end.

(** [process.kill]: the signal is sent; when it reaches the host, nothing
    comes back.  The zero signal only inspects. *)
Definition processKillM (pid : Z) (sig : Signal) : M h unit :=
  fun s =>
    match sig, signalEndsHost x pid sig (os s) with
    | SIGTERM, Some c =>
        (Exit c,
         {| os := snd (processKill h pid sig (os s));
            trace := trace s ++ [EvKill pid sig] |})
    | _, _ => processKillM pid sig s
    end.

(** [executeCommand(command, options)], as above, over [spawnSync] on the
    exposed host. *)
Definition executeCommand (cmd : string) (options : CommandExecutionOptions)
  : M h string :=
  tryCatch
    (Logging.debug ("Executing: " ++ cmd) ;;
     result <- spawnSyncM cmd (stdio options) ;;
     match error result with
     | Some e => throw (ErrorObj e)
     | None =>
         match status result with
         | Some 0 =>
             when (match stdio options with
                   | None | Some Inherit => true
                   | Some Pipe => false
                   end)
                  (Logging.debug ("Completed: " ++ cmd)) ;;
             ret (match stdout result with
                  | Some out => JS.trim out
                  | None => EmptyString
                  end)
         | st => throw (StatusVal st)
         end
     end)
    (fun error =>
       match exitOnError options with
       | Some true =>
           Logging.actionableError
             ("Command execution failed: " ++ cmd)
             "Check if the command exists and you have the necessary permissions" ;;
           Logging.debug ("Error details: " ++ showThrown error) ;;
           processExit 1
       | _ => throw error
       end).

(** [killExistingProcess(processKeywordOrPID)], as above, over the calls of
    the exposed host. *)
Definition killExistingProcess (processKeywordOrPID : KeywordOrPID)
  : M h (option JS.Number) :=
  tryCatch
    (match processKeywordOrPID with
     | PID pid =>
         match platform h with
         | Win32 =>
             executeCommand (taskkillByPid pid) noExit ;;
             ret tt
         | Posix => processKillM pid SIGTERM
         end ;;
         Logging.debug ("Killed process with PID: "
                        ++ highlight h (JS.numberToString pid)) ;;
         ret None
     | Keyword kw =>
         match platform h with
         | Win32 =>
             taskResult <-
               executeCommand (tasklistByImage (kw ++ ".exe")) pipeNoExit ;;
             when (JS.truthy (JS.trim taskResult)
                   && negb (JS.includes taskResult "No tasks are running"))
               (executeCommand (taskkillByImage (kw ++ ".exe")) noExit ;;
                Logging.debug ("Killed processes matching: " ++ kw)) ;;
             ret None
         | Posix =>
             serverInstance <- executeCommand (pgrepFull kw) pipeNoExit ;;
             if JS.truthy serverInstance then
               executeCommand (pkillFull kw) noOptions ;;
               Logging.debug ("Killed process matching keyword: "
                              ++ highlight h kw ++ " (PID: "
                              ++ highlight h serverInstance ++ ")") ;;
               ret (Some (JS.parseInt10 serverInstance))
             else ret None
         end
     end)
    (fun _ => ret None).

End Reach.

End Exposed.

Arguments Exposed.killExistingProcess {h} x processKeywordOrPID.
Arguments Exposed.executeCommand {h} x cmd options.


(* ------------------------------------------------------------------ *)
(** ** Strings *)

Lemma prefix_app p post : String.prefix p (p ++ post) = true.
Proof.
  induction p as [|c p IH]; simpl.
  - destruct post; reflexivity.
  - destruct (ascii_dec c c) as [_|ne]; [exact IH | now elim ne].
Qed.

Lemma prefix_inv p s :
  String.prefix p s = true -> exists post, s = p ++ post.
Proof.
  revert s. induction p as [|c p IH]; intros s Hp.
  - now exists s.
  - destruct s as [|d s]; simpl in Hp; [discriminate|].
    destruct (ascii_dec c d) as [->|]; [|discriminate].
    destruct (IH _ Hp) as [post ->]. now exists post.
Qed.

Lemma includes_prefix s p : String.prefix p s = true -> JS.includes s p = true.
Proof. destruct s; cbn [JS.includes]; intros ->; reflexivity. Qed.

Lemma includes_intro pre p post : JS.includes (pre ++ p ++ post) p = true.
Proof.
  induction pre as [|c pre IH].
  - cbn [String.append]. apply includes_prefix, prefix_app.
  - cbn [String.append JS.includes]. rewrite IH. apply orb_true_r.
Qed.

Lemma includes_inv s p :
  JS.includes s p = true -> exists pre post, s = pre ++ p ++ post.
Proof.
  induction s as [|c s IH]; cbn [JS.includes]; intros Hi.
  - rewrite orb_false_r in Hi. apply prefix_inv in Hi as [post E].
    exists EmptyString, post. exact E.
  - apply orb_true_iff in Hi as [Hp|Hi].
    + apply prefix_inv in Hp as [post E]. exists EmptyString, post. exact E.
    + destruct (IH Hi) as (pre & post & ->). now exists (String c pre), post.
Qed.

Lemma toLowerCase_app a b :
  JS.toLowerCase (a ++ b) = JS.toLowerCase a ++ JS.toLowerCase b.
Proof. induction a as [|c a IH]; simpl; [|rewrite IH]; reflexivity. Qed.

Lemma toLowerCase_split s a b :
  JS.toLowerCase s = a ++ b ->
  exists s1 s2, s = s1 ++ s2 /\ JS.toLowerCase s1 = a
                /\ JS.toLowerCase s2 = b.
Proof.
  revert s. induction a as [|c a IH]; intros s E.
  - exists EmptyString, s. auto.
  - destruct s as [|d s]; simpl in E; [discriminate|].
    injection E as Ec Es. destruct (IH _ Es) as (s1 & s2 & -> & <- & <-).
    exists (String d s1), s2. simpl. now rewrite Ec.
Qed.

(** [includes] on the lower-cased text is containment up to case, for a name
    that is already lower case. *)
Lemma includes_toLowerCase s name :
  JS.toLowerCase name = name ->
  JS.includes (JS.toLowerCase s) name = true <-> containsIgnoringCase s name.
Proof.
  intros Hn. split.
  - intros Hi. apply includes_inv in Hi as (pre & post & E).
    apply toLowerCase_split in E as (s1 & s' & -> & <- & E).
    apply toLowerCase_split in E as (s2 & s3 & -> & E & <-).
    exists s1, s2, s3. split; [reflexivity|]. now rewrite E, Hn.
  - intros (pre & mid & post & -> & E).
    rewrite !toLowerCase_app, E, Hn. apply includes_intro.
Qed.

(* ------------------------------------------------------------------ *)
(** ** Running the monad *)

Ltac unfold_monad :=
  unfold Logging.debug, Logging.actionableError, when, processExit, emit,
    spawnSyncM, processKillM, tryCatch, bind, ret, throw, hang in *.

Ltac trace_eq :=
  cbn [os trace fst snd];
  repeat rewrite <- app_assoc; cbn [app]; try reflexivity.

Section Reasoning.

Context {h : Host}.

Lemma St_eq (w : world h) (t t' : list Event) :
  t = t' -> {| os := w; trace := t |} = {| os := w; trace := t' |}.
Proof. now intros ->. Qed.

(** What one call of [executeCommand] does when [exitOnError] is not set to
    true: the command runs once; a clean run returns the trimmed output,
    anything else is thrown. *)
Lemma executeCommand_run cmd options s :
  exitOnError options <> Some true ->
  executeCommand cmd options s =
  let r := spawnSync h cmd (stdio options) (os s) in
  (if succeeded (fst r) then Ret (output (fst r)) else Throw (failure (fst r)),
   {| os := snd r;
      trace := trace s ++ execTrace cmd options (fst r) |}).
Proof.
  intros Hx. unfold executeCommand, execTrace, succeeded, output, failure.
  unfold_monad. cbn [os trace].
  destruct (spawnSync h cmd (stdio options) (os s)) as [[e st o] w].
  cbn [error status stdout fst snd].
  destruct e as [e|].
  - destruct (exitOnError options) as [[|]|]; [now elim Hx| |];
      f_equal; apply St_eq; trace_eq.
  - destruct st as [[|p|p]|].
    + destruct (stdio options) as [[|]|]; cbn [os trace];
        f_equal; apply St_eq; trace_eq.
    + destruct (exitOnError options) as [[|]|]; [now elim Hx| |];
        f_equal; apply St_eq; trace_eq.
    + destruct (exitOnError options) as [[|]|]; [now elim Hx| |];
        f_equal; apply St_eq; trace_eq.
    + destruct (exitOnError options) as [[|]|]; [now elim Hx| |];
        f_equal; apply St_eq; trace_eq.
Qed.

(** What one call of the Identity Verifier does. *)
Lemma isValidPocketbaseProcess_run pid s :
  isValidPocketbaseProcess pid s =
  let k := processKill h pid Sig0 (os s) in
  match fst k with
  | Some _ =>
      (Ret false, {| os := snd k; trace := trace s ++ [EvKill pid Sig0] |})
  | None =>
      let r := spawnSync h (inspectCommand h pid) (Some Pipe) (snd k) in
      (Ret (succeeded (fst r)
            && JS.includes (JS.toLowerCase (output (fst r))) (expectedBinary h)),
       {| os := snd r;
          trace := trace s ++ EvKill pid Sig0
                   :: execTrace (inspectCommand h pid) pipeNoExit (fst r) |})
  end.
Proof.
  unfold isValidPocketbaseProcess, inspectCommand, expectedBinary.
  unfold tryCatch at 1. unfold bind at 1. unfold processKillM.
  destruct (processKill h pid Sig0 (os s)) as [[msg|] w]; cbn [fst snd].
  - reflexivity.
  - destruct (platform h); unfold bind; rewrite executeCommand_run
      by discriminate; cbn [os trace stdio pipeNoExit];
      destruct (spawnSync h _ (Some Pipe) w) as [r w2]; cbn [fst snd];
      destruct (succeeded r); cbn [andb]; unfold ret;
      f_equal; apply St_eq; trace_eq.
Qed.

Lemma filterM_isValidPocketbaseProcess pids (s : St h) :
  filterM isValidPocketbaseProcess pids s =
  (Ret (select pids (fst (verdicts pids s))), snd (verdicts pids s)).
Proof.
  revert s. induction pids as [|pid pids IH]; intros s; [reflexivity|].
  cbn [filterM verdicts]. unfold bind at 1.
  destruct (isValidPocketbaseProcess pid s) as [o s1] eqn:E.
  assert (Hb : exists b, o = Ret b).
  { pose proof (isValidPocketbaseProcess_run pid s) as R. rewrite E in R.
    cbv zeta in R. destruct (fst (processKill h pid Sig0 (os s)));
      injection R as -> _; eauto. }
  destruct Hb as [b ->]. cbn [fst snd]. unfold bind at 1. rewrite IH.
  destruct (verdicts pids s1) as [bs s2]. cbn [fst snd select].
  destruct b; reflexivity.
Qed.

(** What one call of the Existence Probe does. *)
Lemma checkRunningPBInstances_run exitOnErr s :
  checkRunningPBInstances exitOnErr s =
  let r := spawnSync h (probeCommand h) (Some Pipe) (os s) in
  let out := output (fst r) in
  let s1 := {| os := snd r;
               trace := trace s
                        ++ execTrace (probeCommand h) pipeNoExit (fst r) |} in
  if negb (succeeded (fst r)) || negb (JS.truthy (JS.trim out))
  then (Ret false, s1)
  else
    match platform h with
    | Win32 =>
        if JS.includes out "No tasks are running" then (Ret false, s1)
        else report exitOnErr (tasklistPids out) s1
    | Posix =>
        let v := verdicts (pgrepPids out) s1 in
        report exitOnErr (select (pgrepPids out) (fst v)) (snd v)
    end.
Proof.
  unfold checkRunningPBInstances, probeCommand, report, alreadyRunning, after.
  unfold tryCatch at 1.
  destruct (platform h); unfold bind at 1;
    rewrite executeCommand_run by discriminate; cbv zeta;
    cbn [stdio pipeNoExit];
    destruct (spawnSync h _ (Some Pipe) (os s)) as [r w]; cbn [fst snd];
    destruct (succeeded r); cbn [negb orb]; try reflexivity;
    destruct (JS.truthy (JS.trim (output r))); cbn [negb orb];
    try reflexivity.
  - destruct (JS.includes (output r) "No tasks are running");
      [reflexivity|].
    destruct (tasklistPids (output r)) as [|p ps]; [reflexivity|].
    destruct exitOnErr; unfold_monad; cbn [os trace];
      f_equal; apply St_eq; trace_eq.
  - unfold bind at 1. rewrite filterM_isValidPocketbaseProcess.
    destruct (verdicts _ _) as [bs s2]. cbn [fst snd].
    destruct (select _ bs) as [|p ps]; [reflexivity|].
    destruct exitOnErr; unfold_monad; cbn [os trace];
      f_equal; apply St_eq; trace_eq.
Qed.

Lemma probedPids_app a b :
  probedPids (a ++ b) = (probedPids a ++ probedPids b)%list.
Proof.
  induction a as [|ev a IH]; [reflexivity|].
  destruct ev as [| |pid [|]| | | | |]; cbn [app probedPids];
    rewrite IH; reflexivity.
Qed.

Lemma probedPids_execTrace cmd options r :
  probedPids (execTrace cmd options r) = [].
Proof.
  unfold execTrace. destruct (succeeded r); [|reflexivity].
  destruct (stdio options) as [[|]|]; reflexivity.
Qed.

Lemma readOnly_execTrace cmd options r :
  JS.startsWith cmd "tasklist " = true \/ JS.startsWith cmd "pgrep " = true
  \/ JS.startsWith cmd "ps " = true ->
  Forall readOnlyEvent (execTrace cmd options r).
Proof.
  intros Hc. unfold execTrace. destruct (succeeded r);
    [destruct (stdio options) as [[|]|]|];
    cbn [app]; repeat (apply Forall_cons || apply Forall_nil);
    solve [exact I | exact Hc].
Qed.

Lemma readOnly_inspectCommand pid :
  JS.startsWith (inspectCommand h pid) "tasklist " = true
  \/ JS.startsWith (inspectCommand h pid) "pgrep " = true
  \/ JS.startsWith (inspectCommand h pid) "ps " = true.
Proof.
  unfold inspectCommand. destruct (platform h); [left | right; right];
    reflexivity.
Qed.

Lemma readOnly_probeCommand :
  JS.startsWith (probeCommand h) "tasklist " = true
  \/ JS.startsWith (probeCommand h) "pgrep " = true
  \/ JS.startsWith (probeCommand h) "ps " = true.
Proof.
  unfold probeCommand. destruct (platform h); [left | right; left];
    reflexivity.
Qed.

Lemma extends_refl P (s : St h) : extends P s s.
Proof. exists []. split; [now rewrite app_nil_r | constructor]. Qed.

Lemma extends_trans P (s1 s2 s3 : St h) :
  extends P s1 s2 -> extends P s2 s3 -> extends P s1 s3.
Proof.
  intros (e1 & E1 & F1) (e2 & E2 & F2). exists (e1 ++ e2)%list. split.
  - now rewrite E2, E1, app_assoc.
  - apply Forall_app; auto.
Qed.

(** The Identity Verifier only inspects: one liveness probe of [pid], then at
    most one listing command. *)
Lemma isValidPocketbaseProcess_effects pid (s : St h) :
  exists evs,
    trace (snd (isValidPocketbaseProcess pid s)) = (trace s ++ evs)%list
    /\ Forall readOnlyEvent evs /\ probedPids evs = [pid].
Proof.
  rewrite isValidPocketbaseProcess_run. cbv zeta.
  destruct (fst (processKill h pid Sig0 (os s))).
  - exists [EvKill pid Sig0]. repeat split.
    apply Forall_cons; [exact I | apply Forall_nil].
  - eexists. cbn [snd trace]. split; [reflexivity|]. split.
    + constructor; [exact I|].
      apply readOnly_execTrace, readOnly_inspectCommand.
    + cbn [probedPids]. now rewrite probedPids_execTrace.
Qed.

Lemma verdicts_effects pids (s : St h) :
  exists evs,
    trace (snd (verdicts pids s)) = (trace s ++ evs)%list
    /\ Forall readOnlyEvent evs /\ probedPids evs = pids
    /\ length (fst (verdicts pids s)) = length pids.
Proof.
  revert s. induction pids as [|pid pids IH]; intros s.
  - exists []. cbn. rewrite app_nil_r. repeat split. constructor.
  - cbn [verdicts].
    destruct (isValidPocketbaseProcess_effects pid s) as (e1 & E1 & F1 & P1).
    destruct (IH (snd (isValidPocketbaseProcess pid s)))
      as (e2 & E2 & F2 & P2 & L2).
    destruct (verdicts pids (snd (isValidPocketbaseProcess pid s)))
      as [bs s2]. cbn [fst snd] in *.
    exists (e1 ++ e2)%list. repeat split.
    + now rewrite E2, E1, app_assoc.
    + apply Forall_app; auto.
    + now rewrite probedPids_app, P1, P2.
    + cbn [length]. now rewrite L2.
Qed.

Lemma select_nil_iff pids bs :
  length bs = length pids -> select pids bs = [] <-> ~ In true bs.
Proof.
  revert bs. induction pids as [|pid pids IH]; intros [|b bs] L;
    try discriminate; cbn [select In].
  - tauto.
  - injection L as L. specialize (IH bs L). destruct b.
    + split; [discriminate | intros H; elim H; now left].
    + rewrite IH. split; [intros H [?|?]; [discriminate | tauto] | tauto].
Qed.

End Reasoning.

(* ------------------------------------------------------------------ *)
(** ** Identity Verifier *)

(** C3. The Identity Verifier never throws to its caller and never ends the
    host: from every state and for every pid it returns a boolean.  It
    returns [true] exactly when the zero-signal liveness probe succeeds and
    the inspection command ([tasklist] by pid on Windows, [ps -o comm=] by
    pid elsewhere) runs cleanly with an output that contains the expected
    binary name up to letter case; a dead pid, a refused probe, a failing
    command or any other output gives [false]. *)
Theorem isValidPocketbaseProcess_total (h : Host) (pid : Z) (s : St h) :
  exists b : bool,
    fst (isValidPocketbaseProcess pid s) = Ret b
    /\ (b = true <->
        exists w1 r w2,
          processKill h pid Sig0 (os s) = (None, w1)
          /\ spawnSync h (inspectCommand h pid) (Some Pipe) w1 = (r, w2)
          /\ succeeded r = true
          /\ containsIgnoringCase (output r) (expectedBinary h)).
Proof.
  rewrite isValidPocketbaseProcess_run. cbv zeta.
  destruct (processKill h pid Sig0 (os s)) as [[msg|] w1]; cbn [fst snd].
  - exists false. split; [reflexivity|]. split; [discriminate|].
    intros (w & r & w2 & E & _). discriminate.
  - destruct (spawnSync h (inspectCommand h pid) (Some Pipe) w1) as [r w2]
      eqn:E. cbn [fst snd]. eexists. split; [reflexivity|].
    assert (Hn : JS.toLowerCase (expectedBinary h) = expectedBinary h)
      by (unfold expectedBinary; destruct (platform h); reflexivity).
    rewrite andb_true_iff, (includes_toLowerCase _ _ Hn). split.
    + intros [Hs Hc]. exists w1, r, w2. auto.
    + intros (w & r' & w' & Ek & Er & Hs & Hc).
      injection Ek as <-. rewrite E in Er. injection Er as <- <-. auto.
Qed.

(* ------------------------------------------------------------------ *)
(** ** Existence Probe *)

Section Probe.

Context {h : Host}.

(** The inspection is the same whatever [exitOnError] is; only what is done
    with a found instance differs. *)
Lemma checkRunningPBInstances_shape (s : St h) :
  exists pids s2,
    extends readOnlyEvent s s2
    /\ forall exitOnErr,
         checkRunningPBInstances exitOnErr s = report exitOnErr pids s2.
Proof.
  pose proof (checkRunningPBInstances_run (h:=h)) as R. cbv zeta in R.
  set (r := spawnSync h (probeCommand h) (Some Pipe) (os s)) in *.
  set (s1 := {| os := snd r;
                trace := trace s
                         ++ execTrace (probeCommand h) pipeNoExit (fst r) |}).
  assert (X1 : extends readOnlyEvent s s1).
  { eexists. split; [reflexivity|].
    apply readOnly_execTrace, readOnly_probeCommand. }
  destruct (negb (succeeded (fst r))
            || negb (JS.truthy (JS.trim (output (fst r))))) eqn:G.
  { exists [], s1. split; [exact X1|]. intros e. rewrite R.
    fold r. now rewrite G. }
  destruct (platform h) eqn:Pl.
  - destruct (JS.includes (output (fst r)) "No tasks are running") eqn:I.
    + exists [], s1. split; [exact X1|]. intros e. rewrite R. fold r.
      now rewrite G, I.
    + exists (tasklistPids (output (fst r))), s1. split; [exact X1|].
      intros e. rewrite R. fold r. rewrite G, I. reflexivity.
  - exists (select (pgrepPids (output (fst r)))
                   (fst (verdicts (pgrepPids (output (fst r))) s1))),
           (snd (verdicts (pgrepPids (output (fst r))) s1)).
    split.
    + apply (extends_trans _ _ _ _ X1).
      destruct (verdicts_effects (pgrepPids (output (fst r))) s1)
        as (evs & E & F & _). now exists evs.
    + intros e. rewrite R. fold r. rewrite G. reflexivity.
Qed.

(** When no inspection of a pid can succeed, no pid is verified. *)
Lemma verdicts_all_false pids (s : St h) :
  (forall pid w,
     succeeded (fst (spawnSync h (inspectCommand h pid) (Some Pipe) w))
     = false) ->
  ~ In true (fst (verdicts pids s)).
Proof.
  intros Hall. revert s. induction pids as [|pid pids IH]; intros s.
  - intros [].
  - cbn [verdicts]. specialize (IH (snd (isValidPocketbaseProcess pid s))).
    destruct (verdicts pids _) as [bs s']. cbn [fst] in *.
    rewrite isValidPocketbaseProcess_run. cbv zeta.
    destruct (fst (processKill h pid Sig0 (os s))); cbn [fst].
    + intros [E|E]; [discriminate | tauto].
    + rewrite Hall. cbn [andb]. intros [E|E]; [discriminate | tauto].
Qed.

(** Without [exitOnError] the probe returns a boolean after read-only
    effects. *)
Lemma checkRunningPBInstances_quiet (s : St h) :
  (exists b, fst (checkRunningPBInstances false s) = Ret b)
  /\ extends readOnlyEvent s (snd (checkRunningPBInstances false s)).
Proof.
  destruct (checkRunningPBInstances_shape s) as (pids & s2 & X & R).
  rewrite R. destruct pids; cbn [report fst snd]; eauto.
Qed.

End Probe.

(** C2 (as amended). Called with [exitOnError = false], the Existence Probe
    always returns a boolean, never ends the host, and issues read-only
    effects only: debug log lines, the [tasklist] / [pgrep] / [ps] listing
    commands and zero-signal liveness probes.  Called with
    [exitOnError = true] it performs the same inspection and, exactly when
    that inspection finds a running instance, reports it and ends the host
    with status 1; otherwise it returns [false]. *)
Theorem checkRunningPBInstances_frame (h : Host) (s : St h) :
  let quiet := checkRunningPBInstances false s in
  let strict := checkRunningPBInstances true s in
  (exists b, fst quiet = Ret b)
  /\ extends readOnlyEvent s (snd quiet)
  /\ (fst strict = Exit 1 <-> fst quiet = Ret true)
  /\ (fst strict = Ret false <-> fst quiet = Ret false)
  /\ (fst strict = Exit 1 \/ fst strict = Ret false)
  /\ (fst strict = Ret false -> snd strict = snd quiet)
  /\ (fst strict = Exit 1 ->
      exists pids,
        pids <> []
        /\ snd strict = after (snd quiet) (alreadyRunning h pids)).
Proof.
  destruct (checkRunningPBInstances_shape s) as (pids & s2 & X & R).
  cbv zeta. rewrite !R. destruct pids as [|p ps]; cbn [report fst snd].
  - repeat split; eauto; discriminate.
  - repeat split; eauto; try discriminate.
    intros _. exists (p :: ps). split; [discriminate | reflexivity].
Qed.

(** C2, counterexample. On a POSIX host with one genuine PocketBase process
    the probe, called with its default [exitOnError = true], ends the host
    process with status 1. *)
Lemma checkRunningPBInstances_exits_host :
  let s := Demo.posixWith [] [4242] in
  fst (checkRunningPBInstances true s) = Exit 1
  /\ In (EvExit 1) (trace (snd (checkRunningPBInstances true s)))
  /\ ~ extends readOnlyEvent s (snd (checkRunningPBInstances true s)).
Proof.
  cbv zeta. split; [reflexivity|]. split.
  - vm_compute. tauto.
  - intros (evs & E & F). vm_compute in E. subst evs.
    rewrite Forall_forall in F.
    apply (F (EvExit 1)). cbn. tauto.
Qed.

(** C5. Detection fails open.  When the process-listing command of the probe
    fails (a spawn error, a non-zero or missing exit status), or succeeds
    with an output from which no pid can be read, or (on POSIX) finds pids
    but every per-pid inspection command fails, the probe returns [false],
    whatever [exitOnError] is: nothing is thrown to the caller and the host
    is not ended. *)
Theorem checkRunningPBInstances_fail_open
  (h : Host) (exitOnErr : bool) (s : St h) :
  let r := fst (spawnSync h (probeCommand h) (Some Pipe) (os s)) in
  succeeded r = false
  \/ probePids h (output r) = []
  \/ (platform h = Posix
      /\ forall pid w,
           succeeded (fst (spawnSync h (inspectCommand h pid) (Some Pipe) w))
           = false) ->
  fst (checkRunningPBInstances exitOnErr s) = Ret false.
Proof.
  cbv zeta. intros H. rewrite checkRunningPBInstances_run. cbv zeta.
  destruct (succeeded _) eqn:S; cbn [negb orb]; [|reflexivity].
  destruct (JS.truthy _); cbn [negb]; [|reflexivity].
  destruct H as [H|[H|[Hp H]]]; [discriminate| |].
  - unfold probePids in H. destruct (platform h).
    + rewrite H. now destruct (JS.includes _ _).
    + rewrite H. reflexivity.
  - rewrite Hp.
    match goal with
    | |- context [verdicts ?pids ?t] =>
        pose proof (verdicts_all_false pids t H) as Hn;
        destruct (verdicts_effects pids t) as (_ & _ & _ & _ & L);
        apply (select_nil_iff _ _ L) in Hn; rewrite Hn
    end.
    reflexivity.
Qed.

(** C5, witness: on a POSIX host without any PocketBase process [pgrep]
    exits with status 1. *)
Lemma checkRunningPBInstances_fail_open_witness :
  fst (checkRunningPBInstances true (Demo.posixWith [] [])) = Ret false.
Proof.
  apply (checkRunningPBInstances_fail_open (Demo.posix []) true
           (Demo.posixWith [] [])).
  left. reflexivity.
Defined.

(** The probe in terms of what it parsed: on POSIX the pids parsed from the
    [pgrep] output are probed, once and in order, and a running instance
    is reported exactly when one of them is verified; on Windows no pid is
    probed. *)
Lemma checkRunningPBInstances_probed
  (h : Host) (exitOnErr : bool) (s : St h) :
  let r := spawnSync h (probeCommand h) (Some Pipe) (os s) in
  let out := output (fst r) in
  let s1 := {| os := snd r;
               trace := trace s
                        ++ execTrace (probeCommand h) pipeNoExit (fst r) |} in
  let res := checkRunningPBInstances exitOnErr s in
  let found := succeeded (fst r) && JS.truthy (JS.trim out) in
  exists evs,
    trace (snd res) = (trace s ++ evs)%list
    /\ (reportsRunning exitOnErr (fst res) \/ fst res = Ret false)
    /\ match platform h with
       | Posix =>
           probedPids evs = (if found then pgrepPids out else [])
           /\ (reportsRunning exitOnErr (fst res) <->
               found = true
               /\ In true (fst (verdicts (pgrepPids out) s1)))
       | Win32 =>
           probedPids evs = []
           /\ (reportsRunning exitOnErr (fst res) <->
               found = true
               /\ JS.includes out "No tasks are running" = false
               /\ tasklistPids out <> [])
       end.
Proof.
  cbv zeta. rewrite checkRunningPBInstances_run. cbv zeta.
  set (r := spawnSync h (probeCommand h) (Some Pipe) (os s)).
  set (s1 := {| os := snd r; trace := _ |}).
  assert (N : forall e, ~ reportsRunning e (@Ret bool false))
    by (intros [|]; discriminate).
  assert (Y : forall e p ps (t : St h),
             reportsRunning e (fst (report e (p :: ps) t)))
    by (intros [|]; reflexivity).
  rewrite <- negb_andb.
  destruct (succeeded (fst r) && JS.truthy (JS.trim (output (fst r))))
    eqn:G; cbn [negb].
  2:{ exists (execTrace (probeCommand h) pipeNoExit (fst r)).
      split; [reflexivity|]. split; [now right|].
      destruct (platform h); (split; [apply probedPids_execTrace|]);
        (split; [intros H; now apply N in H | intros [? _]; discriminate]). }
  destruct (platform h).
  - exists (execTrace (probeCommand h) pipeNoExit (fst r)
            ++ match tasklistPids (output (fst r)) with
               | [] => []
               | _ :: _ =>
                   if exitOnErr
                      && negb (JS.includes (output (fst r))
                                 "No tasks are running")
                   then alreadyRunning h (tasklistPids (output (fst r)))
                   else []
               end)%list.
    destruct (JS.includes (output (fst r)) "No tasks are running").
    + rewrite andb_false_r. cbn [fst snd].
      split; [now destruct (tasklistPids _); rewrite app_nil_r|].
      split; [now right|]. split.
      * rewrite probedPids_app, probedPids_execTrace.
        now destruct (tasklistPids _).
      * split; [intros H; now apply N in H | intros (_ & ? & _);
                                              discriminate].
    + rewrite andb_true_r.
      destruct (tasklistPids (output (fst r))) as [|p ps].
      * cbn [fst snd]. split; [now rewrite app_nil_r|].
        split; [now right|]. split.
        -- now rewrite probedPids_app, probedPids_execTrace.
        -- split; [intros H; now apply N in H | intros (_ & _ & H);
                                                now elim H].
      * split.
        { destruct exitOnErr; cbn [report fst snd after trace];
            [now rewrite app_assoc | now rewrite app_nil_r]. }
        split; [left; apply Y|]. split.
        -- rewrite probedPids_app, probedPids_execTrace.
           now destruct exitOnErr.
        -- split; [intros _; repeat split; discriminate | intros _; apply Y].
  - destruct (verdicts_effects (pgrepPids (output (fst r))) s1)
      as (vs & E & _ & Pv & L).
    pose proof (select_nil_iff _ _ L) as Sel.
    destruct (verdicts (pgrepPids (output (fst r))) s1) as [bs s2].
    cbn [fst snd] in *.
    destruct (select (pgrepPids (output (fst r))) bs) as [|p ps].
    + exists (execTrace (probeCommand h) pipeNoExit (fst r) ++ vs)%list.
      cbn [report fst snd]. split; [now rewrite E, app_assoc|].
      split; [now right|]. split.
      * now rewrite probedPids_app, probedPids_execTrace.
      * split; [intros H; now apply N in H|].
        intros [_ H]. now apply Sel in H.
    + exists (execTrace (probeCommand h) pipeNoExit (fst r) ++ vs
              ++ if exitOnErr then alreadyRunning h (p :: ps) else [])%list.
      split.
      { destruct exitOnErr; cbn [report fst snd after trace]; rewrite E;
          cbn [trace s1]; rewrite <- ?app_assoc, ?app_nil_r; reflexivity. }
      split; [left; apply Y|]. split.
      * rewrite !probedPids_app, probedPids_execTrace, Pv.
        destruct exitOnErr; cbn; now rewrite app_nil_r.
      * split; [|intros _; apply Y]. intros _. split; [reflexivity|].
        destruct (in_dec bool_dec true bs) as [i|n]; [exact i|].
        apply Sel in n. discriminate.
Qed.

(* ------------------------------------------------------------------ *)
(** ** Reading back a printed pid *)

Section Numbers.

Variable rest : string.

(** [rest] is empty or starts with something that is not a digit. *)
Hypothesis rest_stops : forall a, JS.parseDigits a rest = a.

Lemma parseDigits_string_of_uint_acc d acc :
  JS.parseDigits (Z.pos acc) (NilEmpty.string_of_uint d ++ rest)
  = Z.pos (Pos.of_uint_acc d acc).
Proof.
  revert acc. induction d; intros acc;
    cbn [NilEmpty.string_of_uint String.append Pos.of_uint_acc];
    [apply rest_stops | ..];
    cbn [JS.parseDigits];
    match goal with
    | |- context [JS.digitValue ?c] =>
        let v := eval vm_compute in (JS.digitValue c) in
        change (JS.digitValue c) with v
    end;
    cbv beta iota; rewrite <- IHd; f_equal; lia.
Qed.

Lemma parseDigits_string_of_uint d :
  JS.parseDigits 0 (NilEmpty.string_of_uint d ++ rest)
  = Z.of_N (Pos.of_uint d).
Proof.
  induction d;
    cbn [NilEmpty.string_of_uint String.append Pos.of_uint];
    [apply rest_stops | exact IHd | ..];
    cbn [JS.parseDigits];
    match goal with
    | |- context [JS.digitValue ?c] =>
        let v := eval vm_compute in (JS.digitValue c) in
        change (JS.digitValue c) with v
    end;
    cbv beta iota; cbn [Z.of_N];
    rewrite <- parseDigits_string_of_uint_acc; f_equal.
Qed.

(** [parseInt] reads back the pid that was printed in front of [rest]. *)
Lemma parseInt10_numberToString p :
  0 <= p -> JS.parseInt10 (JS.numberToString p ++ rest) = JS.Num p.
Proof.
  intros Hp. unfold JS.numberToString. destruct p as [|p|p]; [| |lia].
  - cbn. now rewrite rest_stops.
  - cbn [Z.to_int NilEmpty.string_of_int].
    pose proof (parseDigits_string_of_uint (Pos.to_uint p)) as R.
    rewrite DecimalPos.Unsigned.of_to in R. cbn [Z.of_N] in R.
    pose proof (DecimalPos.Unsigned.to_uint_nonnil p) as Hn.
    destruct (Pos.to_uint p); [now elim Hn | ..];
      cbn [NilEmpty.string_of_uint String.append] in *;
      unfold JS.parseInt10; cbn [JS.trimStart];
      match goal with
      | |- context [JS.isWhiteSpace ?c] =>
          change (JS.isWhiteSpace c) with false
      end;
      cbv beta iota;
      match goal with
      | |- context [Ascii.eqb ?c "-"] =>
          change (Ascii.eqb c "-") with false;
          change (Ascii.eqb c "+") with false
      end;
      cbv beta iota; unfold JS.parseUnsigned;
      match goal with
      | |- context [JS.isDigit ?c] => change (JS.isDigit c) with true
      end;
      cbv beta iota; now rewrite R.
Qed.

End Numbers.

(** The first pid of a newline-separated list of printed pids is what
    [parseInt] reads. *)
Lemma parseInt10_first_pid p ps :
  0 <= p ->
  JS.parseInt10 (JS.join JS.nl (map JS.numberToString (p :: ps)))
  = JS.Num p.
Proof.
  intros Hp. cbn [map JS.join]. destruct (map JS.numberToString ps) eqn:E.
  - rewrite <- (parseInt10_numberToString EmptyString) with (p := p);
      [|reflexivity|exact Hp].
    f_equal. induction (JS.numberToString p) as [|c t IH]; cbn;
      [|rewrite <- IH]; reflexivity.
  - apply parseInt10_numberToString; [|exact Hp]. reflexivity.
Qed.

(* ------------------------------------------------------------------ *)
(** ** Terminator *)

Section Terminator.

Context {h : Host}.

(** Killing by pid: one termination request, every failure swallowed. *)
Lemma killExistingProcess_pid pid (s : St h) :
  exists w evs,
    killExistingProcess (PID pid) s
    = (Ret None, {| os := w; trace := trace s ++ evs |})
    /\ In (killRequest h pid) evs.
Proof.
  unfold killExistingProcess, killRequest. unfold tryCatch at 1.
  destruct (platform h).
  - unfold bind at 1. unfold bind at 1.
    rewrite executeCommand_run by discriminate. cbv zeta.
    destruct (spawnSync h _ _ (os s)) as [r w]. cbn [fst snd].
    exists w. destruct (succeeded r) eqn:S.
    + unfold_monad. cbn [os trace snd]. eexists. split.
      * f_equal. apply St_eq. rewrite <- app_assoc. reflexivity.
      * unfold execTrace. cbn. tauto.
    + unfold ret. cbn [os trace snd]. eexists. split; [reflexivity|].
      unfold execTrace. cbn. tauto.
  - unfold bind at 1. unfold processKillM.
    destruct (processKill h pid SIGTERM (os s)) as [[msg|] w]; exists w.
    + unfold ret. cbn [os trace snd]. eexists.
      split; [reflexivity | now left].
    + unfold_monad. cbn [os trace snd]. eexists. split.
      * f_equal. apply St_eq. rewrite <- app_assoc. reflexivity.
      * now left.
Qed.

(** Killing by keyword: what is returned. *)
Lemma killExistingProcess_keyword kw (s : St h) :
  fst (killExistingProcess (Keyword kw) s)
  = Ret match platform h with
        | Win32 => None
        | Posix =>
            let g := spawnSync h (pgrepFull kw) (Some Pipe) (os s) in
            let k := spawnSync h (pkillFull kw) None (snd g) in
            if succeeded (fst g) && JS.truthy (output (fst g))
               && succeeded (fst k)
            then Some (JS.parseInt10 (output (fst g)))
            else None
        end.
Proof.
  unfold killExistingProcess. unfold tryCatch at 1.
  destruct (platform h).
  - unfold bind at 1. rewrite executeCommand_run by discriminate.
    cbv zeta. destruct (spawnSync h _ _ (os s)) as [r w]. cbn [fst snd].
    destruct (succeeded r); [|reflexivity].
    destruct (JS.truthy (JS.trim (output r))
              && negb (JS.includes (output r) "No tasks are running"));
      [|reflexivity].
    unfold when, bind. rewrite executeCommand_run by discriminate.
    cbv zeta. destruct (spawnSync h _ _ _) as [r2 w2]. cbn [fst snd].
    destruct (succeeded r2); reflexivity.
  - unfold bind at 1. rewrite executeCommand_run by discriminate.
    cbv zeta. destruct (spawnSync h _ _ (os s)) as [r w]. cbn [fst snd].
    destruct (succeeded r); [|reflexivity]. cbn [andb].
    destruct (JS.truthy (output r)); [|reflexivity]. cbn [andb].
    unfold bind. rewrite executeCommand_run by discriminate.
    cbv zeta. cbn [os stdio noOptions].
    destruct (spawnSync h _ _ w) as [r2 w2]. cbn [fst snd].
    destruct (succeeded r2); reflexivity.
Qed.

End Terminator.

(** C7, counterexample. On a POSIX host where two processes match the
    keyword but may not be signalled, [pgrep] lists them, [pkill] fails, and
    the Terminator returns [undefined] instead of the first matched pid. *)
Lemma killExistingProcess_match_without_pid :
  let s := Demo.deniedWith [4242; 77] in
  let g := spawnSync Demo.posixDenied (pgrepFull "pocketbase serve")
             (Some Pipe) (os s) in
  succeeded (fst g) = true
  /\ JS.parseInt10 (output (fst g)) = JS.Num 4242
  /\ fst (killExistingProcess (Keyword "pocketbase serve") s) = Ret None.
Proof. cbv zeta. repeat split; reflexivity. Qed.

(* ------------------------------------------------------------------ *)
(** ** Launcher *)

Section Handlers.

Context {h : Host}.

(** What the stdout handler does with a chunk. *)
Lemma onStdoutData_run pid output p (s : St h) :
  onStdoutData pid output p s
  = (if errorMarker output then
       (Ret (settle p (Rejected (ErrorObj (JS.trim output)))),
        after s [EvReject (ErrorObj (JS.trim output))])
     else if addressInUse output then
       (Exit 1,
        after s ((if serverStarted output then startedEvents pid else [])
                 ++ conflictEvents))
     else if serverStarted output then
       (Ret (settle p (Resolved pid)), after s (startedEvents pid))
     else (Ret p, s)).
Proof.
  unfold onStdoutData, errorMarker, serverStarted, addressInUse, after,
    startedEvents, conflictEvents.
  destruct (JS.startsWith output "Error:"); [reflexivity|].
  destruct (JS.includes output "Server started"),
    (JS.includes output "bind: address already in use");
    unfold resolve; unfold_monad; cbn [os trace];
    try (f_equal; apply St_eq; trace_eq).
Qed.

(** What the exit handler does with an exit code. *)
Lemma onExit_run code p (s : St h) :
  onExit code p s
  = match code with
    | Some 0 => (Ret p, s)
    | _ => (Ret (settle p (Rejected (exitError code))),
            after s (exitEvents code))
    end.
Proof.
  unfold onExit, exitError, exitEvents, after.
  destruct code as [[|z|z]|]; try reflexivity;
    unfold reject; unfold_monad; cbn [os trace];
    f_equal; apply St_eq; trace_eq.
Qed.

End Handlers.

(** C1 (as amended). The stdout handler first tests the error marker: a
    chunk beginning with [Error:] rejects the promise with the trimmed chunk
    and nothing else happens.  Otherwise the two remaining patterns are
    tested one after the other, none excluding the other: a chunk containing
    [Server started] resolves the promise with the child's pid, and a chunk
    containing [bind: address already in use] reports the conflict and ends
    the host with status 1; a chunk containing both does both, in that
    order.  The handler agrees with the first-match-wins classification of
    the specification on every chunk except those that contain both
    patterns without beginning with the error marker. *)
Theorem onStdoutData_classification
  (h : Host) (pid : Z) (output : string) (p : Promise) (s : St h) :
  onStdoutData pid output p s
  = (if errorMarker output then
       (Ret (settle p (Rejected (ErrorObj (JS.trim output)))),
        after s [EvReject (ErrorObj (JS.trim output))])
     else if addressInUse output then
       (Exit 1,
        after s ((if serverStarted output then startedEvents pid else [])
                 ++ conflictEvents))
     else if serverStarted output then
       (Ret (settle p (Resolved pid)), after s (startedEvents pid))
     else (Ret p, s))
  /\ (errorMarker output
      || negb (serverStarted output && addressInUse output) = true ->
      onStdoutData pid output p s = spec_onStdoutData pid output p s).
Proof.
  split; [apply onStdoutData_run|]. rewrite onStdoutData_run.
  unfold spec_onStdoutData, errorMarker, serverStarted, addressInUse, after,
    startedEvents, conflictEvents.
  destruct (JS.startsWith output "Error:"); [reflexivity|].
  destruct (JS.includes output "Server started"),
    (JS.includes output "bind: address already in use");
    cbn [orb andb negb]; intros Hc; try discriminate Hc;
    unfold resolve; unfold_monad; cbn [os trace];
    try (f_equal; apply St_eq; trace_eq).
Qed.

(** C1, witness: a chunk that only announces the start. *)
Lemma onStdoutData_classification_witness :
  onStdoutData 5000 "Server started at http://127.0.0.1:8090" Pending
    (Demo.posixWith [] [])
  = spec_onStdoutData 5000 "Server started at http://127.0.0.1:8090" Pending
      (Demo.posixWith [] []).
Proof.
  apply (onStdoutData_classification (Demo.posix []) 5000
           "Server started at http://127.0.0.1:8090" Pending
           (Demo.posixWith [] [])).
  reflexivity.
Defined.

(** C1, counterexample. For a chunk that announces the start and then the
    failed bind, first-match-wins would only report the conflict; the
    handler resolves the promise with the child's pid before it ends the
    host. *)
Lemma onStdoutData_not_first_match :
  let chunk :=
    "Server started at http://127.0.0.1:8090" ++ JS.nl
    ++ "listen tcp 127.0.0.1:8090: bind: address already in use" in
  let s := Demo.posixWith [] [] in
  serverStarted chunk = true
  /\ addressInUse chunk = true
  /\ trace (snd (spec_onStdoutData 5000 chunk Pending s)) = conflictEvents
  /\ trace (snd (onStdoutData 5000 chunk Pending s))
     = (startedEvents 5000 ++ conflictEvents)%list
  /\ In (EvResolve 5000) (trace (snd (onStdoutData 5000 chunk Pending s)))
  /\ onStdoutData 5000 chunk Pending s
     <> spec_onStdoutData 5000 chunk Pending s.
Proof.
  cbv zeta. repeat split; try reflexivity.
  - vm_compute. tauto.
  - intros E. apply (f_equal (fun r => trace (snd r))) in E.
    vm_compute in E. discriminate E.
Qed.

(** C6. A stdout chunk that begins with [Error:] rejects the launch promise
    with an [Error] whose message is the chunk with surrounding white space
    trimmed: the awaiting caller receives exactly that error, the handler
    does nothing but call [reject], and the chunk never resolves the
    promise (a promise is resolved after the chunk only if it already was
    before). *)
Theorem onStdoutData_error_rejects
  (h : Host) (pid : Z) (output : string) (rest : list ChildEvent)
  (s : St h) :
  JS.startsWith output "Error:" = true ->
  let reason := ErrorObj (JS.trim output) in
  awaitPromise pid (StdoutData output :: rest) Pending s
  = (Throw reason, after s [EvReject reason])
  /\ forall p,
       exists p',
         onStdoutData pid output p s = (Ret p', after s [EvReject reason])
         /\ (p = Pending -> p' = Rejected reason)
         /\ (forall v, p' = Resolved v -> p = Resolved v).
Proof.
  intros He. cbv zeta.
  assert (R : forall p,
             onStdoutData pid output p s
             = (Ret (settle p (Rejected (ErrorObj (JS.trim output)))),
                after s [EvReject (ErrorObj (JS.trim output))])).
  { intros p. unfold onStdoutData. rewrite He. reflexivity. }
  split.
  - cbn [awaitPromise dispatch]. unfold bind. rewrite R.
    destruct rest; reflexivity.
  - intros p. eexists. split; [apply R|]. split.
    + now intros ->.
    + intros v. destruct p; cbn [settle]; intros E;
        [discriminate | exact E | discriminate].
Qed.

(** C6, witness: the child prints [Error: cannot open database] and a line
    break; the caller receives an error with exactly that message. *)
Lemma onStdoutData_error_rejects_witness :
  awaitPromise 5000
    [StdoutData ("Error: cannot open database" ++ JS.nl)] Pending
    (Demo.posixWith [] [])
  = (Throw (ErrorObj "Error: cannot open database"),
     after (Demo.posixWith [] [])
       [EvReject (ErrorObj "Error: cannot open database")]).
Proof.
  exact (proj1 (onStdoutData_error_rejects (Demo.posix []) 5000
                  ("Error: cannot open database" ++ JS.nl) []
                  (Demo.posixWith [] []) eq_refl)).
Defined.

(** C9. The exit handler rejects the launch promise whenever the exit code
    is not exactly 0, a [null] code (the child was ended by a signal)
    included, with an [Error] whose message is [PocketBase process exited
    with code] followed by the code; an exit with code 0 changes nothing, so
    a caller still waiting goes on waiting for the next event. *)
Theorem onExit_rejects_nonzero
  (h : Host) (pid : Z) (code : option Z) (p : Promise)
  (rest : list ChildEvent) (s : St h) :
  onExit code p s
  = match code with
    | Some 0 => (Ret p, s)
    | _ => (Ret (settle p (Rejected (exitError code))),
            after s (exitEvents code))
    end
  /\ awaitPromise pid (ExitEvent code :: rest) Pending s
     = match code with
       | Some 0 => awaitPromise pid rest Pending s
       | _ => (Throw (exitError code), after s (exitEvents code))
       end
  /\ exitError None = ErrorObj "PocketBase process exited with code null"
  /\ exitError (Some 1) = ErrorObj "PocketBase process exited with code 1"
  /\ (forall z,
        exitError (Some z)
        = ErrorObj ("PocketBase process exited with code "
                    ++ JS.numberToString z)).
Proof.
  pose proof (fun q => onExit_run code q s) as R.
  split; [apply R|]. split; [|repeat split].
  cbn [awaitPromise dispatch]. unfold bind. rewrite R.
  destruct code as [[|z|z]|]; destruct rest; reflexivity.
Qed.

(* ------------------------------------------------------------------ *)
(** ** Orchestration *)

Section Orchestration.

Context {h : Host}.

Lemma after_nil (s : St h) : after s [] = s.
Proof. unfold after. rewrite app_nil_r. now destruct s. Qed.

Lemma extends_after P (s : St h) evs :
  Forall P evs -> extends P s (after s evs).
Proof. intros F. now exists evs. Qed.

Lemma Forall_any (evs : list Event) : Forall anyEvent evs.
Proof. induction evs; constructor; auto; exact I. Qed.

(** Each handler returns (or ends the host), keeps a promise resolved with
    the child's pid, and only adds to the trace. *)
Lemma dispatch_step pid ev p (s : St h) :
  resolvedWith pid p ->
  exists evs,
    snd (dispatch pid ev p s) = after s evs
    /\ match fst (dispatch pid ev p s) with
       | Ret p' => resolvedWith pid p'
       | Exit _ => True
       | _ => False
       end.
Proof.
  intros Hp. destruct ev as [data|data|err|code]; cbn [dispatch].
  - rewrite onStdoutData_run.
    destruct (errorMarker data); [|destruct (addressInUse data);
                                    [|destruct (serverStarted data)]];
      cbn [fst snd].
    + eexists. split; [reflexivity|]. destruct p; cbn; auto.
    + eexists. split; [reflexivity | exact I].
    + eexists. split; [reflexivity|]. destruct p; cbn; auto.
    + exists []. split; [now rewrite after_nil | exact Hp].
  - unfold onStderrData, reject. unfold_monad. cbn [fst snd os trace].
    eexists. split; [unfold after; apply St_eq; trace_eq|].
    destruct p; cbn; auto.
  - unfold onError, reject. unfold_monad. cbn [fst snd os trace].
    eexists. split; [unfold after; apply St_eq; trace_eq|].
    destruct p; cbn; auto.
  - rewrite onExit_run.
    destruct code as [[|z|z]|]; cbn [fst snd];
      try (eexists; split; [reflexivity|]; destruct p; cbn; now auto).
    exists []. split; [now rewrite after_nil | exact Hp].
Qed.

Lemma awaitPromise_pid pid events :
  forall p (s : St h) v,
    resolvedWith pid p ->
    fst (awaitPromise pid events p s) = Ret v -> v = pid.
Proof.
  induction events as [|ev rest IH]; intros p s v Hp.
  - destruct p; cbn; intros E; [discriminate | | discriminate].
    injection E as <-. exact Hp.
  - destruct p as [|v0|e]; cbn [awaitPromise].
    + unfold bind.
      destruct (dispatch_step pid ev Pending s Hp) as (evs & _ & D).
      destruct (dispatch pid ev Pending s) as [[p'| | |] s'];
        cbn [fst] in *; try discriminate. now apply IH.
    + cbn. intros E. injection E as <-. exact Hp.
    + discriminate.
Qed.

Lemma awaitPromise_extends pid events :
  forall p (s : St h),
    resolvedWith pid p ->
    extends anyEvent s (snd (awaitPromise pid events p s)).
Proof.
  induction events as [|ev rest IH]; intros p s Hp.
  - destruct p; apply extends_refl.
  - destruct p as [|v0|e]; cbn [awaitPromise]; try apply extends_refl.
    unfold bind.
    destruct (dispatch_step pid ev Pending s Hp) as (evs & E & D).
    destruct (dispatch pid ev Pending s) as [[p'| | |] s'];
      cbn [fst snd] in *; subst s';
      try (apply extends_after, Forall_any).
    eapply extends_trans; [apply extends_after, Forall_any|].
    now apply IH.
Qed.

(** The Launcher spawns the binary once and can only return the pid of the
    child it spawned. *)
Lemma startPBServer_run (s : St h) :
  exists evs,
    trace (snd (startPBServer s))
    = (trace s
       ++ EvLog Debug "Starting PocketBase server..." EmptyString
       :: EvSpawn (PB_BINARY_PATH h) ("serve" :: PB_KWARGS h) :: evs)%list
    /\ forall v, fst (startPBServer s) = Ret v -> v = launchedPid s.
Proof.
  unfold startPBServer, launchedPid, Logging.debug, emit, spawnM, bind.
  cbv beta. cbn [os trace].
  destruct (spawn h (PB_BINARY_PATH h) ("serve" :: PB_KWARGS h) (os s))
    as [[pid events] w]. cbn [fst snd].
  set (s1 := {| os := w; trace := _ |}).
  destruct (awaitPromise_extends pid events Pending s1 I) as (evs & E & _).
  exists evs. split.
  - rewrite E. subst s1. cbn [trace]. now rewrite <- !app_assoc.
  - intros v. now apply awaitPromise_pid.
Qed.

(** The orchestration flow: probe, and launch only when the probe found
    nothing. *)
Lemma startPocketbase_run (s : St h) :
  let probe := checkRunningPBInstances false s in
  (fst probe = Ret true
   /\ startPocketbase s
      = (Ret None,
         after (snd probe)
           [EvLog Debug "PocketBase is already running" EmptyString]))
  \/ (fst probe = Ret false
      /\ startPocketbase s
         = match startPBServer (snd probe) with
           | (Ret pbPid, s2) => (Ret (Some (cleanup pbPid)), s2)
           | (Throw e, s2) =>
               (Exit 1,
                after s2
                  [EvLog ActionableError
                     ("Failed to start PocketBase server: "
                      ++ errorMessage e) startHint;
                   EvExit 1])
           | (Exit c, s2) => (Exit c, s2)
           | (Hang, s2) => (Hang, s2)
           end).
Proof.
  cbv zeta. unfold startPocketbase, tryCatch, bind. cbv beta.
  destruct (checkRunningPBInstances_quiet s) as ([b Hb] & _).
  destruct (checkRunningPBInstances false s) as [o s1]. cbn [fst snd] in *.
  subst o. destruct b; [left | right]; (split; [reflexivity|]).
  - unfold_monad. reflexivity.
  - destruct (startPBServer s1) as [[pid|e|c|] s2]; try reflexivity.
    unfold_monad. unfold after. cbn [os trace]. f_equal.
    apply St_eq. trace_eq.
Qed.

(** A handle comes from a launch: the probe found nothing, the binary was
    spawned, and the handle is the cleanup closure over the child's pid. *)
Lemma startPocketbase_handle (s : St h) handle :
  fst (startPocketbase s) = Ret (Some handle) ->
  fst (checkRunningPBInstances false s) = Ret false
  /\ In (EvSpawn (PB_BINARY_PATH h) ("serve" :: PB_KWARGS h))
        (trace (snd (startPocketbase s)))
  /\ handle = cleanup (launchedPid (snd (checkRunningPBInstances false s))).
Proof.
  intros Hs. destruct (startPocketbase_run s) as [[_ R]|[Hf R]];
    [rewrite R in Hs; discriminate|].
  split; [exact Hf|].
  destruct (startPBServer_run (snd (checkRunningPBInstances false s)))
    as (evs & E & Hpid).
  rewrite R in *.
  destruct (startPBServer _) as [[pid|e|c|] s3]; cbn [fst snd] in *;
    try discriminate.
  injection Hs as <-. split.
  - rewrite E. apply in_or_app; right. cbn; tauto.
  - now rewrite (Hpid pid eq_refl).
Qed.

End Orchestration.

Section Instance.

Context {h : Host}.

Lemma getPBInstance_run (createNewInstance : bool) :
  getPBInstance (h := h) createNewInstance
  = (handle <- (if createNewInstance then startPocketbase else ret None) ;;
     authenticated handle).
Proof. reflexivity. Qed.

(** Reading the environment and authenticating issues no command, signal
    or spawn, and returns the handle it was given. *)
Lemma authenticated_effects handle (s : St h) :
  extends (fun ev => isOsCall ev = false) s (snd (authenticated handle s))
  /\ forall inst,
       fst (authenticated handle s) = Ret inst -> killPB inst = handle.
Proof.
  unfold authenticated, getEnvVars.
  destruct (collectEnvVars _ _ _) as [vars missing].
  unfold authWithPasswordM. unfold_monad. cbv beta.
  destruct missing as [|m ms]; cbn [os trace fst snd].
  - match goal with
    | |- context [authWithPassword h ?a ?b ?c ?w] =>
        destruct (authWithPassword h a b c w) as [[e|su va] w']
    end.
    + cbn [fst snd]. split; [|discriminate].
      eexists. split; [cbn [trace]; rewrite <- ?app_assoc; reflexivity|].
      repeat constructor.
    + destruct (negb su || negb va); cbn [fst snd].
      * split; [|discriminate].
        eexists. split; [cbn [trace]; rewrite <- ?app_assoc; reflexivity|].
        repeat constructor.
      * split; [|now intros inst [= <-]].
        eexists. split; [reflexivity|]. repeat constructor.
  - split; [|discriminate].
    eexists. split; [cbn [trace]; rewrite <- ?app_assoc; reflexivity|].
    repeat constructor.
Qed.

(** The handle [getPBInstance] returns is the one the optional start
    produced. *)
Lemma getPBInstance_handle (createNewInstance : bool) (s : St h) inst :
  fst (getPBInstance createNewInstance s) = Ret inst ->
  if createNewInstance then fst (startPocketbase s) = Ret (killPB inst)
  else killPB inst = None.
Proof.
  rewrite getPBInstance_run. unfold bind. destruct createNewInstance.
  - destruct (startPocketbase s) as [[handle|e|c|] s1]; cbn [fst];
      try discriminate.
    intros Hi. f_equal. symmetry.
    now apply (proj2 (authenticated_effects handle s1)).
  - unfold ret at 1. intros Hi.
    now apply (proj2 (authenticated_effects None s)).
Qed.

End Instance.


(** C10. The handle [killPB] returned by [getPBInstance] is non-null only
    when that call launched a new server.  With [createNewInstance = false]
    no command is run, no process is signalled or spawned, and the handle
    is null.  When the probe finds an instance running, [startPocketbase]
    returns null after read-only effects, and so the handle is null.  A
    non-null handle implies [createNewInstance = true], a probe that found
    nothing and a spawn of the PocketBase binary, and the handle is the
    cleanup closure over the pid of that very child. *)
Theorem getPBInstance_killPB (h : Host) (s : St h) :
  (extends (fun ev => isOsCall ev = false) s (snd (getPBInstance false s))
   /\ forall inst,
        fst (getPBInstance false s) = Ret inst -> killPB inst = None)
  /\ (fst (checkRunningPBInstances false s) = Ret true ->
      fst (startPocketbase s) = Ret None
      /\ extends readOnlyEvent s (snd (startPocketbase s))
      /\ forall inst,
           fst (getPBInstance true s) = Ret inst -> killPB inst = None)
  /\ (forall createNewInstance inst handle,
        fst (getPBInstance createNewInstance s) = Ret inst ->
        killPB inst = Some handle ->
        createNewInstance = true
        /\ fst (checkRunningPBInstances false s) = Ret false
        /\ In (EvSpawn (PB_BINARY_PATH h) ("serve" :: PB_KWARGS h))
              (trace (snd (startPocketbase s)))
        /\ handle
           = cleanup (launchedPid (snd (checkRunningPBInstances false s)))).
Proof.
  split; [|split].
  - split.
    + rewrite getPBInstance_run. unfold bind, ret at 1.
      apply authenticated_effects.
    + intros inst Hi. now apply (getPBInstance_handle false) in Hi.
  - intros Hr. destruct (startPocketbase_run s) as [[_ R]|[Hf _]];
      [|rewrite Hr in Hf; discriminate].
    split; [now rewrite R|]. split.
    + rewrite R. cbn [snd].
      destruct (checkRunningPBInstances_quiet s) as (_ & X).
      eapply extends_trans; [exact X|].
      apply extends_after. repeat constructor.
    + intros inst Hi. apply (getPBInstance_handle true) in Hi.
      rewrite R in Hi. cbn [fst] in Hi. now injection Hi as <-.
  - intros c inst k Hi Hk. apply getPBInstance_handle in Hi.
    destruct c; [|rewrite Hk in Hi; discriminate].
    rewrite Hk in Hi. split; [reflexivity|].
    now apply startPocketbase_handle.
Qed.

(* ------------------------------------------------------------------ *)
(** ** Runs on the concrete host *)

Example trim_chunk :
  JS.trim (JS.nl ++ "  Error: x " ++ JS.nl) = "Error: x".
Proof. reflexivity. Qed.

Example parseInt10_padded : JS.parseInt10 " 4242" = JS.Num 4242.
Proof. reflexivity. Qed.

Example parseInt10_prefix : JS.parseInt10 "12abc" = JS.Num 12.
Proof. reflexivity. Qed.

Example parseInt10_none : JS.parseInt10 "abc" = JS.NaN.
Proof. reflexivity. Qed.

Example numberToString_negative : JS.numberToString (-17) = "-17".
Proof. reflexivity. Qed.

Example tasklistLinePid_csv :
  tasklistLinePid (Demo.csvLine 4242) = JS.Num 4242.
Proof. reflexivity. Qed.

Example toLowerCase_image :
  JS.includes (JS.toLowerCase "PocketBase.EXE") "pocketbase.exe" = true.
Proof. reflexivity. Qed.

(** Two live servers on POSIX: both pids are probed, the probe says yes. *)
Example probe_posix_two :
  let r := checkRunningPBInstances false (Demo.posixWith [] [4242; 77]) in
  fst r = Ret true /\ probedPids (trace (snd r)) = [4242; 77].
Proof. split; reflexivity. Qed.

(** The same on Windows: no pid is probed. *)
Example probe_windows_two :
  let r := checkRunningPBInstances false (Demo.windowsWith [] [4242; 77]) in
  fst r = Ret true /\ probedPids (trace (snd r)) = [].
Proof. split; reflexivity. Qed.

Example probe_windows_none :
  fst (checkRunningPBInstances true (Demo.windowsWith [] [])) = Ret false.
Proof. reflexivity. Qed.

(** A pid that is not running is not a PocketBase process. *)
Example verify_dead_pid :
  fst (isValidPocketbaseProcess 31337 (Demo.posixWith [] [4242]))
  = Ret false.
Proof. reflexivity. Qed.

(** Killing by keyword with permission returns the first matched pid. *)
Example kill_by_keyword :
  killExistingProcess (Keyword "pocketbase serve")
    (Demo.posixWith [] [4242; 77])
  = (Ret (Some (JS.Num 4242)),
     snd (killExistingProcess (Keyword "pocketbase serve")
            (Demo.posixWith [] [4242; 77])))
  /\ os (snd (killExistingProcess (Keyword "pocketbase serve")
                (Demo.posixWith [] [4242; 77]))) = [].
Proof. split; reflexivity. Qed.

(** The launched server is ended by the first cleanup; the second finds no
    such process, [process.kill] throws, and the call still returns. *)
Example cleanup_twice :
  let s1 := snd (cleanup 5000 (Demo.posixWith [] [5000])) in
  os s1 = []
  /\ processKill (Demo.posix []) 5000 SIGTERM (os s1)
     = (Some "kill ESRCH", [])
  /\ fst (cleanup 5000 s1) = Ret tt.
Proof. repeat split; reflexivity. Qed.

(** A successful launch: the handle is the cleanup closure over pid 5000. *)
Example launch_ok :
  let started := [StdoutData "Server started at http://127.0.0.1:8090"] in
  fst (startPocketbase (Demo.posixWith started []))
  = Ret (Some (cleanup 5000))
  /\ os (snd (startPocketbase (Demo.posixWith started []))) = [5000].
Proof. split; reflexivity. Qed.

(** A launch on an occupied port ends the host with status 1. *)
Example launch_port_conflict :
  let conflict :=
    [StdoutData "listen tcp 127.0.0.1:8090: bind: address already in use"] in
  fst (startPocketbase (Demo.posixWith conflict [])) = Exit 1.
Proof. reflexivity. Qed.

(** A child that says nothing and never exits leaves the caller waiting. *)
Example launch_silent :
  fst (startPBServer (Demo.posixWith [] [])) = Hang.
Proof. reflexivity. Qed.

(** With a server already running nothing is spawned and no handle is
    returned. *)
Example instance_already_running :
  let r := getPBInstance true (Demo.posixWith [] [4242]) in
  (exists inst, fst r = Ret inst /\ killPB inst = None)
  /\ existsb isOsCall (trace (snd (getPBInstance false
                                     (Demo.posixWith [] [4242])))) = false.
Proof. split; [eexists; split; reflexivity | reflexivity]. Qed.

(* ------------------------------------------------------------------ *)
(** ** The Launcher as a race of events *)

Section Race.

Context {h : Host}.

Lemma dispatch_inert pid ev p (s : St h) :
  inert ev = true -> dispatch pid ev p s = (Ret p, s).
Proof.
  destruct ev as [o|d|e|c]; cbn [inert dispatch]; try discriminate.
  - intros Hi. rewrite onStdoutData_run.
    destruct (errorMarker o), (serverStarted o), (addressInUse o);
      try discriminate Hi; reflexivity.
  - intros Hi. rewrite onExit_run.
    destruct c as [[|z|z]|]; try discriminate Hi; reflexivity.
Qed.

Lemma awaitPromise_skip pid quiet rest (s : St h) :
  forallb inert quiet = true ->
  awaitPromise pid (quiet ++ rest) Pending s
  = awaitPromise pid rest Pending s.
Proof.
  induction quiet as [|ev quiet IH]; [reflexivity|].
  cbn [forallb]. intros Hq. apply andb_true_iff in Hq as [He Hq].
  cbn [app awaitPromise]. unfold bind. rewrite (dispatch_inert _ _ _ _ He).
  exact (IH Hq).
Qed.

(** An event that is not inert settles the pending promise or ends the
    host. *)
Lemma dispatch_decisive pid ev (s : St h) :
  inert ev = false ->
  match fst (dispatch pid ev Pending s) with
  | Ret (Resolved v) => v = pid /\ announcesStart ev = true
  | Ret (Rejected _) => announcesStart ev = false
  | Exit _ => announcesStart ev = false
  | _ => False
  end.
Proof.
  destruct ev as [o|d|e|c]; cbn [inert announcesStart dispatch].
  - intros Hi. rewrite onStdoutData_run.
    destruct (errorMarker o), (serverStarted o), (addressInUse o);
      try discriminate Hi; cbn; auto.
  - intros _. unfold onStderrData, reject. unfold_monad. reflexivity.
  - intros _. unfold onError, reject. unfold_monad. reflexivity.
  - intros Hi. rewrite onExit_run.
    destruct c as [[|z|z]|]; try discriminate Hi; reflexivity.
Qed.

Lemma awaitPromise_settled pid events p (s : St h) :
  p <> Pending ->
  awaitPromise pid events p s
  = match p with
    | Resolved v => (Ret v, s)
    | Rejected e => (Throw e, s)
    | Pending => (Hang, s)
    end.
Proof. destruct p, events; intros Hp; try reflexivity; now elim Hp. Qed.

Lemma awaitPromise_first pid ev rest (s : St h) :
  inert ev = false ->
  awaitPromise pid (ev :: rest) Pending s
  = awaitPromise pid [ev] Pending s.
Proof.
  intros Hi. cbn [awaitPromise]. unfold bind.
  pose proof (dispatch_decisive pid ev s Hi) as D.
  destruct (dispatch pid ev Pending s) as [[p| | |] s1]; cbn [fst] in D;
    try reflexivity; try contradiction.
  destruct p; [contradiction| |]; rewrite !awaitPromise_settled;
    try discriminate; reflexivity.
Qed.

End Race.

(** X1. The launch is decided by the first event that is not inert: stdout
    chunks matching no pattern and an exit with code 0 before it are
    skipped without effect, and whatever arrives after it does not change
    the result (a start announcement followed by a failing exit resolves, a
    stderr chunk followed by a start announcement rejects).  The decisive
    event never leaves the caller waiting. *)
Theorem awaitPromise_first_decisive
  (h : Host) (pid : Z) (quiet : list ChildEvent) (ev : ChildEvent)
  (rest : list ChildEvent) (s : St h) :
  forallb inert quiet = true ->
  inert ev = false ->
  awaitPromise pid (quiet ++ ev :: rest) Pending s
  = awaitPromise pid [ev] Pending s
  /\ fst (awaitPromise pid [ev] Pending s) <> Hang.
Proof.
  intros Hq He. split.
  - rewrite awaitPromise_skip by exact Hq. now apply awaitPromise_first.
  - cbn [awaitPromise]. unfold bind.
    pose proof (dispatch_decisive pid ev s He) as D.
    destruct (dispatch pid ev Pending s) as [[p| | |] s1]; cbn [fst] in *;
      try discriminate; try contradiction.
    destruct p; [contradiction | discriminate | discriminate].
Qed.

(** X1, witness: a banner, then the start announcement, then a crash of
    the child: the launch resolves with the pid. *)
Lemma awaitPromise_first_decisive_witness :
  fst (awaitPromise 5000
         ([StdoutData "loading migrations"]
          ++ StdoutData "Server started at http://127.0.0.1:8090"
          :: [ExitEvent (Some 2)])
         Pending (Demo.posixWith [] []))
  = Ret 5000.
Proof.
  rewrite (proj1 (awaitPromise_first_decisive (Demo.posix []) 5000
                    [StdoutData "loading migrations"]
                    (StdoutData "Server started at http://127.0.0.1:8090")
                    [ExitEvent (Some 2)] (Demo.posixWith [] [])
                    eq_refl eq_refl)).
  reflexivity.
Defined.

(** X2. The Launcher returns a pid exactly when the first event of the
    child that is not inert is a stdout chunk that contains [Server started]
    (and neither begins with [Error:] nor contains the address-in-use
    notice); the pid returned is then the pid of the spawned child. *)
Theorem startPBServer_resolves_iff (h : Host) (s : St h) (v : Z) :
  let child :=
    fst (spawn h (PB_BINARY_PATH h) ("serve" :: PB_KWARGS h) (os s)) in
  fst (startPBServer s) = Ret v <->
  v = fst child
  /\ exists quiet ev rest,
       snd child = (quiet ++ ev :: rest)%list
       /\ forallb inert quiet = true
       /\ announcesStart ev = true.
Proof.
  cbv zeta.
  unfold startPBServer, Logging.debug, emit, spawnM, bind. cbv beta.
  cbn [os trace].
  destruct (spawn h (PB_BINARY_PATH h) ("serve" :: PB_KWARGS h) (os s))
    as [[pid events] w]. cbn [fst snd].
  set (s1 := {| os := w; trace := _ |}). clearbody s1. split.
  - revert s1. induction events as [|ev events IH]; intros s1 Hr.
    + discriminate Hr.
    + destruct (inert ev) eqn:Hi.
      * cbn [awaitPromise] in Hr. unfold bind in Hr.
        rewrite (dispatch_inert _ _ _ _ Hi) in Hr.
        destruct (IH s1 Hr) as (-> & quiet & ev' & rest & -> & Hq & Ha).
        split; [reflexivity|].
        exists (ev :: quiet), ev', rest. cbn [app forallb].
        now rewrite Hi, Hq.
      * rewrite (awaitPromise_first _ _ _ _ Hi) in Hr.
        cbn [awaitPromise] in Hr. unfold bind in Hr.
        pose proof (dispatch_decisive pid ev s1 Hi) as D.
        destruct (dispatch pid ev Pending s1) as [[p| | |] s2];
          cbn [fst] in *; try discriminate; try contradiction.
        destruct p as [|v0|e]; [contradiction| |discriminate].
        destruct D as [-> Ha]. injection Hr as <-.
        split; [reflexivity|]. exists [], ev, events. auto.
  - intros (-> & quiet & ev & rest & -> & Hq & Ha).
    assert (Hi : inert ev = false).
    { destruct ev as [o| | |]; cbn in *; try discriminate.
      destruct (errorMarker o), (serverStarted o), (addressInUse o);
        try discriminate; reflexivity. }
    rewrite awaitPromise_skip by exact Hq.
    rewrite (awaitPromise_first _ _ _ _ Hi).
    cbn [awaitPromise]. unfold bind.
    pose proof (dispatch_decisive pid ev s1 Hi) as D.
    destruct (dispatch pid ev Pending s1) as [[p| | |] s2];
      cbn [fst] in *; try contradiction; try congruence.
    destruct p as [|v0|e]; [contradiction| |congruence].
    destruct D as [-> _]. reflexivity.
Qed.

(** X3. A child that only emits inert events (chunks without any of the
    three patterns, an exit with code 0) never settles the launch: the
    caller of the Launcher waits for ever, and nothing beyond the spawn is
    logged.  In particular a child that exits cleanly before it announced
    the start leaves the caller waiting. *)
Theorem startPBServer_hangs (h : Host) (s : St h) :
  let child :=
    fst (spawn h (PB_BINARY_PATH h) ("serve" :: PB_KWARGS h) (os s)) in
  forallb inert (snd child) = true ->
  fst (startPBServer s) = Hang
  /\ trace (snd (startPBServer s))
     = (trace s
        ++ [EvLog Debug "Starting PocketBase server..." EmptyString;
            EvSpawn (PB_BINARY_PATH h) ("serve" :: PB_KWARGS h)])%list.
Proof.
  cbv zeta.
  unfold startPBServer, Logging.debug, emit, spawnM, bind. cbv beta.
  cbn [os trace].
  destruct (spawn h (PB_BINARY_PATH h) ("serve" :: PB_KWARGS h) (os s))
    as [[pid events] w]. cbn [fst snd]. intros Hq.
  rewrite <- (app_nil_r events), awaitPromise_skip by exact Hq.
  cbn [awaitPromise hang fst snd trace]. split; [reflexivity|].
  now rewrite <- app_assoc.
Qed.

(** X3, witness: the child prints a banner and exits with code 0. *)
Lemma startPBServer_hangs_witness :
  fst (startPBServer
         (Demo.posixWith [StdoutData "shutting down"; ExitEvent (Some 0)] []))
  = Hang.
Proof.
  apply (startPBServer_hangs
           (Demo.posix [StdoutData "shutting down"; ExitEvent (Some 0)])
           (Demo.posixWith [StdoutData "shutting down"; ExitEvent (Some 0)]
              [])).
  reflexivity.
Defined.

(** X4. Once the launch promise is settled no later event changes it.  The
    handlers stay attached, though: the one thing a later event can still do
    is end the host, and it does so for a stdout chunk that carries the
    address-in-use notice without beginning with [Error:]. *)
Theorem dispatch_settled
  (h : Host) (pid : Z) (ev : ChildEvent) (p : Promise) (s : St h) :
  p <> Pending ->
  fst (dispatch pid ev p s) = Ret p
  \/ (fst (dispatch pid ev p s) = Exit 1
      /\ exists output,
           ev = StdoutData output
           /\ errorMarker output = false /\ addressInUse output = true).
Proof.
  intros Hp.
  assert (St : forall q, settle p q = p) by (destruct p; [now elim Hp|..];
                                             reflexivity).
  destruct ev as [o|d|e|c]; cbn [dispatch].
  - rewrite onStdoutData_run.
    destruct (errorMarker o) eqn:He; [left; cbn; now rewrite St|].
    destruct (addressInUse o) eqn:Ha;
      [right; split; [reflexivity | exists o; auto]|].
    destruct (serverStarted o); left; cbn; now rewrite ?St.
  - left. unfold onStderrData, reject. unfold_monad. cbn. now rewrite St.
  - left. unfold onError, reject. unfold_monad. cbn. now rewrite St.
  - left. rewrite onExit_run.
    destruct c as [[|z|z]|]; cbn; now rewrite ?St.
Qed.

(** X4, witness: a resolved promise and a late failing exit of the child. *)
Lemma dispatch_settled_witness :
  fst (dispatch 5000 (ExitEvent (Some 1)) (Resolved 5000)
         (Demo.posixWith [] []))
  = Ret (Resolved 5000).
Proof.
  destruct (dispatch_settled (Demo.posix []) 5000 (ExitEvent (Some 1))
              (Resolved 5000) (Demo.posixWith [] []))
    as [E|[E _]]; [discriminate | exact E | discriminate E].
Defined.

(** X5. [startPocketbase] never throws to its caller.  When the probe finds
    nothing and the Launcher rejects (an error line, stderr output, a spawn
    error, a failing exit), the rejection is reported as [Failed to start
    PocketBase server:] followed by the error's message and the host is
    ended with status 1. *)
Theorem startPocketbase_never_throws (h : Host) (s : St h) :
  (forall e, fst (startPocketbase s) <> Throw e)
  /\ forall e,
       fst (checkRunningPBInstances false s) = Ret false ->
       fst (startPBServer (snd (checkRunningPBInstances false s)))
       = Throw e ->
       startPocketbase s
       = (Exit 1,
          after (snd (startPBServer (snd (checkRunningPBInstances false s))))
            [EvLog ActionableError
               ("Failed to start PocketBase server: " ++ errorMessage e)
               startHint;
             EvExit 1]).
Proof.
  destruct (startPocketbase_run s) as [[Hp R]|[Hp R]]; rewrite R; split.
  - discriminate.
  - intros e Hf. rewrite Hp in Hf. discriminate.
  - intros e.
    destruct (startPBServer _) as [[pid|e'|c|] s2]; discriminate.
  - intros e _ Hl.
    destruct (startPBServer _) as [[pid|e'|c|] s2]; cbn [fst snd] in *;
      try discriminate.
    now injection Hl as ->.
Qed.

(* ------------------------------------------------------------------ *)
(** ** Environment variables *)

Section EnvVars.

Context {h : Host}.

Lemma getVar_setVar_same k v vars : getVar k (setVar k v vars) = Some v.
Proof.
  induction vars as [|[k' v'] vars IH]; cbn [setVar getVar].
  - now rewrite String.eqb_refl.
  - destruct (String.eqb k k') eqn:E; cbn [getVar]; rewrite ?E;
      [now rewrite String.eqb_refl | exact IH].
Qed.

Lemma getVar_setVar_other k k' v vars :
  String.eqb k k' = false -> getVar k (setVar k' v vars) = getVar k vars.
Proof.
  intros Hk. induction vars as [|[k2 v2] vars IH]; cbn [setVar getVar].
  - now rewrite Hk.
  - destruct (String.eqb k' k2) eqn:E; cbn [getVar].
    + apply String.eqb_eq in E. subst k2. now rewrite Hk.
    + now rewrite IH.
Qed.

(** The loop of [getEnvVars]: the missing names are appended in order, and
    the set names are bound to their values. *)
Lemma collectEnvVars_spec requiredVars :
  forall vars missing,
    snd (collectEnvVars (h := h) requiredVars vars missing)
    = (missing ++ missingVars h requiredVars)%list
    /\ forall k,
         getVar k (fst (collectEnvVars (h := h) requiredVars vars missing))
         = if named k requiredVars && isSet h k then env h k
           else getVar k vars.
Proof.
  induction requiredVars as [|name rest IH]; intros vars missing.
  - cbn. split; [now rewrite app_nil_r | reflexivity].
  - cbn [collectEnvVars missingVars filter named existsb].
    unfold isSet at 1.
    destruct (env h name) as [[|c v]|] eqn:En; cbn [negb];
      match goal with
      | |- context [collectEnvVars rest ?a ?b] =>
          destruct (IH a b) as [Hm Hv]
      end;
      (split; [rewrite Hm; unfold missingVars;
               rewrite <- ?app_assoc; reflexivity|]);
      intros k; rewrite Hv; fold (named k rest);
      destruct (String.eqb k name) eqn:Ek; cbn [orb andb];
      try reflexivity.
    + apply String.eqb_eq in Ek. subst k.
      unfold isSet. rewrite En. now rewrite andb_false_r.
    + apply String.eqb_eq in Ek. subst k.
      unfold isSet. rewrite En. cbn [andb].
      destruct (named name rest); cbn [andb];
        [reflexivity | apply getVar_setVar_same].
    + destruct (named k rest && isSet h k); [reflexivity|].
      now apply getVar_setVar_other.
    + apply String.eqb_eq in Ek. subst k.
      unfold isSet. rewrite En. now rewrite andb_false_r.
Qed.

Lemma missingVars_nil requiredVars :
  missingVars h requiredVars = [] <-> forallb (isSet h) requiredVars = true.
Proof.
  unfold missingVars. induction requiredVars as [|n rest IH];
    cbn [filter forallb]; [tauto|].
  destruct (isSet h n); cbn [negb andb]; [exact IH|].
  split; discriminate.
Qed.

(** What [getEnvVars] does. *)
Lemma getEnvVars_run requiredVars (s : St h) :
  getEnvVars requiredVars s
  = match missingVars h requiredVars with
    | [] => (Ret (fst (collectEnvVars (h := h) requiredVars [] [])), s)
    | missing =>
        (Exit 1,
         after s
           [EvLog ActionableError
              ("Missing required environment variables: "
               ++ JS.join ", " missing) envHint;
            EvExit 1])
    end.
Proof.
  unfold getEnvVars.
  destruct (collectEnvVars_spec requiredVars [] []) as [Hm _].
  destruct (collectEnvVars requiredVars [] []) as [vars missing].
  cbn [fst snd app] in *. subst missing.
  destruct (missingVars h requiredVars); unfold_monad; [reflexivity|].
  unfold after. cbn [os trace]. f_equal. apply St_eq. trace_eq.
Qed.

End EnvVars.

(** X6. For variable names that are not members of [Object.prototype]:
    [getEnvVars] returns exactly when every required variable is set to a
    non-empty string, and then without any effect; looking such a name up
    in the returned record gives the value of the environment for a
    required name and nothing for any other.  Otherwise the host is ended
    with status 1 after one report that lists the missing names in the
    order they were required (a variable set to the empty string counts as
    missing). *)
Theorem getEnvVars_lookup (h : Host) (requiredVars : list string) (s : St h) :
  forallb ownName requiredVars = true ->
  (forallb (isSet h) requiredVars = true ->
   exists vars,
     getEnvVars requiredVars s = (Ret vars, s)
     /\ forall name,
          ownName name = true ->
          getVar name vars
          = if named name requiredVars then env h name else None)
  /\ (forallb (isSet h) requiredVars = false ->
      getEnvVars requiredVars s
      = (Exit 1,
         after s
           [EvLog ActionableError
              ("Missing required environment variables: "
               ++ JS.join ", " (missingVars h requiredVars)) envHint;
            EvExit 1])).
Proof.
  intros _. rewrite getEnvVars_run. split; intros Hall.
  - rewrite (proj2 (missingVars_nil requiredVars) Hall).
    eexists. split; [reflexivity|]. intros name _.
    rewrite (proj2 (collectEnvVars_spec requiredVars [] [])).
    destruct (named name requiredVars) eqn:Hn; cbn [andb getVar];
      [|reflexivity].
    assert (Hs : isSet h name = true).
    { rewrite forallb_forall in Hall. apply Hall.
      unfold named in Hn. apply existsb_exists in Hn as (n & Hin & E).
      apply String.eqb_eq in E. now subst n. }
    now rewrite Hs.
  - destruct (missingVars h requiredVars) eqn:Hm; [|reflexivity].
    apply missingVars_nil in Hm. congruence.
Qed.

(** X6, witness: two of the variables of the sample environment. *)
Lemma getEnvVars_lookup_witness :
  exists vars,
    getEnvVars ["PB_HOST"; "PB_EMAIL"] (Demo.posixWith [] [])
    = (Ret vars, Demo.posixWith [] [])
    /\ getVar "PB_EMAIL" vars = Some "admin@example.com"
    /\ getVar "HOME" vars = None.
Proof.
  destruct (getEnvVars_lookup (Demo.posix []) ["PB_HOST"; "PB_EMAIL"]
              (Demo.posixWith [] []) eq_refl) as [R _].
  destruct (R eq_refl) as (vars & E & L).
  exists vars. split; [exact E|].
  split; [exact (L "PB_EMAIL" eq_refl) | exact (L "HOME" eq_refl)].
Defined.

(* ------------------------------------------------------------------ *)
(** ** How [getPBInstance] ends *)

Section Endings.

Context {h : Host}.

Lemma dispatch_exit_one pid ev p (s : St h) c :
  fst (dispatch pid ev p s) = Exit c -> c = 1.
Proof.
  destruct ev as [o|d|e|code]; cbn [dispatch].
  - rewrite onStdoutData_run.
    destruct (errorMarker o); [discriminate|].
    destruct (addressInUse o); [now intros [= <-]|].
    destruct (serverStarted o); discriminate.
  - unfold onStderrData, reject. unfold_monad. discriminate.
  - unfold onError, reject. unfold_monad. discriminate.
  - rewrite onExit_run. destruct code as [[|z|z]|]; discriminate.
Qed.

Lemma awaitPromise_exit_one pid events :
  forall p (s : St h) c,
    fst (awaitPromise pid events p s) = Exit c -> c = 1.
Proof.
  induction events as [|ev rest IH]; intros p s c.
  - destruct p; discriminate.
  - destruct p as [|v|e]; cbn [awaitPromise]; try discriminate.
    unfold bind.
    destruct (dispatch pid ev Pending s) as [[p'|e|c'|] s'] eqn:D;
      cbn [fst]; try discriminate.
    + apply IH.
    + intros [= <-].
      apply (dispatch_exit_one pid ev Pending s). now rewrite D.
Qed.

Lemma startPBServer_exit_one (s : St h) c :
  fst (startPBServer s) = Exit c -> c = 1.
Proof.
  unfold startPBServer, Logging.debug, emit, spawnM, bind. cbv beta.
  cbn [os trace].
  destruct (spawn h (PB_BINARY_PATH h) ("serve" :: PB_KWARGS h) (os s))
    as [[pid events] w]. cbn [fst snd]. apply awaitPromise_exit_one.
Qed.

(** [startPocketbase] returns, ends the host with status 1, or waits. *)
Lemma startPocketbase_outcome (s : St h) :
  match fst (startPocketbase s) with
  | Ret _ | Hang => True
  | Exit c => c = 1
  | Throw _ => False
  end.
Proof.
  destruct (startPocketbase_run s) as [[_ R]|[_ R]]; rewrite R;
    [exact I|].
  pose proof (startPBServer_exit_one
                (snd (checkRunningPBInstances false s))) as E.
  destruct (startPBServer _) as [[pid|e|c|] s2]; cbn [fst] in *; auto.
Qed.

(** The last steps of [getPBInstance]: the environment must be complete and
    the authenticated account a valid superuser; anything else ends the
    host with status 1. *)
Lemma authenticated_outcome handle (s : St h) :
  match fst (authenticated handle s) with
  | Ret inst =>
      forallb (isSet h) ["PB_HOST"; "PB_EMAIL"; "PB_PASSWORD"] = true
      /\ pb inst = env h "PB_HOST"
      /\ exists w,
           fst (authWithPassword h (env h "PB_HOST") (env h "PB_EMAIL")
                  (env h "PB_PASSWORD") w)
           = AuthStore true true
  | Exit c => c = 1
  | _ => False
  end.
Proof.
  unfold authenticated. unfold bind at 1. rewrite getEnvVars_run.
  destruct (missingVars h _) eqn:Hm; [|reflexivity].
  apply missingVars_nil in Hm.
  pose proof (proj2 (collectEnvVars_spec (h := h)
                       ["PB_HOST"; "PB_EMAIL"; "PB_PASSWORD"] [] [])) as L.
  set (vars := fst (collectEnvVars _ [] [])) in *.
  assert (Lk : forall k,
             named k ["PB_HOST"; "PB_EMAIL"; "PB_PASSWORD"] = true ->
             getVar k vars = env h k).
  { intros k Hk. rewrite L, Hk. cbn [andb].
    rewrite forallb_forall in Hm. rewrite Hm; [reflexivity|].
    unfold named in Hk. apply existsb_exists in Hk as (n & Hin & E).
    apply String.eqb_eq in E. now subst n. }
  rewrite !Lk by reflexivity. clearbody vars.
  unfold authWithPasswordM. unfold_monad. cbv beta. cbn [os].
  destruct (authWithPassword h (env h "PB_HOST") (env h "PB_EMAIL")
              (env h "PB_PASSWORD") (os s)) as [[e|su va] w] eqn:A.
  - reflexivity.
  - destruct su, va; cbn [negb orb fst]; try reflexivity.
    cbn [pb]. split; [exact Hm|]. split; [reflexivity|].
    exists (os s). now rewrite A.
Qed.

End Endings.

(** X7. [getPBInstance] never throws to its caller, and every way it ends
    the host uses exit status 1.  When it returns, the three variables
    [PB_HOST], [PB_EMAIL] and [PB_PASSWORD] are all set to non-empty
    strings, the client is built for [PB_HOST], and the authentication
    answered with a store that is both superuser and valid: missing
    credentials, a refused login or an account without superuser rights
    never come back as a value. *)
Theorem getPBInstance_outcome
  (h : Host) (createNewInstance : bool) (s : St h) :
  match fst (getPBInstance createNewInstance s) with
  | Ret inst =>
      forallb (isSet h) ["PB_HOST"; "PB_EMAIL"; "PB_PASSWORD"] = true
      /\ pb inst = env h "PB_HOST"
      /\ exists w,
           fst (authWithPassword h (env h "PB_HOST") (env h "PB_EMAIL")
                  (env h "PB_PASSWORD") w)
           = AuthStore true true
  | Exit c => c = 1
  | Hang => createNewInstance = true
  | Throw _ => False
  end.
Proof.
  rewrite getPBInstance_run. unfold bind.
  destruct createNewInstance.
  - pose proof (startPocketbase_outcome s) as O.
    destruct (startPocketbase s) as [[handle|e|c|] s1]; cbn [fst] in *;
      auto.
    pose proof (authenticated_outcome handle s1) as A.
    destruct (authenticated handle s1) as [[inst|e|c|] s2]; cbn [fst] in *;
      auto; contradiction.
  - unfold ret at 1.
    pose proof (authenticated_outcome None s) as A.
    destruct (authenticated None s) as [[inst|e|c|] s2]; cbn [fst] in *;
      auto; contradiction.
Qed.

(* ------------------------------------------------------------------ *)
(** ** Trimmed text *)

Lemma trimStart_head s :
  match JS.trimStart s with
  | EmptyString => True
  | String c _ => JS.isWhiteSpace c = false
  end.
Proof.
  induction s as [|c s IH]; cbn [JS.trimStart]; [exact I|].
  destruct (JS.isWhiteSpace c) eqn:E; [exact IH | exact E].
Qed.

Lemma trimEnd_cons c s :
  JS.trimEnd (String c s)
  = match JS.trimEnd s with
    | EmptyString =>
        if JS.isWhiteSpace c then EmptyString else String c EmptyString
    | t => String c t
    end.
Proof. reflexivity. Qed.

Lemma trimEnd_idempotent s : JS.trimEnd (JS.trimEnd s) = JS.trimEnd s.
Proof.
  induction s as [|c s IH]; [reflexivity|]. rewrite trimEnd_cons.
  destruct (JS.trimEnd s) as [|d t] eqn:E.
  - destruct (JS.isWhiteSpace c) eqn:W; [reflexivity|].
    rewrite trimEnd_cons. cbn [JS.trimEnd]. now rewrite W.
  - rewrite trimEnd_cons, IH. reflexivity.
Qed.

(** Trimming the end of a text keeps its first character when that is not
    white space. *)
Lemma trimEnd_head c s :
  JS.isWhiteSpace c = false ->
  exists t, JS.trimEnd (String c s) = String c t.
Proof.
  intros W. cbn [JS.trimEnd]. destruct (JS.trimEnd s).
  - rewrite W. now exists EmptyString.
  - eauto.
Qed.

Lemma trimStart_fixed c s :
  JS.isWhiteSpace c = false -> JS.trimStart (String c s) = String c s.
Proof. intros W. cbn [JS.trimStart]. now rewrite W. Qed.

(** [s.trim().trim()] is [s.trim()]. *)
Lemma trim_idempotent s : JS.trim (JS.trim s) = JS.trim s.
Proof.
  unfold JS.trim. pose proof (trimStart_head s) as H.
  destruct (JS.trimStart s) as [|c u]; [reflexivity|].
  destruct (trimEnd_head c u H) as [t E].
  rewrite E, (trimStart_fixed _ _ H), <- E. apply trimEnd_idempotent.
Qed.

(** X8. [executeCommand] returns a value only for a command that ran
    without spawn error and with exit status 0, and the value is the
    trimmed output (trimming it again changes nothing).  A failed command
    ends the host with status 1 exactly when [exitOnError] is [true]; when
    [exitOnError] is [false] or left out, the failure is thrown instead
    (the spawn error, or the bare exit status) and the host goes on. *)
Theorem executeCommand_policy
  (h : Host) (cmd : string) (options : CommandExecutionOptions) (s : St h) :
  let r := fst (spawnSync h cmd (stdio options) (os s)) in
  fst (executeCommand cmd options s)
  = (if succeeded r then Ret (output r)
     else match exitOnError options with
          | Some true => Exit 1
          | _ => Throw (failure r)
          end)
  /\ JS.trim (output r) = output r
  /\ In (EvExec cmd) (trace (snd (executeCommand cmd options s))).
Proof.
  cbv zeta. split; [|split].
  - destruct (exitOnError options) as [[|]|] eqn:X;
      try (rewrite executeCommand_run by congruence; cbv zeta; cbn [fst];
           reflexivity).
    unfold executeCommand, succeeded, output. rewrite X.
    unfold_monad. cbn [os trace].
    destruct (spawnSync h cmd (stdio options) (os s)) as [[e st o] w].
    cbn [error status stdout fst snd].
    destruct e; [reflexivity|]. destruct st as [[|p|p]|]; try reflexivity.
    destruct (stdio options) as [[|]|]; reflexivity.
  - unfold output. destruct (stdout _); [apply trim_idempotent|reflexivity].
  - unfold executeCommand. unfold_monad. cbn [os trace].
    destruct (spawnSync h cmd (stdio options) (os s)) as [[e st o] w].
    cbn [error status stdout].
    assert (G : forall t : list Event,
               In (EvExec cmd)
                  ((trace s
                    ++ [EvLog Debug ("Executing: " ++ cmd) EmptyString])
                   ++ [EvExec cmd] ++ t)%list).
    { intros t. apply in_or_app. right. now left. }
    destruct e.
    + destruct (exitOnError options) as [[|]|]; cbn [snd trace];
        rewrite <- ?app_assoc;
        try (apply (G [])); apply in_or_app; right; cbn; tauto.
    + destruct st as [[|p|p]|];
        try (destruct (exitOnError options) as [[|]|]; cbn [snd trace];
             rewrite <- ?app_assoc; apply in_or_app; right; cbn; tauto).
      destruct (stdio options) as [[|]|]; cbn [snd trace];
        rewrite <- ?app_assoc; apply in_or_app; right; cbn; tauto.
Qed.

(* ------------------------------------------------------------------ *)
(** ** Reading pids back from the listing commands *)

Lemma append_nil_r (s : string) : s ++ EmptyString = s.
Proof. induction s as [|c s IH]; cbn; [|rewrite IH]; reflexivity. Qed.

Lemma append_assoc (a b c : string) : (a ++ b) ++ c = a ++ b ++ c.
Proof. induction a as [|x a IH]; cbn; [|rewrite IH]; reflexivity. Qed.

Lemma digit_not_space c : JS.isDigit c = true -> JS.isWhiteSpace c = false.
Proof.
  unfold JS.isDigit, JS.digitValue, JS.isWhiteSpace.
  destruct ((48 <=? N_of_ascii c) && (N_of_ascii c <=? 57))%N eqn:E;
    [|discriminate].
  intros _. apply andb_true_iff in E as [L U].
  apply N.leb_le in L. apply N.leb_le in U.
  apply orb_false_iff. split; [apply orb_false_iff; split|].
  - apply andb_false_iff. right. apply N.leb_gt. lia.
  - apply N.eqb_neq. lia.
  - apply N.eqb_neq. lia.
Qed.

Lemma digit_not_newline c : JS.isDigit c = true -> notNewline c = true.
Proof.
  intros D. unfold notNewline. destruct (Ascii.eqb c JS.newline) eqn:E;
    [|reflexivity].
  apply Ascii.eqb_eq in E. subst c. discriminate D.
Qed.

Lemma digit_not_quote c : JS.isDigit c = true -> notQuote c = true.
Proof.
  intros D. unfold notQuote.
  destruct (Ascii.eqb c (ascii_of_nat 34)) eqn:E; [|reflexivity].
  apply Ascii.eqb_eq in E. subst c. discriminate D.
Qed.

Lemma allChars_impl (f g : ascii -> bool) s :
  (forall c, f c = true -> g c = true) ->
  allChars f s = true -> allChars g s = true.
Proof.
  intros fg. induction s as [|c s IH]; cbn [allChars]; [reflexivity|].
  intros H. apply andb_true_iff in H as [Hc Hs].
  now rewrite (fg c Hc), (IH Hs).
Qed.

Lemma allChars_app f a b :
  allChars f (a ++ b) = allChars f a && allChars f b.
Proof.
  induction a as [|c a IH]; cbn [String.append allChars]; [reflexivity|].
  now rewrite IH, andb_assoc.
Qed.

(** A printed natural number is a non-empty run of digits. *)
Lemma string_of_uint_digits d :
  allChars JS.isDigit (NilEmpty.string_of_uint d) = true.
Proof. induction d; cbn [NilEmpty.string_of_uint allChars]; auto. Qed.

Lemma numberToString_digits p :
  0 <= p ->
  exists c t, JS.numberToString p = String c t
              /\ allChars JS.isDigit (String c t) = true.
Proof.
  intros Hp. unfold JS.numberToString. destruct p as [|p|p]; [| |lia].
  - exists "0"%char, EmptyString. split; reflexivity.
  - cbn [Z.to_int NilEmpty.string_of_int].
    pose proof (string_of_uint_digits (Pos.to_uint p)) as D.
    pose proof (DecimalPos.Unsigned.to_uint_nonnil p) as Hn.
    destruct (Pos.to_uint p); [now elim Hn|..];
      cbn [NilEmpty.string_of_uint] in *; eauto.
Qed.

Lemma parseInt10_printed p : 0 <= p ->
  JS.parseInt10 (JS.numberToString p) = JS.Num p.
Proof.
  intros Hp. rewrite <- (append_nil_r (JS.numberToString p)).
  now apply parseInt10_numberToString.
Qed.

(** Text without white space is its own trimmed form. *)
Lemma trimEnd_solid s :
  allChars (fun c => negb (JS.isWhiteSpace c)) s = true ->
  JS.trimEnd s = s.
Proof.
  induction s as [|c s IH]; [reflexivity|]. cbn [allChars].
  intros H. apply andb_true_iff in H as [Hc Hs].
  rewrite trimEnd_cons, (IH Hs). apply negb_true_iff in Hc.
  destruct s; [now rewrite Hc | reflexivity].
Qed.

Lemma trimEnd_app s a :
  a <> EmptyString -> JS.trimEnd a = a -> JS.trimEnd (s ++ a) = s ++ a.
Proof.
  intros Ha Ea. induction s as [|c s IH]; [exact Ea|].
  cbn [String.append]. rewrite trimEnd_cons, IH.
  destruct (s ++ a) eqn:E; [|reflexivity].
  destruct s; [now elim Ha | discriminate E].
Qed.

Lemma digits_solid s :
  allChars JS.isDigit s = true ->
  allChars (fun c => negb (JS.isWhiteSpace c)) s = true.
Proof.
  apply allChars_impl. intros c D. now rewrite (digit_not_space c D).
Qed.

Lemma trim_digits c t :
  allChars JS.isDigit (String c t) = true ->
  JS.trim (String c t) = String c t.
Proof.
  intros D. unfold JS.trim. pose proof D as D'. cbn [allChars] in D'.
  apply andb_true_iff in D' as [Dc _].
  rewrite trimStart_fixed by now apply digit_not_space.
  now apply trimEnd_solid, digits_solid.
Qed.

Lemma splitLines_solid s :
  allChars notNewline s = true -> JS.splitLines s = [s].
Proof.
  induction s as [|c s IH]; [reflexivity|]. cbn [allChars JS.splitLines].
  intros H. apply andb_true_iff in H as [Hc Hs].
  unfold notNewline in Hc. apply negb_true_iff in Hc.
  now rewrite Hc, (IH Hs).
Qed.

Lemma splitLines_line a b :
  allChars notNewline a = true ->
  JS.splitLines (a ++ JS.nl ++ b) = a :: JS.splitLines b.
Proof.
  induction a as [|c a IH]; [reflexivity|]. cbn [allChars].
  intros H. apply andb_true_iff in H as [Hc Ha].
  cbn [String.append JS.splitLines].
  unfold notNewline in Hc. apply negb_true_iff in Hc.
  now rewrite Hc, (IH Ha).
Qed.

(** The lines of a text written one item per line. *)
Lemma splitLines_join lines :
  lines <> [] ->
  Forall (fun l => allChars notNewline l = true) lines ->
  JS.splitLines (JS.join JS.nl lines) = lines.
Proof.
  induction lines as [|l rest IH]; [now intros H|]. intros _ F.
  inversion F as [|? ? Hl Hrest]; subst.
  destruct rest as [|l2 rest].
  - cbn [JS.join]. now apply splitLines_solid.
  - change (JS.join JS.nl (l :: l2 :: rest))
      with (l ++ JS.nl ++ JS.join JS.nl (l2 :: rest)).
    rewrite splitLines_line by exact Hl.
    now rewrite IH by (auto; discriminate).
Qed.

Lemma join_trimEnd ls :
  Forall printedPid ls -> ls <> [] ->
  JS.join JS.nl ls <> EmptyString
  /\ JS.trimEnd (JS.join JS.nl ls) = JS.join JS.nl ls.
Proof.
  induction ls as [|l ls IH]; [now intros _ H|]. intros F _.
  inversion F as [|? ? (c & t & -> & D) Hls]; subst.
  destruct ls as [|l2 ls].
  - cbn [JS.join]. split; [discriminate|].
    now apply trimEnd_solid, digits_solid.
  - destruct (IH Hls) as [Hn He]; [discriminate|].
    change (JS.join JS.nl (String c t :: l2 :: ls))
      with (String c t ++ JS.nl ++ JS.join JS.nl (l2 :: ls)).
    split; [discriminate|].
    rewrite <- append_assoc. now apply trimEnd_app.
Qed.

Lemma join_trimmed (lines : list string) :
  Forall printedPid lines ->
  JS.trim (JS.join JS.nl lines) = JS.join JS.nl lines.
Proof.
  intros F. destruct lines as [|l rest]; [reflexivity|].
  destruct (join_trimEnd (l :: rest) F) as [_ He]; [discriminate|].
  inversion F as [|? ? (c & t & -> & D) Hrest]; subst.
  assert (Hc : JS.isWhiteSpace c = false).
  { cbn [allChars] in D. apply andb_true_iff in D as [Dc _].
    now apply digit_not_space. }
  unfold JS.trim.
  destruct (JS.join JS.nl (String c t :: rest)) as [|c' u] eqn:J.
  - reflexivity.
  - assert (c' = c) as ->.
    { destruct rest; cbn in J; now injection J. }
    now rewrite trimStart_fixed.
Qed.

(** Parsing what [pgrep] printed. *)
Lemma pgrepPids_printed (pids : list Z) :
  Forall (fun p => 0 <= p) pids ->
  pgrepPids (pgrepOutput pids) = pids.
Proof.
  intros Hp. unfold pgrepPids, pgrepOutput.
  destruct pids as [|p0 ps]; [reflexivity|].
  assert (F : Forall printedPid (map JS.numberToString (p0 :: ps))).
  { apply Forall_map. eapply Forall_impl; [|exact Hp].
    intros p H. cbv beta. now apply numberToString_digits. }
  rewrite join_trimmed by exact F.
  rewrite splitLines_join.
  - rewrite map_map. clear F. induction Hp as [|p l Hp0 Hl IH];
      [reflexivity|].
    cbn [map notNaN]. destruct (numberToString_digits p Hp0)
      as (c & t & E & D).
    rewrite E, (trim_digits c t D), <- E, (parseInt10_printed p Hp0).
    now rewrite IH.
  - discriminate.
  - eapply Forall_impl; [|exact F]. cbv beta.
    intros l (c & t & -> & D).
    eapply allChars_impl; [|exact D]. apply digit_not_newline.
Qed.

Lemma exactPid_nonneg (pids : list Z) :
  Forall exactPid pids -> Forall (fun p => 0 <= p) pids.
Proof.
  intros H. eapply Forall_impl; [|exact H]. now intros p [Hp _].
Qed.

(** X9. The POSIX branch of the probe reads back exactly the pids [pgrep]
    printed: for any list of pids up to 2^53 (where [parseInt] is exact),
    written one per line, the parsed list is that list, in the same order
    (and an empty output gives no pid). *)
Theorem pgrepPids_round_trip (pids : list Z) :
  Forall exactPid pids ->
  pgrepPids (pgrepOutput pids) = pids.
Proof.
  intros H. apply pgrepPids_printed. now apply exactPid_nonneg.
Qed.

(** X9, witness. *)
Lemma pgrepPids_round_trip_witness :
  pgrepPids (pgrepOutput [4242; 77; 0]) = [4242; 77; 0].
Proof.
  apply (pgrepPids_round_trip [4242; 77; 0]).
  repeat constructor; unfold exactPid; lia.
Defined.

Lemma spanDigits_digits ds q r :
  allChars JS.isDigit ds = true -> JS.isDigit q = false ->
  JS.spanDigits (ds ++ String q r) = (ds, String q r).
Proof.
  intros D Q. induction ds as [|c ds IH]; cbn [String.append JS.spanDigits].
  - now rewrite Q.
  - cbn [allChars] in D. apply andb_true_iff in D as [Dc Ds].
    now rewrite Dc, (IH Ds).
Qed.

(** In front of a name that is not a number and holds no quote, the digits
    stop at a character that is not a quote. *)
Lemma spanDigits_image image x :
  allChars notQuote image = true ->
  allChars JS.isDigit image = false ->
  exists ds q r,
    JS.spanDigits (image ++ x) = (ds, String q r)
    /\ Ascii.eqb q (ascii_of_nat 34) = false.
Proof.
  induction image as [|c image IH]; cbn [allChars]; [discriminate|].
  intros Hq Hd. apply andb_true_iff in Hq as [Hc Hq].
  cbn [String.append JS.spanDigits].
  destruct (JS.isDigit c) eqn:Dc; cbn [andb] in Hd.
  - destruct (IH Hq Hd) as (ds & q & r & -> & Q). eauto.
  - exists EmptyString, c, (image ++ x). split; [reflexivity|].
    unfold notQuote in Hc. now apply negb_true_iff in Hc.
Qed.

Lemma matchQuotedDigits_skip a x :
  allChars notQuote a = true ->
  JS.matchQuotedDigits (a ++ x) = JS.matchQuotedDigits x.
Proof.
  induction a as [|c a IH]; cbn [allChars]; [reflexivity|].
  intros H. apply andb_true_iff in H as [Hc Ha].
  cbn [String.append JS.matchQuotedDigits].
  unfold notQuote in Hc. apply negb_true_iff in Hc.
  now rewrite Hc, IH.
Qed.

Lemma removeQuotes_solid s :
  allChars notQuote s = true -> JS.removeQuotes s = s.
Proof.
  induction s as [|c s IH]; cbn [allChars JS.removeQuotes]; [reflexivity|].
  intros H. apply andb_true_iff in H as [Hc Hs].
  unfold notQuote in Hc. apply negb_true_iff in Hc.
  now rewrite Hc, (IH Hs).
Qed.

Lemma removeQuotes_app a b :
  JS.removeQuotes (a ++ b) = JS.removeQuotes a ++ JS.removeQuotes b.
Proof.
  induction a as [|c a IH]; cbn [String.append JS.removeQuotes];
    [reflexivity|].
  destruct (Ascii.eqb c (ascii_of_nat 34)); cbn [String.append];
    now rewrite IH.
Qed.

(** The pid column is what is read from a row of [tasklist]. *)
Lemma tasklistLinePid_row image pid tail :
  allChars notQuote image = true ->
  allChars JS.isDigit image = false ->
  0 <= pid ->
  tasklistLinePid (tasklistRow image (pid, tail)) = JS.Num pid.
Proof.
  intros Hq Hd Hp. unfold tasklistLinePid, tasklistRow. cbn [fst snd].
  destruct (numberToString_digits pid Hp) as (d & ds & E & D).
  set (rest1 := JS.dquote ++ "," ++ JS.dquote ++ JS.numberToString pid
                ++ JS.dquote ++ tail).
  assert (M : JS.matchQuotedDigits (JS.dquote ++ image ++ rest1)
              = Some (JS.dquote ++ JS.numberToString pid ++ JS.dquote)).
  { change (JS.dquote ++ image ++ rest1)
      with (String (ascii_of_nat 34) (image ++ rest1)).
    cbn [JS.matchQuotedDigits]. rewrite Ascii.eqb_refl.
    destruct (spanDigits_image image rest1 Hq Hd) as (x & q & r & -> & Q).
    rewrite Q.
    assert (G : JS.matchQuotedDigits (image ++ rest1)
                = Some (JS.dquote ++ JS.numberToString pid ++ JS.dquote)).
    { rewrite matchQuotedDigits_skip by exact Hq. subst rest1.
      change (JS.dquote ++ "," ++ JS.dquote ++ JS.numberToString pid
              ++ JS.dquote ++ tail)
        with (String (ascii_of_nat 34)
                (String ","%char
                   (String (ascii_of_nat 34)
                      (JS.numberToString pid
                       ++ String (ascii_of_nat 34) tail)))).
      cbn [JS.matchQuotedDigits JS.spanDigits].
      rewrite Ascii.eqb_refl.
      change (JS.isDigit ","%char) with false. cbv iota beta.
      change (Ascii.eqb ","%char (ascii_of_nat 34)) with false.
      cbv iota beta. rewrite E.
      rewrite (spanDigits_digits (String d ds) (ascii_of_nat 34) tail D)
        by reflexivity.
      now rewrite Ascii.eqb_refl. }
    destruct x; exact G. }
  rewrite M. rewrite !removeQuotes_app.
  change (JS.removeQuotes JS.dquote) with EmptyString.
  cbn [String.append]. rewrite append_nil_r, removeQuotes_solid.
  - now apply parseInt10_printed.
  - rewrite E. eapply allChars_impl; [|exact D]. apply digit_not_quote.
Qed.

(** Parsing the rows [tasklist] printed. *)
Lemma tasklistPids_printed (image : string) (rows : list (Z * string)) :
  allChars notQuote image = true ->
  allChars notNewline image = true ->
  allChars JS.isDigit image = false ->
  Forall (fun row => 0 <= fst row /\ allChars notNewline (snd row) = true)
         rows ->
  tasklistPids (JS.join JS.nl (map (tasklistRow image) rows)) = map fst rows.
Proof.
  intros Hq Hn Hd Hr. unfold tasklistPids.
  destruct rows as [|row0 rows0]; [reflexivity|].
  rewrite splitLines_join.
  - rewrite map_map. induction Hr as [|[pid tail] l [Hp Ht] Hl IH];
      [reflexivity|].
    cbn [map notNaN fst].
    rewrite (tasklistLinePid_row image pid tail Hq Hd Hp).
    now rewrite IH.
  - discriminate.
  - apply Forall_map. eapply Forall_impl; [|exact Hr]. cbv beta.
    intros [pid tail] [Hp Ht]. unfold tasklistRow. cbn [fst snd] in *.
    destruct (numberToString_digits pid Hp) as (d & ds & E & D).
    rewrite !allChars_app, Hn, Ht, E.
    rewrite (allChars_impl _ _ _ digit_not_newline D). reflexivity.
Qed.

Lemma exactPid_rows (rows : list (Z * string)) :
  Forall (fun row => exactPid (fst row)
                     /\ allChars notNewline (snd row) = true) rows ->
  Forall (fun row => 0 <= fst row /\ allChars notNewline (snd row) = true)
         rows.
Proof.
  intros H. eapply Forall_impl; [|exact H]. cbv beta.
  intros row [[Hp _] Ht]. now split.
Qed.

(** X10. The Windows branch of the probe reads back exactly the pids that
    [tasklist] printed in its CSV rows: for rows of an image whose name is
    not a number (and holds no quote or line break), with pids up to 2^53
    (where [parseInt] is exact) and any remaining columns, the parsed list
    is the list of the pids, in order.  Only the first quoted number of a
    row is read, so the session number that follows is never taken for a
    pid. *)
Theorem tasklistPids_round_trip (image : string) (rows : list (Z * string)) :
  allChars notQuote image = true ->
  allChars notNewline image = true ->
  allChars JS.isDigit image = false ->
  Forall (fun row => exactPid (fst row)
                     /\ allChars notNewline (snd row) = true) rows ->
  tasklistPids (JS.join JS.nl (map (tasklistRow image) rows)) = map fst rows.
Proof.
  intros Hq Hn Hd Hr.
  apply tasklistPids_printed; [exact Hq | exact Hn | exact Hd |].
  now apply exactPid_rows.
Qed.

(** X10, witness: two rows as [tasklist] prints them, carriage return
    included. *)
Lemma tasklistPids_round_trip_witness :
  let columns :=
    "," ++ JS.dquote ++ "Console" ++ JS.dquote ++ "," ++ JS.dquote ++ "1"
    ++ JS.dquote ++ "," ++ JS.dquote ++ "10,000 K" ++ JS.dquote
    ++ String (ascii_of_nat 13) EmptyString in
  tasklistPids
    (JS.join JS.nl
       (map (tasklistRow "pocketbase.exe") [(4242, columns); (77, columns)]))
  = [4242; 77].
Proof.
  cbv zeta.
  apply (tasklistPids_round_trip "pocketbase.exe");
    try reflexivity.
  repeat constructor; unfold exactPid; cbn; lia.
Defined.

(* ------------------------------------------------------------------ *)
(** ** What the Terminator and the Identity Verifier touch *)

Section Touch.

Context {h : Host}.

Lemma output_trimmed r : JS.trim (output r) = output r.
Proof.
  unfold output. destruct (stdout r); [apply trim_idempotent|reflexivity].
Qed.

Lemma execTrace_no_kill cmd options r :
  isKillRequest (EvExec cmd) = false ->
  existsb isKillRequest (execTrace cmd options r) = false.
Proof.
  intros Hc. unfold execTrace. cbn [app existsb]. rewrite Hc.
  destruct (succeeded r); [destruct (stdio options) as [[|]|]|];
    reflexivity.
Qed.

Lemma execTrace_kill cmd options r :
  isKillRequest (EvExec cmd) = true ->
  existsb isKillRequest (execTrace cmd options r) = true.
Proof.
  intros Hc. unfold execTrace. cbn [app existsb]. now rewrite Hc.
Qed.

(** Killing by keyword on POSIX, with the state it leaves. *)
Lemma killExistingProcess_posix kw (s : St h) :
  platform h = Posix ->
  let g := spawnSync h (pgrepFull kw) (Some Pipe) (os s) in
  let k := spawnSync h (pkillFull kw) None (snd g) in
  trace (snd (killExistingProcess (Keyword kw) s))
  = (trace s ++ execTrace (pgrepFull kw) pipeNoExit (fst g)
     ++ if succeeded (fst g) && JS.truthy (output (fst g))
        then execTrace (pkillFull kw) noOptions (fst k)
             ++ (if succeeded (fst k)
                 then [EvLog Debug
                         ("Killed process matching keyword: "
                          ++ highlight h kw ++ " (PID: "
                          ++ highlight h (output (fst g)) ++ ")")
                         EmptyString]
                 else [])
        else [])%list.
Proof.
  intros Pl. cbv zeta. unfold killExistingProcess. rewrite Pl.
  unfold tryCatch at 1. unfold bind at 1.
  rewrite executeCommand_run by discriminate. cbv zeta.
  cbn [stdio pipeNoExit].
  destruct (spawnSync h (pgrepFull kw) (Some Pipe) (os s)) as [r w].
  cbn [fst snd].
  destruct (succeeded r); cbn [andb snd trace];
    [|now rewrite app_nil_r].
  destruct (JS.truthy (output r)); cbn [snd trace];
    [|now rewrite app_nil_r].
  unfold bind at 1. rewrite executeCommand_run by discriminate.
  cbv zeta. cbn [os stdio noOptions].
  destruct (spawnSync h (pkillFull kw) None w) as [r2 w2]. cbn [fst snd].
  destruct (succeeded r2); unfold_monad; cbn [snd trace];
    rewrite <- ?app_assoc, ?app_nil_r; reflexivity.
Qed.

(** Killing by keyword on Windows, with the state it leaves. *)
Lemma killExistingProcess_windows kw (s : St h) :
  platform h = Win32 ->
  let image := kw ++ ".exe" in
  let g := spawnSync h (tasklistByImage image) (Some Pipe) (os s) in
  let k := spawnSync h (taskkillByImage image) None (snd g) in
  trace (snd (killExistingProcess (Keyword kw) s))
  = (trace s ++ execTrace (tasklistByImage image) pipeNoExit (fst g)
     ++ if succeeded (fst g) && JS.truthy (output (fst g))
           && negb (JS.includes (output (fst g)) "No tasks are running")
        then execTrace (taskkillByImage image) noExit (fst k)
             ++ (if succeeded (fst k)
                 then [EvLog Debug ("Killed processes matching: " ++ kw)
                         EmptyString]
                 else [])
        else [])%list.
Proof.
  intros Pl. cbv zeta. unfold killExistingProcess. rewrite Pl.
  unfold tryCatch at 1. unfold bind at 1.
  rewrite executeCommand_run by discriminate. cbv zeta.
  cbn [stdio pipeNoExit].
  destruct (spawnSync h (tasklistByImage (kw ++ ".exe")) (Some Pipe) (os s))
    as [r w]. cbn [fst snd].
  destruct (succeeded r); cbn [andb snd trace];
    [|now rewrite app_nil_r].
  rewrite output_trimmed.
  destruct (JS.truthy (output r)
            && negb (JS.includes (output r) "No tasks are running"));
    unfold when.
  - unfold bind at 1. unfold bind at 1.
    rewrite executeCommand_run by discriminate.
    cbv zeta. cbn [os stdio noExit].
    destruct (spawnSync h (taskkillByImage (kw ++ ".exe")) None w)
      as [r2 w2]. cbn [fst snd].
    destruct (succeeded r2); unfold_monad; cbn [snd trace];
      rewrite <- ?app_assoc, ?app_nil_r; reflexivity.
  - unfold_monad. cbn [snd trace]. now rewrite app_nil_r.
Qed.

End Touch.

(* ------------------------------------------------------------------ *)
(** ** What the probe verifies *)

Lemma join_truthy (sep : string) (c : ascii) (t : string)
  (rest : list string) :
  JS.truthy (JS.join sep (String c t :: rest)) = true.
Proof. destruct rest; reflexivity. Qed.

Lemma pgrepOutput_truthy (p : Z) (ps : list Z) :
  0 <= p -> JS.truthy (pgrepOutput (p :: ps)) = true.
Proof.
  intros Hp. unfold pgrepOutput. cbn [map].
  destruct (numberToString_digits p Hp) as (c & t & -> & _).
  apply join_truthy.
Qed.

(** C4. On POSIX every pid that [pgrep] printed goes through the Identity
    Verifier, once and in order, and the probe reports a running instance
    exactly when at least one of them is verified; a failed or empty search
    reports not running without verifying anything.  On Windows no pid is
    verified: the pids counted are those of the rows [tasklist] printed,
    and the probe reports a running instance exactly when there is a row.
    The first two parts of each branch say the same of whatever the command
    printed, in terms of what the probe parsed from it. *)
Theorem checkRunningPBInstances_verifies
  (h : Host) (exitOnErr : bool) (s : St h) :
  let r := spawnSync h (probeCommand h) (Some Pipe) (os s) in
  let out := output (fst r) in
  let s1 := {| os := snd r;
               trace := trace s
                        ++ execTrace (probeCommand h) pipeNoExit (fst r) |} in
  let res := checkRunningPBInstances exitOnErr s in
  let found := succeeded (fst r) && JS.truthy (JS.trim out) in
  exists evs,
    trace (snd res) = (trace s ++ evs)%list
    /\ (reportsRunning exitOnErr (fst res) \/ fst res = Ret false)
    /\ match platform h with
       | Posix =>
           probedPids evs = (if found then pgrepPids out else [])
           /\ (reportsRunning exitOnErr (fst res) <->
               found = true
               /\ In true (fst (verdicts (pgrepPids out) s1)))
           /\ (forall pids,
                 Forall exactPid pids ->
                 succeeded (fst r) = true ->
                 out = pgrepOutput pids ->
                 probedPids evs = pids
                 /\ (reportsRunning exitOnErr (fst res) <->
                     In true (fst (verdicts pids s1))))
       | Win32 =>
           probedPids evs = []
           /\ (reportsRunning exitOnErr (fst res) <->
               found = true
               /\ JS.includes out "No tasks are running" = false
               /\ tasklistPids out <> [])
           /\ (forall image rows,
                 allChars notQuote image = true ->
                 allChars notNewline image = true ->
                 allChars JS.isDigit image = false ->
                 Forall (fun row =>
                           exactPid (fst row)
                           /\ allChars notNewline (snd row) = true) rows ->
                 succeeded (fst r) = true ->
                 out = JS.join JS.nl (map (tasklistRow image) rows) ->
                 JS.includes out "No tasks are running" = false ->
                 tasklistPids out = map fst rows
                 /\ (reportsRunning exitOnErr (fst res) <-> rows <> []))
       end.
Proof.
  pose proof (checkRunningPBInstances_probed h exitOnErr s) as H.
  cbv zeta in *. destruct H as (evs & T & A & B).
  exists evs. split; [exact T|]. split; [exact A|].
  rewrite output_trimmed in *.
  destruct (platform h).
  - destruct B as [P1 P2]. split; [exact P1|]. split; [exact P2|].
    intros image rows Hq Hn Hd Hr Hs Ho Hi.
    assert (Q : tasklistPids (output (fst (spawnSync h (probeCommand h)
                                             (Some Pipe) (os s))))
                = map fst rows).
    { rewrite Ho. apply tasklistPids_printed; try assumption.
      now apply exactPid_rows. }
    split; [exact Q|]. rewrite P2, Q, Hs, Hi. cbn [andb].
    destruct rows as [|row rows].
    + split; [intros (_ & _ & N); now elim N | intros N; now elim N].
    + split; [discriminate|]. intros _.
      split; [|split; [reflexivity|discriminate]].
      rewrite Ho. cbn [map]. unfold tasklistRow at 1.
      apply join_truthy.
  - destruct B as [P1 P2]. split; [exact P1|]. split; [exact P2|].
    intros pids Hx Hs Ho.
    assert (Q : pgrepPids (output (fst (spawnSync h (probeCommand h)
                                          (Some Pipe) (os s))))
                = pids).
    { rewrite Ho. apply pgrepPids_printed. now apply exactPid_nonneg. }
    rewrite P1, P2, Q, Hs. cbn [andb].
    destruct pids as [|p ps].
    + rewrite Ho. cbn. split; [reflexivity|].
      split; [intros [N _]; discriminate | intros []].
    + rewrite Ho, pgrepOutput_truthy
        by (inversion Hx as [|? ? [Hp _] ?]; exact Hp).
      split; [reflexivity|]. split; [now intros [_ I] | now split].
Qed.

(** C4, the round trip at work: two live servers on POSIX, whose pids
    [pgrep] prints one per line, are both probed, in order, and the probe
    says yes. *)
Lemma checkRunningPBInstances_verifies_witness :
  let res := checkRunningPBInstances false (Demo.posixWith [] [4242; 77]) in
  exists evs,
    trace (snd res)
    = (trace (Demo.posixWith [] [4242; 77]) ++ evs)%list
    /\ probedPids evs = [4242; 77]
    /\ fst res = Ret true.
Proof.
  pose proof (checkRunningPBInstances_verifies (Demo.posix []) false
                (Demo.posixWith [] [4242; 77])) as H.
  cbv zeta in *. destruct H as (evs & T & _ & B).
  change (platform (Demo.posix [])) with Posix in B. cbv iota in B.
  destruct B as (_ & _ & R).
  destruct (R [4242; 77]) as [P I].
  - repeat constructor; unfold exactPid; lia.
  - reflexivity.
  - reflexivity.
  - exists evs. split; [exact T|]. split; [exact P|].
    apply I. left. reflexivity.
Defined.

(* ------------------------------------------------------------------ *)
(** ** The Terminator on an exposed host *)

Section Reached.

Context {h : Host}.

Variable x : Exposure h.

(** A command on the exposed host: it ends the host, or does what it does
    on a host that is out of reach. *)
Lemma Exposed_executeCommand_run cmd options (s : St h) :
  Exposed.executeCommand x cmd options s
  = match commandEndsHost x cmd (os s) with
    | Some c =>
        (Exit c,
         {| os := snd (spawnSync h cmd (stdio options) (os s));
            trace := trace s
                     ++ [EvLog Debug ("Executing: " ++ cmd) EmptyString;
                         EvExec cmd] |})
    | None => executeCommand cmd options s
    end.
Proof.
  unfold Exposed.executeCommand. unfold tryCatch at 1. unfold bind at 1.
  unfold Logging.debug at 1. unfold emit at 1. cbv beta iota.
  unfold bind at 1. unfold Exposed.spawnSyncM. cbn [os trace].
  destruct (commandEndsHost x cmd (os s)) as [c|]; [|reflexivity].
  f_equal. apply St_eq. now rewrite <- app_assoc.
Qed.

(** What the Terminator does with a pid on the exposed host. *)
Lemma Exposed_killExistingProcess_pid pid (s : St h) :
  fst (Exposed.killExistingProcess x (PID pid) s)
  = endedOr
      match platform h with
      | Win32 => commandEndsHost x (taskkillByPid pid) (os s)
      | Posix => signalEndsHost x pid SIGTERM (os s)
      end
      (Ret None).
Proof.
  unfold Exposed.killExistingProcess. unfold tryCatch at 1.
  destruct (platform h).
  - unfold bind at 1. unfold bind at 1.
    rewrite Exposed_executeCommand_run.
    destruct (commandEndsHost x (taskkillByPid pid) (os s)) as [c|];
      [reflexivity|].
    rewrite executeCommand_run by discriminate. cbv zeta.
    destruct (spawnSync h _ _ (os s)) as [r w]. cbn [fst snd].
    destruct (succeeded r); reflexivity.
  - unfold bind at 1. unfold Exposed.processKillM.
    destruct (signalEndsHost x pid SIGTERM (os s)) as [c|]; [reflexivity|].
    unfold processKillM.
    destruct (processKill h pid SIGTERM (os s)) as [[msg|] w]; reflexivity.
Qed.

(** What the Terminator does with a keyword on the exposed host. *)
Lemma Exposed_killExistingProcess_keyword kw (s : St h) :
  let listing :=
    match platform h with
    | Win32 => tasklistByImage (kw ++ ".exe")
    | Posix => pgrepFull kw
    end in
  let request :=
    match platform h with
    | Win32 => taskkillByImage (kw ++ ".exe")
    | Posix => pkillFull kw
    end in
  let g := spawnSync h listing (Some Pipe) (os s) in
  let k := spawnSync h request None (snd g) in
  let matched :=
    succeeded (fst g) && JS.truthy (output (fst g))
    && match platform h with
       | Win32 => negb (JS.includes (output (fst g)) "No tasks are running")
       | Posix => true
       end in
  fst (Exposed.killExistingProcess x (Keyword kw) s)
  = endedOr (commandEndsHost x listing (os s))
      (if matched
       then endedOr (commandEndsHost x request (snd g))
              (Ret match platform h with
                   | Win32 => None
                   | Posix =>
                       if succeeded (fst k)
                       then Some (JS.parseInt10 (output (fst g)))
                       else None
                   end)
       else Ret None).
Proof.
  cbv zeta. unfold Exposed.killExistingProcess. unfold tryCatch at 1.
  destruct (platform h).
  - unfold bind at 1. rewrite Exposed_executeCommand_run.
    destruct (commandEndsHost x (tasklistByImage (kw ++ ".exe")) (os s))
      as [c|]; [reflexivity|]. cbn [endedOr].
    rewrite executeCommand_run by discriminate. cbv zeta.
    destruct (spawnSync h _ _ (os s)) as [r w]. cbn [fst snd].
    destruct (succeeded r); [|reflexivity]. cbn [andb].
    rewrite output_trimmed.
    destruct (JS.truthy (output r)
              && negb (JS.includes (output r) "No tasks are running"));
      [|reflexivity].
    unfold when. unfold bind at 1. unfold bind at 1.
    rewrite Exposed_executeCommand_run. cbn [os].
    destruct (commandEndsHost x (taskkillByImage (kw ++ ".exe")) w)
      as [c|]; [reflexivity|]. cbn [endedOr].
    unfold bind. rewrite executeCommand_run by discriminate.
    cbv zeta. cbn [os stdio noExit].
    destruct (spawnSync h _ _ w) as [r2 w2]. cbn [fst snd].
    destruct (succeeded r2); reflexivity.
  - unfold bind at 1. rewrite Exposed_executeCommand_run.
    destruct (commandEndsHost x (pgrepFull kw) (os s)) as [c|];
      [reflexivity|]. cbn [endedOr].
    rewrite executeCommand_run by discriminate. cbv zeta.
    destruct (spawnSync h _ _ (os s)) as [r w]. cbn [fst snd].
    destruct (succeeded r); [|reflexivity]. cbn [andb].
    rewrite andb_true_r.
    destruct (JS.truthy (output r)); [|reflexivity].
    unfold bind at 1. rewrite Exposed_executeCommand_run. cbn [os].
    destruct (commandEndsHost x (pkillFull kw) w) as [c|];
      [reflexivity|]. cbn [endedOr].
    unfold bind. rewrite executeCommand_run by discriminate.
    cbv zeta. cbn [os stdio noOptions].
    destruct (spawnSync h _ _ w) as [r2 w2]. cbn [fst snd].
    destruct (succeeded r2); reflexivity.
Qed.

End Reached.

(** On a host that is out of reach the Terminator is the one modelled
    first. *)
Lemma Exposed_killExistingProcess_sheltered
  (h : Host) (arg : KeywordOrPID) (s : St h) :
  Exposed.killExistingProcess (sheltered h) arg s
  = killExistingProcess arg s.
Proof. reflexivity. Qed.

(** C7 (as amended). The Terminator never raises to its caller and never
    calls [process.exit]: for every argument it returns, unless one of its
    own requests ends the host process (a signal to pid 0 or to the host
    itself, a [pkill] or [taskkill] whose pattern matches the host), and
    then nothing is raised either.  Given a pid it returns [undefined].
    Given a keyword it returns [undefined] when the listing fails or prints
    nothing (no process matches), and on Windows in every case; on POSIX,
    when [pgrep] found a match, it returns [parseInt] of the [pgrep] output
    if the [pkill] that follows succeeded, and [undefined] if that [pkill]
    failed.  The number returned is the first pid [pgrep] printed, for pids
    up to 2^53. *)
Theorem killExistingProcess_never_raises
  (h : Host) (x : Exposure h) (arg : KeywordOrPID) (s : St h) :
  let res := fst (Exposed.killExistingProcess x arg s) in
  (forall e, res <> Throw e)
  /\ match arg with
     | PID pid =>
         res = endedOr
                 match platform h with
                 | Win32 => commandEndsHost x (taskkillByPid pid) (os s)
                 | Posix => signalEndsHost x pid SIGTERM (os s)
                 end
                 (Ret None)
     | Keyword kw =>
         let listing :=
           match platform h with
           | Win32 => tasklistByImage (kw ++ ".exe")
           | Posix => pgrepFull kw
           end in
         let request :=
           match platform h with
           | Win32 => taskkillByImage (kw ++ ".exe")
           | Posix => pkillFull kw
           end in
         let g := spawnSync h listing (Some Pipe) (os s) in
         let k := spawnSync h request None (snd g) in
         let matched :=
           succeeded (fst g) && JS.truthy (output (fst g))
           && match platform h with
              | Win32 =>
                  negb (JS.includes (output (fst g)) "No tasks are running")
              | Posix => true
              end in
         match commandEndsHost x listing (os s) with
         | Some c => res = Exit c
         | None =>
             (matched = false -> res = Ret None)
             /\ (matched = true ->
                 res = endedOr (commandEndsHost x request (snd g))
                         (Ret match platform h with
                              | Win32 => None
                              | Posix =>
                                  if succeeded (fst k)
                                  then Some (JS.parseInt10 (output (fst g)))
                                  else None
                              end))
             /\ (forall p ps,
                   exactPid p ->
                   output (fst g) = pgrepOutput (p :: ps) ->
                   JS.parseInt10 (output (fst g)) = JS.Num p)
         end
     end.
Proof.
  cbv zeta. destruct arg as [kw|pid].
  - pose proof (Exposed_killExistingProcess_keyword x kw s) as K.
    cbv zeta in K. rewrite K. clear K.
    destruct (commandEndsHost x _ (os s)) as [c|]; cbn [endedOr].
    + repeat split; discriminate.
    + match goal with
      | |- context [if ?m then _ else _] => destruct m eqn:G
      end.
      * split.
        { intros e. destruct (commandEndsHost x _ _); discriminate. }
        split; [discriminate|]. split; [reflexivity|].
        intros p ps Hp E. rewrite E. unfold pgrepOutput.
        apply parseInt10_first_pid. apply Hp.
      * split; [discriminate|].
        split; [reflexivity|]. split; [discriminate|].
        intros p ps Hp E. rewrite E. unfold pgrepOutput.
        apply parseInt10_first_pid. apply Hp.
  - rewrite Exposed_killExistingProcess_pid.
    destruct (platform h);
      match goal with
      | |- context [endedOr ?o _] => destruct o
      end; repeat split; discriminate.
Qed.

(** The Terminator asked to signal pid 0 on a POSIX host that belongs to
    its own process group: the host is ended and nothing comes back. *)
Example kill_own_group :
  fst (Exposed.killExistingProcess (ownGroup (Demo.posix [])) (PID 0)
         (Demo.posixWith [] []))
  = Exit 143.
Proof. reflexivity. Qed.

(** The same request on a host that is out of reach comes back. *)
Example kill_pid_zero_sheltered :
  fst (Exposed.killExistingProcess (sheltered (Demo.posix [])) (PID 0)
         (Demo.posixWith [] []))
  = Ret None.
Proof. reflexivity. Qed.


(** X11. Given a keyword, the Terminator asks for processes to be ended
    only after its listing found some: when the listing command fails or
    prints nothing (or, on Windows, prints the no-tasks notice) no [pkill],
    no [taskkill] and no signal is issued; when the listing succeeds with a
    match, the kill command for that keyword is issued. *)
Theorem killExistingProcess_kills_only_matches
  (h : Host) (kw : string) (s : St h) :
  let listing :=
    match platform h with
    | Win32 => tasklistByImage (kw ++ ".exe")
    | Posix => pgrepFull kw
    end in
  let r := fst (spawnSync h listing (Some Pipe) (os s)) in
  let found :=
    succeeded r && JS.truthy (output r)
    && match platform h with
       | Win32 => negb (JS.includes (output r) "No tasks are running")
       | Posix => true
       end in
  exists evs,
    trace (snd (killExistingProcess (Keyword kw) s)) = (trace s ++ evs)%list
    /\ existsb isKillRequest evs = found.
Proof.
  cbv zeta. destruct (platform h) eqn:Pl.
  - rewrite (killExistingProcess_windows kw s Pl). cbv zeta.
    eexists. split; [reflexivity|].
    rewrite existsb_app, execTrace_no_kill by reflexivity. cbn [orb].
    rewrite <- andb_assoc.
    destruct (succeeded _ && (JS.truthy _ && negb _)); [|reflexivity].
    rewrite existsb_app, execTrace_kill by reflexivity. reflexivity.
  - rewrite (killExistingProcess_posix kw s Pl). cbv zeta.
    eexists. split; [reflexivity|].
    rewrite existsb_app, execTrace_no_kill by reflexivity. cbn [orb].
    rewrite andb_true_r.
    destruct (succeeded _ && JS.truthy _); [|reflexivity].
    rewrite existsb_app, execTrace_kill by reflexivity. reflexivity.
Qed.

(** X12. The Identity Verifier only inspects.  It sends the zero signal to
    the pid once, never another signal, and runs at most one command, the
    listing of that pid; when the zero signal is refused (the pid is gone or
    may not be signalled) it runs no command at all. *)
Theorem isValidPocketbaseProcess_inspects_only
  (h : Host) (pid : Z) (s : St h) :
  let refusal := fst (processKill h pid Sig0 (os s)) in
  exists evs,
    trace (snd (isValidPocketbaseProcess pid s)) = (trace s ++ evs)%list
    /\ Forall readOnlyEvent evs
    /\ existsb isKillRequest evs = false
    /\ probedPids evs = [pid]
    /\ (existsb isOsCall (tl evs)
        = match refusal with None => true | Some _ => false end).
Proof.
  cbv zeta. rewrite isValidPocketbaseProcess_run. cbv zeta.
  destruct (fst (processKill h pid Sig0 (os s))).
  - exists [EvKill pid Sig0]. cbn [snd trace]. repeat split.
    apply Forall_cons; [exact I | apply Forall_nil].
  - eexists. cbn [snd trace]. split; [reflexivity|]. split; [|split; [|split]].
    + apply Forall_cons; [exact I|].
      apply readOnly_execTrace, readOnly_inspectCommand.
    + cbn [existsb isKillRequest orb]. apply execTrace_no_kill.
      unfold inspectCommand. destruct (platform h); reflexivity.
    + cbn [probedPids]. now rewrite probedPids_execTrace.
    + cbn [tl]. unfold execTrace. cbn [app existsb isOsCall orb].
      reflexivity.
Qed.

(* ------------------------------------------------------------------ *)
(** ** Helpers *)

(** X13. For a variable name that is not a member of [Object.prototype]:
    [getEnvVar] with a fallback never ends the host and has no effect; it
    returns the variable when that is set to a non-empty string and the
    fallback otherwise, an empty fallback included.  Without a fallback it
    agrees with [getEnvVars] on the one-name list: either both return the
    value, or both end the host with status 1, and a variable set to the
    empty string counts as missing for both. *)
Theorem getEnvVar_fallback (h : Host) (varName : string) (s : St h) :
  ownName varName = true ->
  (forall f,
     exists v,
       getEnvVar varName (Some f) s = (Ret v, s)
       /\ if isSet h varName then env h varName = Some v else v = f)
  /\ (forall v,
        getEnvVar varName None s = (Ret v, s) <->
        getEnvVars [varName] s = (Ret [(varName, v)], s))
  /\ (isSet h varName = false ->
      fst (getEnvVar varName None s) = Exit 1
      /\ fst (getEnvVars [varName] s) = Exit 1).
Proof.
  intros _.
  assert (G : getEnvVars [varName] s
              = if isSet h varName
                then (Ret [(varName,
                            match env h varName with
                            | Some v => v
                            | None => EmptyString
                            end)], s)
                else (Exit 1,
                      after s
                        [EvLog ActionableError
                           ("Missing required environment variables: "
                            ++ varName) envHint;
                         EvExit 1])).
  { rewrite getEnvVars_run. unfold missingVars, isSet. cbn [filter].
    cbn [collectEnvVars].
    destruct (env h varName) as [[|c v]|]; reflexivity. }
  rewrite G. unfold getEnvVar, isSet.
  destruct (env h varName) as [[|c v]|]; unfold_monad.
  - split; [intros f; eauto|]. split.
    + intros v. split; discriminate.
    + intros _. split; reflexivity.
  - split; [intros f; eauto|]. split.
    + intros u. split; intros [= <-]; reflexivity.
    + discriminate.
  - split; [intros f; eauto|]. split.
    + intros v. split; discriminate.
    + intros _. split; reflexivity.
Qed.

(** X13, witness: [PB_DIR] is not set in the sample environment, so the
    fallback is returned. *)
Lemma getEnvVar_fallback_witness :
  getEnvVar "PB_DIR" (Some "database") (Demo.posixWith [] [])
  = (Ret "database", Demo.posixWith [] []).
Proof.
  destruct (getEnvVar_fallback (Demo.posix []) "PB_DIR"
              (Demo.posixWith [] []) eq_refl) as [F _].
  destruct (F "database") as (v & E & V).
  change (isSet (Demo.posix []) "PB_DIR") with false in V. cbv iota in V.
  now rewrite E, V.
Defined.

(** X14. [bunInstall] lets exactly one failure pass: an exit status of 1 is
    logged and swallowed, so the call returns as it does after a clean run.
    Every other failure (another status, a child ended by a signal, a spawn
    error) is thrown to the caller, and the host is never ended.  On
    Windows the command carries [--backend=copy]. *)
Theorem bunInstall_tolerance (h : Host) (pipeOutput : bool) (s : St h) :
  let cmd :=
    match platform h with
    | Win32 => "bun install --backend=copy"
    | Posix => "bun install"
    end in
  let io := if pipeOutput then Pipe else Inherit in
  let r := fst (spawnSync h cmd (Some io) (os s)) in
  fst (bunInstall pipeOutput s)
  = (if succeeded r then Ret tt
     else match failure r with
          | StatusVal (Some 1) => Ret tt
          | e => Throw e
          end)
  /\ In (EvExec cmd) (trace (snd (bunInstall pipeOutput s))).
Proof.
  cbv zeta. unfold bunInstall.
  assert (C : "bun install"
              ++ match platform h with
                 | Win32 => " --backend=copy"
                 | Posix => EmptyString
                 end
              = match platform h with
                | Win32 => "bun install --backend=copy"
                | Posix => "bun install"
                end) by (destruct (platform h); reflexivity).
  rewrite C. clear C.
  set (cmd := match platform h with
              | Win32 => "bun install --backend=copy"
              | Posix => "bun install"
              end).
  unfold tryCatch, bind. rewrite executeCommand_run by discriminate.
  cbv zeta. cbn [stdio].
  destruct (spawnSync h cmd (Some (if pipeOutput then Pipe else Inherit))
              (os s)) as [r w]. cbn [fst snd].
  assert (I : forall t u : list Event,
             In (EvExec cmd)
                ((trace s ++ execTrace cmd
                    {| stdio := Some (if pipeOutput then Pipe else Inherit);
                       exitOnError := None |} r) ++ t ++ u)%list).
  { intros t u. apply in_or_app. left. apply in_or_app. right.
    unfold execTrace. cbn. tauto. }
  destruct (succeeded r).
  - unfold ret. cbn [fst snd trace]. split; [reflexivity|].
    specialize (I [] []). now rewrite !app_nil_r in I.
  - destruct (failure r) as [m|[[|p|p]|]]; unfold_monad; cbn [fst snd trace];
      (split; [try reflexivity|]);
      try (specialize (I [] []); now rewrite !app_nil_r in I).
    + destruct p; reflexivity.
    + destruct p; cbn [snd trace];
        try (specialize (I [] []); now rewrite !app_nil_r in I).
      apply in_or_app. left. apply in_or_app. right.
      unfold execTrace. cbn. tauto.
Qed.

(* ------------------------------------------------------------------ *)
(** ** The registry URL *)

Lemma afterPrefix_app p x : afterPrefix p (p ++ x) = Some x.
Proof.
  induction p as [|c p IH]; cbn [String.append afterPrefix].
  - now destruct x.
  - now rewrite Ascii.eqb_refl.
Qed.

Lemma trimStart_spaces ws c r :
  allChars JS.isWhiteSpace ws = true -> JS.isWhiteSpace c = false ->
  JS.trimStart (ws ++ String c r) = String c r.
Proof.
  intros W C. induction ws as [|a ws IH]; cbn [String.append JS.trimStart].
  - now rewrite C.
  - cbn [allChars] in W. apply andb_true_iff in W as [Wa Ww].
    now rewrite Wa, (IH Ww).
Qed.

Lemma spanNotQuote_solid u r :
  allChars notQuote u = true ->
  spanNotQuote (u ++ String (ascii_of_nat 34) r)
  = (u, String (ascii_of_nat 34) r).
Proof.
  intros Q. induction u as [|c u IH]; cbn [String.append spanNotQuote].
  - reflexivity.
  - cbn [allChars] in Q. apply andb_true_iff in Q as [Qc Qu].
    now rewrite Qc, (IH Qu).
Qed.

Lemma spanNotQuote_prefix s :
  allChars notQuote (fst (spanNotQuote s)) = true.
Proof.
  induction s as [|c s IH]; cbn [spanNotQuote]; [reflexivity|].
  destruct (notQuote c) eqn:Q; [|reflexivity].
  destruct (spanNotQuote s) as [u rest]. cbn [fst allChars] in *.
  now rewrite Q, IH.
Qed.

(** A capture is never empty and holds no quote. *)
Lemma matchScopeAt_capture s url :
  matchScopeAt s = Some url ->
  url <> EmptyString /\ allChars notQuote url = true.
Proof.
  unfold matchScopeAt. destruct (afterPrefix scopeKey s) as [s1|];
    [|discriminate].
  destruct (JS.trimStart s1) as [|e s2]; [discriminate|].
  destruct (Ascii.eqb e "="); [|discriminate].
  destruct (JS.trimStart s2) as [|q s3]; [discriminate|].
  destruct (Ascii.eqb q (ascii_of_nat 34)); [|discriminate].
  pose proof (spanNotQuote_prefix s3) as P.
  destruct (spanNotQuote s3) as [[|c u] [|x rest]]; try discriminate.
  intros [= <-]. split; [discriminate | exact P].
Qed.

Lemma matchScopeRegistry_capture content url :
  matchScopeRegistry content = Some url ->
  url <> EmptyString /\ allChars notQuote url = true.
Proof.
  induction content as [|c content IH]; cbn [matchScopeRegistry].
  - destruct (matchScopeAt EmptyString) eqn:E; [|discriminate].
    intros [= <-]. now apply matchScopeAt_capture in E.
  - destruct (matchScopeAt (String c content)) eqn:E; [|exact IH].
    intros [= <-]. now apply matchScopeAt_capture in E.
Qed.

(** The pattern matches a scope entry and captures its URL. *)
Lemma matchScopeAt_entry ws1 ws2 url post :
  allChars JS.isWhiteSpace ws1 = true ->
  allChars JS.isWhiteSpace ws2 = true ->
  url <> EmptyString -> allChars notQuote url = true ->
  matchScopeAt (scopeEntry ws1 ws2 url ++ post) = Some url.
Proof.
  intros W1 W2 Hu Hq. unfold matchScopeAt, scopeEntry.
  rewrite append_assoc, afterPrefix_app, append_assoc.
  change ("=" ++ ws2 ++ JS.dquote ++ url ++ JS.dquote)
    with (String "="%char (ws2 ++ JS.dquote ++ url ++ JS.dquote)).
  cbn [String.append].
  rewrite (trimStart_spaces ws1 "="%char _ W1) by reflexivity.
  rewrite Ascii.eqb_refl, !append_assoc.
  change (JS.dquote ++ url ++ JS.dquote ++ post)
    with (String (ascii_of_nat 34)
            (url ++ String (ascii_of_nat 34) post)).
  rewrite (trimStart_spaces ws2 (ascii_of_nat 34) _ W2) by reflexivity.
  rewrite Ascii.eqb_refl, spanNotQuote_solid by exact Hq.
  destruct url; [now elim Hu | reflexivity].
Qed.

(** No match starts inside a text without an at sign that is followed by a
    character other than an at sign. *)
Lemma matchScopeRegistry_skip pre d r :
  allChars notAt pre = true -> notAt d = true ->
  matchScopeRegistry (pre ++ String d r) = matchScopeRegistry (String d r).
Proof.
  intros Hp Hd. induction pre as [|c pre IH]; [reflexivity|].
  cbn [allChars] in Hp. apply andb_true_iff in Hp as [Hc Hp].
  cbn [String.append matchScopeRegistry].
  assert (N : matchScopeAt (String c (pre ++ String d r)) = None).
  { unfold matchScopeAt, scopeKey.
    change (JS.dquote ++ "@lifeforge" ++ JS.dquote)
      with (String (ascii_of_nat 34)
              (String "@"%char ("lifeforge" ++ JS.dquote))).
    cbn [afterPrefix].
    destruct (Ascii.eqb (ascii_of_nat 34) c); [|reflexivity].
    destruct pre as [|c2 pre]; cbn [String.append].
    - unfold notAt in Hd. apply negb_true_iff in Hd.
      rewrite Ascii.eqb_sym in Hd. now rewrite Hd.
    - cbn [allChars] in Hp. apply andb_true_iff in Hp as [Hc2 _].
      unfold notAt in Hc2. apply negb_true_iff in Hc2.
      rewrite Ascii.eqb_sym in Hc2. now rewrite Hc2. }
  rewrite N. exact (IH Hp).
Qed.

Section RegistryFacts.

Context {h : Host}.

Variable pf : Outside h.

(** What [getRegistryUrl] does. *)
Lemma getRegistryUrl_run (s : St h) :
  getRegistryUrl pf s
  = if existsSync pf (bunfigPath pf) (os s) then
      match readFileSync pf (bunfigPath pf) (os s) with
      | inl content =>
          (Ret match matchScopeRegistry content with
               | Some url => url
               | None => defaultRegistry
               end, s)
      | inr e => (Throw e, s)
      end
    else (Ret defaultRegistry, s).
Proof.
  unfold getRegistryUrl, existsSyncM, readFileSyncM, bind. cbv beta.
  destruct (existsSync pf (bunfigPath pf) (os s)); [|reflexivity].
  destruct (readFileSync pf (bunfigPath pf) (os s)) as [content|e];
    [|reflexivity].
  destruct (matchScopeRegistry content); reflexivity.
Qed.

End RegistryFacts.

(** X15. The registry configured in [bunfig.toml] is the one that is used:
    when the file holds a scope entry for [@lifeforge] (the quoted scope, an
    equals sign with any white space around it, the quoted URL), and the
    text before the entry holds no at sign, [getRegistryUrl] returns
    exactly the URL between the quotes, whatever follows the entry. *)
Theorem getRegistryUrl_configured
  (h : Host) (pf : Outside h) (pre ws1 ws2 url post : string) (s : St h) :
  allChars notAt pre = true ->
  allChars JS.isWhiteSpace ws1 = true ->
  allChars JS.isWhiteSpace ws2 = true ->
  url <> EmptyString ->
  allChars notQuote url = true ->
  existsSync pf (bunfigPath pf) (os s) = true ->
  readFileSync pf (bunfigPath pf) (os s)
  = inl (pre ++ scopeEntry ws1 ws2 url ++ post) ->
  getRegistryUrl pf s = (Ret url, s).
Proof.
  intros Hp W1 W2 Hu Hq He Hr. rewrite getRegistryUrl_run, He, Hr.
  pose proof (matchScopeAt_entry ws1 ws2 url post W1 W2 Hu Hq) as M.
  assert (E : exists r, scopeEntry ws1 ws2 url ++ post
                        = String (ascii_of_nat 34) r)
    by (unfold scopeEntry, scopeKey; cbn; eauto).
  destruct E as [r E]. rewrite E in *.
  rewrite matchScopeRegistry_skip by (exact Hp || reflexivity).
  cbn [matchScopeRegistry]. now rewrite M.
Qed.

(** X15, witness: a [bunfig.toml] with a section header before the
    entry. *)
Lemma getRegistryUrl_configured_witness :
  getRegistryUrl Sample.outside Sample.start
  = (Ret "https://npm.example.org/registry", Sample.start).
Proof.
  apply (getRegistryUrl_configured Sample.host Sample.outside
           ("[install.scopes]" ++ JS.nl) " " " "
           "https://npm.example.org/registry" JS.nl Sample.start);
    try reflexivity.
  discriminate.
Defined.

(** X16. [getRegistryUrl] changes nothing and never returns an empty URL.
    Without a [bunfig.toml], or with one that holds no scope entry, it
    returns the default registry; a URL taken from the file is non-empty
    and holds no double quote.  The only way it fails is by throwing what
    reading the existing file threw. *)
Theorem getRegistryUrl_outcome (h : Host) (pf : Outside h) (s : St h) :
  snd (getRegistryUrl pf s) = s
  /\ match fst (getRegistryUrl pf s) with
     | Ret url =>
         url <> EmptyString
         /\ (url = defaultRegistry \/ allChars notQuote url = true)
         /\ (existsSync pf (bunfigPath pf) (os s) = false ->
             url = defaultRegistry)
         /\ (forall content,
               readFileSync pf (bunfigPath pf) (os s) = inl content ->
               matchScopeRegistry content = None ->
               url = defaultRegistry)
     | Throw e =>
         existsSync pf (bunfigPath pf) (os s) = true
         /\ readFileSync pf (bunfigPath pf) (os s) = inr e
     | _ => False
     end.
Proof.
  rewrite getRegistryUrl_run.
  destruct (existsSync pf (bunfigPath pf) (os s)) eqn:He.
  - destruct (readFileSync pf (bunfigPath pf) (os s)) as [content|e] eqn:Hr;
      cbn [fst snd]; (split; [reflexivity|]); [|auto].
    destruct (matchScopeRegistry content) as [url|] eqn:M.
    + destruct (matchScopeRegistry_capture content url M) as [Hn Hq].
      repeat split; auto; try discriminate.
      intros c [= <-] Mc. congruence.
    + repeat split; auto; discriminate.
  - cbn [fst snd]. repeat split; auto; discriminate.
Qed.

(* ------------------------------------------------------------------ *)
(** ** Asking the registry *)

Lemma endsWith_app s p : endsWith (s ++ p) p = true.
Proof.
  induction s as [|c s IH]; cbn [String.append].
  - destruct p; cbn [endsWith]; rewrite String.eqb_refl; reflexivity.
  - cbn [endsWith]. rewrite IH. apply orb_true_r.
Qed.

Lemma withSlash_ends registry : endsWith (withSlash registry) "/" = true.
Proof.
  unfold withSlash. destruct (endsWith registry "/") eqn:E; [exact E|].
  apply endsWith_app.
Qed.

Section Asking.

Context {h : Host}.

Variable pf : Outside h.

(** What [checkPackageExists] does once the registry is known. *)
Lemma checkPackageExists_run packageName (s : St h) :
  checkPackageExists pf packageName s
  = match getRegistryUrl pf s with
    | (Ret registry, _) =>
        let r := fetch pf "HEAD" (withSlash registry ++ packageName) (os s) in
        (Ret match fst r with
             | inl response => ok response
             | inr _ => false
             end,
         {| os := snd r; trace := trace s |})
    | (Throw e, _) => (Throw e, s)
    | (Exit c, _) => (Exit c, s)
    | (Hang, _) => (Hang, s)
    end.
Proof.
  unfold checkPackageExists. unfold bind at 1.
  pose proof (getRegistryUrl_run pf s) as R.
  destruct (getRegistryUrl pf s) as [[registry|e|c|] s1].
  - assert (s1 = s) as ->.
    { destruct (existsSync pf _ _); [destruct (readFileSync pf _ _)|];
        now injection R. }
    unfold tryCatch, bind, fetchM, withSlash. cbv zeta.
    destruct (fetch pf "HEAD" _ (os s)) as [[response|e] w]; reflexivity.
  - destruct (existsSync pf _ _); [destruct (readFileSync pf _ _)|];
      now injection R as _ ->.
  - destruct (existsSync pf _ _); [destruct (readFileSync pf _ _)|];
      discriminate R.
  - destruct (existsSync pf _ _); [destruct (readFileSync pf _ _)|];
      discriminate R.
Qed.

End Asking.

(** X17. With the registry URL in hand, [checkPackageExists] never throws
    and leaves the trace as it was: it sends one [HEAD] request and answers
    [true] exactly when a response arrives whose [ok] flag is set; a failed
    request answers [false].  The address requested is the registry, with a
    slash added when it does not end with one, followed by the package name,
    so a registry written with and without the final slash gives the same
    request. *)
Theorem checkPackageExists_request
  (h : Host) (pf : Outside h) (registry packageName : string) (s : St h) :
  getRegistryUrl pf s = (Ret registry, s) ->
  let r := fetch pf "HEAD" (withSlash registry ++ packageName) (os s) in
  checkPackageExists pf packageName s
  = (Ret match fst r with
         | inl response => ok response
         | inr _ => false
         end,
     {| os := snd r; trace := trace s |})
  /\ endsWith (withSlash registry) "/" = true
  /\ (endsWith registry "/" = false ->
      withSlash (registry ++ "/") = withSlash registry).
Proof.
  intros Hr. cbv zeta. rewrite checkPackageExists_run, Hr. cbv zeta.
  split; [reflexivity|]. split; [apply withSlash_ends|].
  intros E. unfold withSlash. now rewrite endsWith_app, E.
Qed.

(** X17, witness: the registry of the sample is written without a final
    slash; the package it knows is found. *)
Lemma checkPackageExists_request_witness :
  fst (checkPackageExists Sample.outside "@lifeforge/lifeforge--calendar"
         Sample.start)
  = Ret true.
Proof.
  rewrite (proj1 (checkPackageExists_request Sample.host Sample.outside
                    "https://npm.example.org/registry"
                    "@lifeforge/lifeforge--calendar" Sample.start
                    eq_refl)).
  reflexivity.
Defined.

Section Answers.

Context {h : Host}.

Variable pf : Outside h.

Lemma getRegistryUrl_state (s : St h) : snd (getRegistryUrl pf s) = s.
Proof.
  rewrite getRegistryUrl_run.
  destruct (existsSync pf _ _); [destruct (readFileSync pf _ _)|];
    reflexivity.
Qed.

Lemma getRegistryUrl_ends (s : St h) :
  match fst (getRegistryUrl pf s) with
  | Ret _ | Throw _ => True
  | _ => False
  end.
Proof.
  rewrite getRegistryUrl_run.
  destruct (existsSync pf _ _); [destruct (readFileSync pf _ _)|];
    exact I.
Qed.

(** Fetching the metadata: only a failure to read the registry URL is
    thrown; a bad URL, a failed request, a response that is not [ok] and a
    body that is not JSON all give [null]. *)
Lemma getPackageMetadata_outcome packageName (s : St h) :
  match fst (getPackageMetadata pf packageName s) with
  | Ret _ => exists registry, fst (getRegistryUrl pf s) = Ret registry
  | Throw e => fst (getRegistryUrl pf s) = Throw e
  | _ => False
  end.
Proof.
  unfold getPackageMetadata. unfold bind at 1.
  pose proof (getRegistryUrl_ends s) as E.
  destruct (getRegistryUrl pf s) as [[registry|e|c|] s1]; cbn [fst] in *;
    try contradiction; [|reflexivity].
  unfold tryCatch. destruct (metadataUrl pf registry packageName) as [u|].
  - unfold bind, fetchM. destruct (fetch pf "GET" u (os s1)) as [[r|e] w].
    + destruct (negb (ok r)); [cbn; eauto|].
      destruct (json r); cbn; eauto.
    + cbn. eauto.
  - cbn. eauto.
Qed.

Lemma orNull_nonempty x v : orNull x = Some v -> v <> EmptyString.
Proof. destruct x as [[|c u]|]; cbn; intros [= <-]; discriminate. Qed.

(** The two queries run the same request and read the same answer. *)
Lemma registry_queries packageName (s : St h) :
  (exists m s1,
     getPackageLatestVersion pf packageName s
     = (Ret (orNull (latestOf m)), s1)
     /\ getPackageTarballUrl pf packageName s
        = (Ret match orNull (latestOf m) with
               | Some v => orNull (tarballOf m v)
               | None => None
               end, s1))
  \/ (exists e s1,
        fst (getRegistryUrl pf s) = Throw e
        /\ getPackageLatestVersion pf packageName s = (Throw e, s1)
        /\ getPackageTarballUrl pf packageName s = (Throw e, s1)).
Proof.
  unfold getPackageLatestVersion, getPackageTarballUrl, bind.
  pose proof (getPackageMetadata_outcome packageName s) as O.
  destruct (getPackageMetadata pf packageName s) as [[m|e|c|] s1];
    cbn [fst] in O; try contradiction.
  - left. exists m, s1. split; [reflexivity|].
    destruct (latestOf m) as [[|c v]|]; reflexivity.
  - right. exists e, s1. auto.
Qed.

Lemma registry_answers packageName registry (s : St h) :
  fst (getRegistryUrl pf s) = Ret registry ->
  let answer := answerOf pf registry packageName (os s) in
  fst (getPackageLatestVersion pf packageName s)
  = Ret (orNull (latestOf answer))
  /\ fst (getPackageTarballUrl pf packageName s)
     = Ret match orNull (latestOf answer) with
           | Some v => orNull (tarballOf answer v)
           | None => None
           end.
Proof.
  intros R answer. subst answer.
  pose proof (getRegistryUrl_state s) as Hs.
  assert (G : fst (getPackageMetadata pf packageName s)
              = Ret (answerOf pf registry packageName (os s))).
  { unfold getPackageMetadata, answerOf. unfold bind at 1.
    destruct (getRegistryUrl pf s) as [o s1]. cbn [fst snd] in *.
    subst o s1. unfold tryCatch.
    destruct (metadataUrl pf registry packageName) as [u|]; [|reflexivity].
    unfold bind, fetchM.
    destruct (fetch pf "GET" u (os s)) as [[r|e] w]; cbn [fst];
      [|reflexivity].
    destruct (ok r); cbn [negb]; [|reflexivity].
    destruct (json r); reflexivity. }
  unfold getPackageLatestVersion, getPackageTarballUrl, bind.
  destruct (getPackageMetadata pf packageName s) as [o s1].
  cbn [fst] in G. subst o. split; [reflexivity|].
  destruct (latestOf (answerOf pf registry packageName (os s)))
    as [[|c v]|]; reflexivity.
Qed.

End Answers.

(** X18. [checkAuth] returns only for an authenticated user.  With the
    registry URL in hand it runs [npm whoami] once: when the command
    succeeds with a non-blank output it returns [authenticated: true] with
    the trimmed output as user name, and in every other case (the command
    fails, or prints nothing) it ends the host with status 1.  A returned
    status is therefore always authenticated, with a non-empty user name
    free of surrounding white space; the only thing it throws is a failure
    to read the registry URL. *)
Theorem checkAuth_outcome (h : Host) (pf : Outside h) (s : St h) :
  (forall msg t, exists t', warn pf msg t = (Ret tt, t')) ->
  (forall registry,
     getRegistryUrl pf s = (Ret registry, s) ->
     let r := fst (spawnSync h (whoami registry) (Some Pipe) (os s)) in
     fst (checkAuth pf s)
     = if succeeded r && JS.truthy (output r)
       then Ret {| auth_authenticated := true;
                   auth_username := Some (output r) |}
       else Exit 1)
  /\ (forall e,
        fst (checkAuth pf s) = Throw e -> fst (getRegistryUrl pf s) = Throw e)
  /\ (forall a,
        fst (checkAuth pf s) = Ret a ->
        auth_authenticated a = true
        /\ exists name,
             auth_username a = Some name
             /\ name <> EmptyString /\ JS.trim name = name).
Proof.
  intros Hw.
  assert (R : forall registry,
             getRegistryUrl pf s = (Ret registry, s) ->
             fst (checkAuth pf s)
             = if succeeded
                    (fst (spawnSync h (whoami registry) (Some Pipe) (os s)))
                  && JS.truthy
                       (output
                          (fst (spawnSync h (whoami registry) (Some Pipe)
                                  (os s))))
               then Ret {| auth_authenticated := true;
                           auth_username :=
                             Some (output
                                     (fst (spawnSync h (whoami registry)
                                             (Some Pipe) (os s)))) |}
               else Exit 1).
  { intros registry Hr. unfold checkAuth. unfold bind at 1. rewrite Hr.
    unfold tryCatch. unfold bind at 1.
    rewrite executeCommand_run by discriminate. cbv zeta. cbn [stdio].
    fold (whoami registry).
    destruct (spawnSync h (whoami registry) (Some Pipe) (os s)) as [r w].
    cbn [fst snd].
    destruct (succeeded r); cbn [andb].
    - rewrite output_trimmed.
      destruct (JS.truthy (output r)); [reflexivity|].
      unfold throw, bind, processExit.
      match goal with
      | |- context [warn pf ?m ?t] => destruct (Hw m t) as [t' ->]
      end. reflexivity.
    - unfold bind, processExit.
      match goal with
      | |- context [warn pf ?m ?t] => destruct (Hw m t) as [t' ->]
      end. reflexivity. }
  pose proof (getRegistryUrl_state pf s) as Hs.
  pose proof (getRegistryUrl_ends pf s) as He.
  destruct (getRegistryUrl pf s) as [[registry|e0|c|] s1] eqn:G;
    cbn [fst snd] in *; try contradiction; subst s1.
  - split; [intros r0 [= <-]; now apply R|]. split.
    + intros e. rewrite (R registry eq_refl).
      destruct (succeeded _ && JS.truthy _); discriminate.
    + intros a. rewrite (R registry eq_refl).
      set (r := fst (spawnSync h (whoami registry) (Some Pipe) (os s))).
      destruct (succeeded r); cbn [andb]; [|discriminate].
      destruct (JS.truthy (output r)) eqn:T; [|discriminate].
      intros [= <-]. cbn [auth_authenticated auth_username].
      split; [reflexivity|]. exists (output r).
      split; [reflexivity|]. split; [|apply output_trimmed].
      intros E. rewrite E in T. discriminate.
  - assert (C : fst (checkAuth pf s) = Throw e0).
    { unfold checkAuth. unfold bind at 1. now rewrite G. }
    split; [discriminate|]. rewrite C. split; [now intros e [= <-]|].
    discriminate.
Qed.

(** X18, witness: the sample user is logged in as [alice]. *)
Lemma checkAuth_outcome_witness :
  fst (checkAuth Sample.outside Sample.start)
  = Ret {| auth_authenticated := true; auth_username := Some "alice" |}.
Proof.
  assert (W : forall msg (t : St Sample.host),
             exists t', warn Sample.outside msg t = (Ret tt, t'))
    by (intros msg t; eexists; reflexivity).
  exact (proj1 (checkAuth_outcome Sample.host Sample.outside Sample.start W)
           "https://npm.example.org/registry" eq_refl).
Defined.

(** X19. The two registry queries fail softly and agree.  With the
    registry URL read, a metadata URL that cannot be built, a failed
    request, a response that is not [ok] and a body that is not JSON each
    make both queries return [null]; from a parsed body the first returns
    the latest version named by the distribution tags and the second the
    tarball of that very version (or [null] where a field is missing or
    empty).  So a tarball URL is returned only when a latest version is
    returned too, and both are then non-empty.  Neither query ends the
    host, and the only thing either throws is a failure to read the
    registry URL. *)
Theorem getPackageTarballUrl_latest
  (h : Host) (pf : Outside h) (packageName : string) (s : St h) :
  let latest := fst (getPackageLatestVersion pf packageName s) in
  let tarball := fst (getPackageTarballUrl pf packageName s) in
  (forall registry,
     fst (getRegistryUrl pf s) = Ret registry ->
     match metadataUrl pf registry packageName with
     | None => latest = Ret None /\ tarball = Ret None
     | Some u =>
         match fst (fetch pf "GET" u (os s)) with
         | inr _ => latest = Ret None /\ tarball = Ret None
         | inl response =>
             if ok response then
               match json response with
               | None => latest = Ret None /\ tarball = Ret None
               | Some m =>
                   latest = Ret (orNull (latestOf (Some m)))
                   /\ tarball
                      = Ret match orNull (latestOf (Some m)) with
                            | Some v => orNull (tarballOf (Some m) v)
                            | None => None
                            end
               end
             else latest = Ret None /\ tarball = Ret None
         end
     end)
  /\ (forall url,
        tarball = Ret (Some url) ->
        url <> EmptyString
        /\ exists v, v <> EmptyString /\ latest = Ret (Some v))
  /\ (latest = Ret None -> tarball = Ret None)
  /\ (forall e, tarball = Throw e <-> latest = Throw e)
  /\ (forall e, tarball = Throw e -> fst (getRegistryUrl pf s) = Throw e)
  /\ (forall c, tarball <> Exit c /\ latest <> Exit c).
Proof.
  cbv zeta. split.
  { intros registry R.
    destruct (registry_answers pf packageName registry s R) as [L T].
    rewrite L, T. unfold answerOf.
    destruct (metadataUrl pf registry packageName) as [u|];
      [|split; reflexivity].
    destruct (fst (fetch pf "GET" u (os s))) as [r|e];
      [|split; reflexivity].
    destruct (ok r); [|split; reflexivity].
    destruct (json r); split; reflexivity. }
  destruct (registry_queries pf packageName s)
    as [(m & s1 & -> & ->)|(e & s1 & R & -> & ->)]; cbn [fst].
  - pose proof (orNull_nonempty (latestOf m)) as N.
    destruct (orNull (latestOf m)) as [v|].
    + pose proof (orNull_nonempty (tarballOf m v)) as Nt.
      destruct (orNull (tarballOf m v)) as [u|].
      * split; [intros url [= <-]; split; [now apply Nt|];
                exists v; split; [now apply N | reflexivity]|].
        repeat split; intros; discriminate.
      * repeat split; intros; discriminate.
    + split; [discriminate|]. split; [reflexivity|].
      repeat split; intros; discriminate.
  - split; [discriminate|]. split; [discriminate|].
    split; [tauto|]. split; [now intros e0 [= <-]|].
    repeat split; intros; discriminate.
Qed.

(** X19, witness: the sample registry knows the calendar module; its
    latest version is 1.2.0 and the tarball returned is that of 1.2.0. *)
Lemma getPackageTarballUrl_latest_witness :
  fst (getPackageLatestVersion Sample.outside
         "@lifeforge/lifeforge--calendar" Sample.start)
  = Ret (Some "1.2.0")
  /\ fst (getPackageTarballUrl Sample.outside
            "@lifeforge/lifeforge--calendar" Sample.start)
     = Ret (Some "https://npm.example.org/t/cal-1.2.0.tgz").
Proof.
  exact (proj1 (getPackageTarballUrl_latest Sample.host Sample.outside
                  "@lifeforge/lifeforge--calendar" Sample.start)
           "https://npm.example.org/registry" eq_refl).
Defined.

(* ------------------------------------------------------------------ *)
(** ** Who may publish a module *)

Lemma prefix_dashes_app (u rest : string) :
  String.prefix "--" (u ++ "-") = false ->
  u <> EmptyString ->
  String.prefix "--" (u ++ "--" ++ rest) = false.
Proof.
  destruct u as [|c u]; [now intros _ []|]. intros H _.
  cbn [String.append String.prefix] in *.
  destruct (ascii_dec "-" c) as [_|]; [|reflexivity].
  destruct u as [|d u]; cbn [String.append String.prefix] in *.
  - exact H.
  - destruct (ascii_dec "-" d); [|reflexivity].
    destruct (u ++ "-")%string; discriminate.
Qed.

Lemma beforeFirst_owner (owner rest : string) :
  JS.includes (owner ++ "-") "--" = false ->
  beforeFirst "--" (owner ++ "--" ++ rest) = owner.
Proof.
  induction owner as [|c u IH]; intros H.
  - destruct rest; reflexivity.
  - cbn [String.append JS.includes] in H.
    apply Bool.orb_false_iff in H. destruct H as [P I].
    change (String c u ++ "--" ++ rest)%string
      with (String c (u ++ "--" ++ rest))%string.
    cbn [beforeFirst].
    change (String c (u ++ "--" ++ rest))%string
      with (String c u ++ "--" ++ rest)%string at 1.
    rewrite (prefix_dashes_app (String c u) rest) by (exact P || discriminate).
    now rewrite IH.
Qed.

Lemma usernamePrefixOf_scoped (owner rest : string) :
  JS.includes (owner ++ "-") "--" = false ->
  usernamePrefixOf ("@lifeforge/" ++ owner ++ "--" ++ rest) = owner.
Proof.
  intros H. unfold usernamePrefixOf.
  replace (replaceFirst "@lifeforge/" EmptyString
             ("@lifeforge/" ++ owner ++ "--" ++ rest))
    with (owner ++ "--" ++ rest)%string by reflexivity.
  now apply beforeFirst_owner.
Qed.

Section Publishers.

Context {h : Host}.

Variable pf : Outside h.

(** [checkAuth] returns only with the name of a user. *)
Lemma checkAuth_returns (s s1 : St h) (auth : AuthStatus) :
  checkAuth pf s = (Ret auth, s1) ->
  exists c name, auth_username auth = Some (String c name).
Proof.
  unfold checkAuth. unfold bind at 1.
  destruct (getRegistryUrl pf s) as [[registry|e0|c0|] s0];
    [|discriminate..].
  unfold tryCatch. unfold bind at 1.
  rewrite executeCommand_run by discriminate. cbv zeta. cbn [stdio].
  destruct (spawnSync h _ (Some Pipe) (os s0)) as [r w]. cbn [fst snd].
  assert (X : forall t : St h,
             (warn pf "Not authenticated. Please login first." ;;
              processExit 1) t <> (Ret auth, s1)).
  { intros t. unfold bind, processExit.
    destruct (warn pf _ t) as [[[]| | |] t']; discriminate. }
  destruct (succeeded r).
  - destruct (JS.trim (output r)) as [|c name] eqn:T; cbn [JS.truthy].
    + unfold throw. intros E. now apply X in E.
    + unfold ret. intros [= <- _]. cbn [auth_username]. eauto.
  - intros E. now apply X in E.
Qed.

End Publishers.

(** X20. Who passes the author check.  Let the package name read from
    [package.json] be the scope, an owner, a double dash and a rest, where
    the owner holds no double dash and does not end in a dash, and let the
    registry know the caller as [user].  If the owner equals [user], or is
    empty, the check returns at once: nothing is logged or run after the
    file was read.  If the owner is [lifeforge], the outcome is that of
    [validateMaintainerAccess] for [user].  For every other owner the host
    is ended with status 1 and no command is run. *)
Theorem validateModuleAuthor_owner
  (h : Host) (pf : Outside h)
  (readPackageName : string -> M h (option string))
  (validateMaintainerAccess : string -> M h unit)
  (modulePath owner rest : string) (s s1 s2 : St h) (auth : AuthStatus) :
  JS.includes (owner ++ "-") "--" = false ->
  checkAuth pf s = (Ret auth, s1) ->
  readPackageName modulePath s1
  = (Ret (Some ("@lifeforge/" ++ owner ++ "--" ++ rest)), s2) ->
  exists user,
    auth_username auth = Some user
    /\ user <> EmptyString
    /\ let run :=
         validateModuleAuthor pf readPackageName validateMaintainerAccess
           modulePath s in
       if String.eqb owner EmptyString || String.eqb owner user
       then run = (Ret tt, s2)
       else if String.eqb owner "lifeforge"
            then run = validateMaintainerAccess user s2
            else fst run = Exit 1 /\ os (snd run) = os s2.
Proof.
  intros Hd Ha Hr.
  destruct (checkAuth_returns pf s s1 auth Ha) as (c & name & U).
  exists (String c name). split; [exact U|]. split; [discriminate|].
  assert (R : validateModuleAuthor pf readPackageName
                validateMaintainerAccess modulePath s
              = (if JS.truthy owner
                    && negb (String.eqb owner (String c name))
                 then
                   if String.eqb owner "lifeforge"
                   then validateMaintainerAccess (String c name)
                   else
                     Logging.actionableError
                       ("Cannot publish as " ++ JS.dquote ++ String c name
                        ++ JS.dquote ++ " - package belongs to "
                        ++ JS.dquote ++ owner ++ JS.dquote)
                       ("You can only publish packages starting with "
                        ++ "@lifeforge/" ++ String c name ++ "--") ;;
                     processExit 1
                 else ret tt) s2).
  { unfold validateModuleAuthor. unfold bind at 1. rewrite Ha.
    unfold bind at 1. rewrite Hr. cbv zeta.
    rewrite (usernamePrefixOf_scoped owner rest Hd). rewrite U.
    reflexivity. }
  cbv zeta. rewrite R. clear R.
  destruct owner as [|d owner]; [reflexivity|].
  cbn [JS.truthy andb orb].
  destruct (String.eqb (String d owner) (String c name)); cbn [negb];
    [reflexivity|].
  destruct (String.eqb (String d owner) "lifeforge"); [reflexivity|].
  unfold bind, Logging.actionableError, emit, processExit.
  cbn [fst snd os]. split; reflexivity.
Qed.

(** X20, witness: [alice] may publish [@lifeforge/alice--calendar]. *)
Lemma validateModuleAuthor_owner_witness :
  fst (validateModuleAuthor Sample.outside
         (fun _ => ret (Some "@lifeforge/alice--calendar"))
         (fun _ => ret tt) "modules/calendar" Sample.start)
  = Ret tt.
Proof.
  destruct (validateModuleAuthor_owner Sample.host Sample.outside
              (fun _ => ret (Some "@lifeforge/alice--calendar"))
              (fun _ => ret tt) "modules/calendar" "alice" "calendar"
              Sample.start
              (snd (checkAuth Sample.outside Sample.start))
              (snd (checkAuth Sample.outside Sample.start))
              {| auth_authenticated := true; auth_username := Some "alice" |}
              eq_refl eq_refl eq_refl)
    as (user & U & _ & R).
  injection U as <-. cbv zeta in R.
  change (String.eqb "alice" EmptyString || String.eqb "alice" "alice")
    with true in R.
  cbv iota in R. now rewrite R.
Defined.
